(** * DSL suggestions engine: a shallow embedding

    The analysed program is a line-oriented linter for a small expression
    language, written in JavaScript: [dslRuleUtilities.js] (lexical
    helpers), [dslRules.js] (the eight rules, first and current copy in the
    consolidated file) and [dslSuggestionsEngine.js] ([analyzeDSL],
    [applyCodeSuggestions]).

    JavaScript strings are modelled as [string] (sequences of 8-bit
    characters, i.e. the Latin-1 fragment of UTF-16), numbers used as
    indices and counters as [nat], objects as records with optional fields,
    exceptions as a result type, and the mutable [_instanceCounter] of each
    rule object as explicit state. *)

From Stdlib Require Import Bool Arith ZArith Lia List Ascii String.
From Stdlib Require Import DecimalString.
Import ListNotations.
Open Scope bool_scope.
Open Scope string_scope.
Open Scope nat_scope.

(* ================================================================== *)
(** ** Characters and JavaScript string primitives *)
(* ================================================================== *)

Module Js.

Definition dquote : ascii := "034"%char.
Definition squote : ascii := "039"%char.
Definition backslash : ascii := "092"%char.
Definition space : ascii := " "%char.
Definition newline : ascii := "010"%char.

(** [s.length] is [String.length s]; [s[i]] and [s.charAt(i)] are
    [String.get i s] ([None] for [undefined] / the empty string). *)

Definition opt_ascii_eqb (a : option ascii) (c : ascii) : bool :=
  match a with
  | Some x => Ascii.eqb x c
  | None => false
  end.

(** White space of [String.prototype.trim] and of the regular-expression
    class [\s], restricted to 8-bit characters. *)
Definition isWhite (c : ascii) : bool :=
  let n := nat_of_ascii c in
  (n =? 32) || (n =? 9) || (n =? 10) || (n =? 11) || (n =? 12) || (n =? 13)
  || (n =? 160).

Definition isUpper (c : ascii) : bool :=
  let n := nat_of_ascii c in (65 <=? n) && (n <=? 90).

Definition isLower (c : ascii) : bool :=
  let n := nat_of_ascii c in (97 <=? n) && (n <=? 122).

Definition isDigit (c : ascii) : bool :=
  let n := nat_of_ascii c in (48 <=? n) && (n <=? 57).

(** [\w] *)
Definition isWord (c : ascii) : bool :=
  isUpper c || isLower c || isDigit c || Ascii.eqb c "_"%char.

Definition toLowerChar (c : ascii) : ascii :=
  if isUpper c then ascii_of_nat (nat_of_ascii c + 32) else c.

Definition toUpperChar (c : ascii) : ascii :=
  if isLower c then ascii_of_nat (nat_of_ascii c - 32) else c.

Fixpoint mapString (f : ascii -> ascii) (s : string) : string :=
  match s with
  | EmptyString => EmptyString
  | String c r => String (f c) (mapString f r)
  end.

Definition toLowerCase := mapString toLowerChar.
Definition toUpperCase := mapString toUpperChar.

Fixpoint dropn (n : nat) (s : string) : string :=
  match n, s with
  | O, _ => s
  | S _, EmptyString => EmptyString
  | S k, String _ r => dropn k r
  end.

Fixpoint taken (n : nat) (s : string) : string :=
  match n, s with
  | O, _ => EmptyString
  | S _, EmptyString => EmptyString
  | S k, String c r => String c (taken k r)
  end.

(** [s.substring(a, b)]: both ends are clamped to the length and swapped
    when [a > b]. *)
Definition substring (a b : nat) (s : string) : string :=
  let lo := Nat.min a b in
  let hi := Nat.max a b in
  taken (hi - lo) (dropn lo s).

(** [s.slice(a)] and [s.substring(a)] for a non-negative [a]. *)
Definition sliceFrom (a : nat) (s : string) : string := dropn a s.

(** [s.substr(a, n)] for non-negative arguments. *)
Definition substr (a n : nat) (s : string) : string := taken n (dropn a s).

Definition charAt (i : nat) (s : string) : string := substr i 1 s.

Fixpoint startsWith (p s : string) : bool :=
  match p, s with
  | EmptyString, _ => true
  | String _ _, EmptyString => false
  | String a p', String b s' => Ascii.eqb a b && startsWith p' s'
  end.

(** [s.indexOf(p)], [None] for [-1]. *)
Fixpoint indexOfFrom (i : nat) (p s : string) : option nat :=
  if startsWith p s then Some i
  else match s with
       | EmptyString => None
       | String _ r => indexOfFrom (S i) p r
       end.

Definition indexOf (p s : string) : option nat := indexOfFrom 0 p s.

Definition includes (p s : string) : bool :=
  match indexOf p s with Some _ => true | None => false end.

Fixpoint trimStart (s : string) : string :=
  match s with
  | EmptyString => EmptyString
  | String c r => if isWhite c then trimStart r else s
  end.

Fixpoint allWhite (s : string) : bool :=
  match s with
  | EmptyString => true
  | String c r => isWhite c && allWhite r
  end.

Fixpoint trimEnd (s : string) : string :=
  match s with
  | EmptyString => EmptyString
  | String c r => if allWhite s then EmptyString else String c (trimEnd r)
  end.

Definition trim (s : string) : string := trimEnd (trimStart s).

(** [s.split(sep)] for a non-empty separator: the pieces between the
    occurrences of [sep], always at least one piece. Every turn removes at
    least one character, so the fuel [String.length s] is enough. *)
Fixpoint splitStr (sep : string) (fuel : nat) (s : string) : list string :=
  match fuel with
  | O => [s]
  | S f =>
      match indexOf sep s with
      | None => [s]
      | Some i => taken i s :: splitStr sep f (dropn (i + String.length sep) s)
      end
  end.

Definition split (sep s : string) : list string :=
  splitStr sep (String.length s) s.

(** [a.join(sep)] *)
Definition join (sep : string) (l : list string) : string :=
  String.concat sep l.

(** The decimal rendering of a counter, as produced by string
    concatenation with a number. *)
Definition natToString (n : nat) : string :=
  NilEmpty.string_of_uint (Nat.to_uint n).

(** JavaScript truthiness of an optional string: [undefined] and the empty
    string are falsy. *)
Definition truthyStr (o : option string) : bool :=
  match o with
  | Some EmptyString => false
  | Some _ => true
  | None => false
  end.

(** [o || d] on strings. *)
Definition orStr (o : option string) (d : string) : string :=
  match o with
  | Some EmptyString => d
  | Some s => s
  | None => d
  end.

Definition truthyBool (o : option bool) : bool :=
  match o with Some true => true | _ => false end.

(** The property names that every plain object inherits from
    [Object.prototype]. Reading such a key on an object without an own
    property of that name gives a function, or [Object.prototype] itself
    for [__proto__], never [undefined]; assigning a string to [__proto__]
    creates no property. *)
Definition protoKeys : list string :=
  ["constructor"; "__proto__"; "hasOwnProperty"; "isPrototypeOf";
   "propertyIsEnumerable"; "toLocaleString"; "toString"; "valueOf";
   "__defineGetter__"; "__defineSetter__"; "__lookupGetter__";
   "__lookupSetter__"].

Definition isProtoKey (key : string) : bool :=
  existsb (String.eqb key) protoKeys.

End Js.

(* ================================================================== *)
(** ** dslRuleUtilities.js: string-literal masking *)
(* ================================================================== *)

Module DSLRuleUtils.

(** The test shared by both scanners: the character is a double or a
    single quote, and [i === 0] or [line[i-1]] is not a backslash;
    [prev] is [line[i-1]], [None] at [i = 0]. *)
Definition isDelimiter (prev : option ascii) (char : ascii) : bool :=
  (Ascii.eqb char Js.dquote || Ascii.eqb char Js.squote)
  && negb (Js.opt_ascii_eqb prev Js.backslash).

(** The body of the [for] loop of [removeStringLiterals], from index [i]
    on; [line] is the remainder [line[i..]], the result is what is appended
    to [result]. *)
Fixpoint removeLoop (inString : bool) (stringChar : option ascii)
         (prev : option ascii) (line : string) : string :=
  match line with
  | EmptyString => EmptyString
  | String char rest =>
      if isDelimiter prev char then
        if negb inString then
          String Js.space (removeLoop true (Some char) (Some char) rest)
        else if Js.opt_ascii_eqb stringChar char then
          String Js.space (removeLoop false None (Some char) rest)
        else
          String Js.space (removeLoop inString stringChar (Some char) rest)
      else if inString then
        String Js.space (removeLoop inString stringChar (Some char) rest)
      else
        String char (removeLoop inString stringChar (Some char) rest)
  end.

Definition removeStringLiterals (line : string) : string :=
  removeLoop false None None line.

(** The [for] loop of [isInsideString]: [i < position && i < line.length];
    [position] counts the iterations still allowed. *)
Fixpoint insideLoop (inString : bool) (stringChar : option ascii)
         (prev : option ascii) (line : string) (position : nat) : bool :=
  match position, line with
  | S p, String char rest =>
      if isDelimiter prev char then
        if negb inString then
          insideLoop true (Some char) (Some char) rest p
        else if Js.opt_ascii_eqb stringChar char then
          insideLoop false None (Some char) rest p
        else
          insideLoop inString stringChar (Some char) rest p
      else
        insideLoop inString stringChar (Some char) rest p
  | _, _ => inString
  end.

Definition isInsideString (line : string) (position : nat) : bool :=
  insideLoop false None None line position.

End DSLRuleUtils.

(* ================================================================== *)
(** ** The masking property as the specification words it *)
(* ================================================================== *)

Module MaskSpec.

(** Whether position [p] of [line] belongs to a quoted literal, the
    delimiters included (the specification's reading of a literal: every
    character inside a single- or double-quoted literal, including the
    delimiters). [openq] is the quote that opened the current literal. *)
Fixpoint quotedFrom (openq : option ascii) (prev : option ascii)
         (line : string) (p : nat) : bool :=
  match line with
  | EmptyString => false
  | String c rest =>
      let d := DSLRuleUtils.isDelimiter prev c in
      match openq with
      | None =>
          match p with
          | O => d
          | S p' => quotedFrom (if d then Some c else None) (Some c) rest p'
          end
      | Some q =>
          match p with
          | O => true
          | S p' =>
              quotedFrom (if d && Ascii.eqb c q then None else Some q)
                         (Some c) rest p'
          end
      end
  end.

Definition insideQuotes (line : string) (p : nat) : bool :=
  quotedFrom None None line p.

(** The stricter reading: strictly between the delimiters. *)
Fixpoint betweenFrom (openq : option ascii) (prev : option ascii)
         (line : string) (p : nat) : bool :=
  match line with
  | EmptyString => false
  | String c rest =>
      let d := DSLRuleUtils.isDelimiter prev c in
      match openq with
      | None =>
          match p with
          | O => false
          | S p' => betweenFrom (if d then Some c else None) (Some c) rest p'
          end
      | Some q =>
          match p with
          | O => negb (d && Ascii.eqb c q)
          | S p' =>
              betweenFrom (if d && Ascii.eqb c q then None else Some q)
                          (Some c) rest p'
          end
      end
  end.

Definition betweenQuotes (line : string) (p : nat) : bool :=
  betweenFrom None None line p.

(** The masking invariant of the specification at one line and position,
    for a given reading of "was inside quotes". *)
Definition maskingInvariantAt (inside : string -> nat -> bool)
           (L : string) (p : nat) : Prop :=
  DSLRuleUtils.isInsideString L p = true <->
  (String.get p (DSLRuleUtils.removeStringLiterals L) = Some Js.space
   /\ inside L p = true).

(** The character before position [p], [line[p-1]]. *)
Definition charBefore (L : string) (p : nat) : option ascii :=
  match p with
  | O => None
  | S q => String.get q L
  end.

(** What [removeStringLiterals] leaves at a position holding [c]. *)
Definition maskedChar (L : string) (p : nat) (c : ascii) : ascii :=
  if DSLRuleUtils.isInsideString L p
     || DSLRuleUtils.isDelimiter (charBefore L p) c
  then Js.space else c.

End MaskSpec.

(* ================================================================== *)
(** ** Regular expressions: the fragment of RegExp the rules use *)
(* ================================================================== *)

Module Regex.

(** Patterns are kept as syntax trees; a backtracking matcher gives them
    the meaning of the ECMAScript matching algorithm (leftmost match,
    alternatives in order, greedy or lazy repetition, an iteration of a
    repetition that consumes nothing is refused). *)
Inductive regex : Type :=
| Eps                                  (* empty pattern *)
| Chr (c : ascii)                      (* literal character *)
| Cls (f : ascii -> bool)              (* character class *)
| Seq (r1 r2 : regex)
| Alt (r1 r2 : regex)
| Star (greedy : bool) (r : regex)     (* r* and r*? *)
| Group (n : nat) (r : regex)          (* n-th capturing group *)
| NotAhead (r : regex)                 (* (?!r) *)
| WordB                                (* \b *)
| Bol                                  (* ^ *)
| Eol.                                 (* $ *)

Definition Plus (r : regex) : regex := Seq r (Star true r).
Definition Opt (r : regex) : regex := Alt r Eps.

(** A string matched literally: what [new RegExp(DSLRuleUtils.Regex.escape(s))]
    denotes, since [escape] puts a backslash before each of
    [. * + ? ^ $ { } ( ) | [ ] \] and nothing else is special. *)
Fixpoint lit (s : string) : regex :=
  match s with
  | EmptyString => Eps
  | String c r => Seq (Chr c) (lit r)
  end.

(** Case-insensitive literal (flag [i]). *)
Fixpoint litCI (s : string) : regex :=
  match s with
  | EmptyString => Eps
  | String c r =>
      Seq (Cls (fun d => Ascii.eqb (Js.toLowerChar d) (Js.toLowerChar c)))
          (litCI r)
  end.

Definition notLineTerminator (c : ascii) : bool :=
  negb (Ascii.eqb c Js.newline || Ascii.eqb c "013"%char).

(** A configured or captured name spliced unescaped into a pattern source.
    Identifier characters stand for themselves, except that [$] is the
    end-of-input assertion; [^] and [.] keep their pattern meaning too.
    Names holding other pattern operators are outside this model. *)
Fixpoint ofSource (s : string) : regex :=
  match s with
  | EmptyString => Eps
  | String c r =>
      Seq (if Ascii.eqb c "$"%char then Eol
           else if Ascii.eqb c "^"%char then Bol
           else if Ascii.eqb c "."%char then Cls notLineTerminator
           else Chr c)
          (ofSource r)
  end.

(** The characters with a meaning of their own in a pattern source, the
    ones [DSLRuleUtils.Regex.escape] puts a backslash before. *)
Definition isSpecial (c : ascii) : bool :=
  existsb (Ascii.eqb c)
          ["."%char; "*"%char; "+"%char; "?"%char; "^"%char; "$"%char;
           "{"%char; "}"%char; "("%char; ")"%char; "|"%char; "["%char;
           "]"%char; "092"%char].

(** A name without such a character: spliced into a pattern source it
    stands for itself, and [new RegExp] accepts it. For other names
    [new RegExp] may throw a SyntaxError or build a pattern that
    [ofSource] does not describe; the properties that depend on it are
    stated for plain names. *)
Fixpoint plainSource (s : string) : bool :=
  match s with
  | EmptyString => true
  | String c r => negb (isSpecial c) && plainSource r
  end.

(** [names.join('|')] as a pattern source. *)
Fixpoint altOfSources (names : list string) : regex :=
  match names with
  | [] => Eps
  | [n] => ofSource n
  | n :: ns => Alt (ofSource n) (altOfSources ns)
  end.

Definition space := Cls Js.isWhite.                       (* \s *)
Definition word := Cls Js.isWord.                         (* \w *)
Definition identStart : ascii -> bool :=                  (* [a-zA-Z_$] *)
  fun c => Js.isLower c || Js.isUpper c || Ascii.eqb c "_"%char
           || Ascii.eqb c "$"%char.
Definition identPart : ascii -> bool :=                   (* [a-zA-Z0-9_$] *)
  fun c => identStart c || Js.isDigit c.
(** [[a-zA-Z_$][a-zA-Z0-9_$]*] *)
Definition identifier : regex := Seq (Cls identStart) (Star true (Cls identPart)).

(** Matcher state: the index reached, the character before it, the input
    still ahead, and the capture table (group number, start, end). *)
Record mstate : Type := MState {
  pos : nat;
  prev : option ascii;
  rest : string;
  caps : list (nat * (nat * nat))
}.

Definition advance (c : ascii) (t : string) (s : mstate) : mstate :=
  MState (S (pos s)) (Some c) t (caps s).

Definition setCap (n a b : nat) (s : mstate) : mstate :=
  MState (pos s) (prev s) (rest s) ((n, (a, b)) :: caps s).

Definition isWordOpt (o : option ascii) : bool :=
  match o with Some c => Js.isWord c | None => false end.

Definition headChar (s : string) : option ascii :=
  match s with String c _ => Some c | EmptyString => None end.

Definition orElse {A} (a b : option A) : option A :=
  match a with Some x => Some x | None => b end.

(** The iterations of a repetition: [body] matches the repeated pattern
    once; an iteration has to shorten the input ahead, so that at most
    [String.length (rest s)] iterations take place and the fuel given by
    [run] is never used up. *)
Fixpoint starLoop (body : (mstate -> option mstate) -> mstate -> option mstate)
         (greedy : bool) (k : mstate -> option mstate) (fuel : nat)
         (s : mstate) {struct fuel} : option mstate :=
  match fuel with
  | O => k s
  | S f =>
      let again :=
        body (fun s' =>
                if String.length (rest s') <? String.length (rest s)
                then starLoop body greedy k f s' else None) s in
      if greedy then orElse again (k s) else orElse (k s) again
  end.

(** [run r k s]: match [r] at [s], then continue with [k]; [None] when
    every alternative fails. *)
Fixpoint run (r : regex) (k : mstate -> option mstate) (s : mstate)
  : option mstate :=
  match r with
  | Eps => k s
  | Chr c =>
      match rest s with
      | String d t => if Ascii.eqb c d then k (advance d t s) else None
      | EmptyString => None
      end
  | Cls f =>
      match rest s with
      | String d t => if f d then k (advance d t s) else None
      | EmptyString => None
      end
  | Seq r1 r2 => run r1 (run r2 k) s
  | Alt r1 r2 => orElse (run r1 k s) (run r2 k s)
  | Star greedy r0 =>
      starLoop (run r0) greedy k (S (String.length (rest s))) s
  | Group n r0 => run r0 (fun s' => k (setCap n (pos s) (pos s') s')) s
  | NotAhead r0 =>
      match run r0 Some s with
      | Some _ => None
      | None => k s
      end
  | WordB =>
      if xorb (isWordOpt (prev s)) (isWordOpt (headChar (rest s)))
      then k s else None
  | Bol => if pos s =? 0 then k s else None
  | Eol => match rest s with EmptyString => k s | String _ _ => None end
  end.

(** A lower bound on what a match consumes. *)
Fixpoint minLen (r : regex) : nat :=
  match r with
  | Chr _ | Cls _ => 1
  | Seq r1 r2 => minLen r1 + minLen r2
  | Alt r1 r2 => Nat.min (minLen r1) (minLen r2)
  | Group _ r0 => minLen r0
  | _ => 0
  end.

(** The result of [exec]: [index], the end of the match, and the captures. *)
Record MatchResult : Type := Match {
  index : nat;
  mend : nat;
  captures : list (nat * (nat * nat))
}.

(** Try the pattern at successive start positions; [rest0] is the input
    from index [i] on. *)
Fixpoint searchFrom (r : regex) (prev0 : option ascii) (rest0 : string)
         (i : nat) : option MatchResult :=
  match run r Some (MState i prev0 rest0 []) with
  | Some s => Some (Match i (pos s) (caps s))
  | None =>
      match rest0 with
      | EmptyString => None
      | String c t => searchFrom r (Some c) t (S i)
      end
  end.

Definition charBefore (input : string) (i : nat) : option ascii :=
  match i with O => None | S j => String.get j input end.

(** [pattern.exec(input)] with [pattern.lastIndex = lastIndex]. *)
Definition exec (r : regex) (input : string) (lastIndex : nat)
  : option MatchResult :=
  if String.length input <? lastIndex then None
  else searchFrom r (charBefore input lastIndex) (Js.dropn lastIndex input)
                  lastIndex.

(** [pattern.test(input)] for a pattern without the [g] flag. *)
Definition test (r : regex) (input : string) : bool :=
  match exec r input 0 with Some _ => true | None => false end.

(** [match[0]] *)
Definition matched (input : string) (m : MatchResult) : string :=
  Js.substring (index m) (mend m) input.

Fixpoint lookupCap (n : nat) (l : list (nat * (nat * nat)))
  : option (nat * nat) :=
  match l with
  | [] => None
  | (k, ab) :: t => if k =? n then Some ab else lookupCap n t
  end.

(** [match[n]] for a group that took part in the match; the empty string
    stands for [undefined]. *)
Definition group (input : string) (m : MatchResult) (n : nat) : string :=
  match lookupCap n (captures m) with
  | Some (a, b) => Js.substring a b input
  | None => EmptyString
  end.

(** The matches seen by [while ((match = pattern.exec(input)) !== null)]
    for a pattern with the [g] flag: each call resumes at the end of the
    previous match. Every pattern of the rules consumes at least one
    character, so [lastIndex] grows at each turn and the fuel
    [S (length input)] is never used up; an empty match, on which the
    JavaScript loop would spin, ends the sequence here. *)
Fixpoint execLoop (fuel : nat) (r : regex) (input : string)
         (lastIndex : nat) : list MatchResult :=
  match fuel with
  | O => []
  | S f =>
      match exec r input lastIndex with
      | None => []
      | Some m =>
          m :: (if mend m <=? lastIndex then []
                else execLoop f r input (mend m))
      end
  end.

Definition execAll (r : regex) (input : string) : list MatchResult :=
  execLoop (S (String.length input)) r input 0.

(** Expansion of a replacement string: [$$], [$&], [$`] and [$'] are
    special; the patterns replaced here have no capturing group, so [$n]
    stays as written. *)
Fixpoint expand (repl : string) (whole before after : string) : string :=
  match repl with
  | EmptyString => EmptyString
  | String c r =>
      if Ascii.eqb c "$"%char then
        match r with
        | String d r' =>
            if Ascii.eqb d "$"%char then String "$"%char (expand r' whole before after)
            else if Ascii.eqb d "&"%char then whole ++ expand r' whole before after
            else if Ascii.eqb d "`"%char then before ++ expand r' whole before after
            else if Ascii.eqb d Js.squote then after ++ expand r' whole before after
            else String c (expand r whole before after)
        | EmptyString => String c EmptyString
        end
      else String c (expand r whole before after)
  end.

(** [input.replace(pattern, repl)] for a pattern with the [g] flag. *)
Fixpoint replaceLoop (input repl : string) (ms : list MatchResult)
         (last : nat) : string :=
  match ms with
  | [] => Js.dropn last input
  | m :: ms' =>
      Js.substring last (index m) input
      ++ expand repl (matched input m) (Js.taken (index m) input)
                (Js.dropn (mend m) input)
      ++ replaceLoop input repl ms' (mend m)
  end.

Definition replaceAll (r : regex) (repl : string) (input : string) : string :=
  replaceLoop input repl (execAll r input) 0.

(** [input.replace(pat, repl)] for a string [pat]: the first occurrence. *)
Definition replaceFirstStr (pat repl : string) (input : string) : string :=
  match Js.indexOf pat input with
  | None => input
  | Some i =>
      Js.taken i input
      ++ expand repl pat (Js.taken i input)
                (Js.dropn (i + String.length pat) input)
      ++ Js.dropn (i + String.length pat) input
  end.

End Regex.


(* ================================================================== *)
(** ** Data model: configuration, suggestions, exceptions *)
(* ================================================================== *)

Inductive JsError : Type :=
| TypeError (msg : string).

(** The outcome of a call that may throw. *)
Inductive Exc (A : Type) : Type :=
| Ok (a : A)
| Throw (e : JsError).
Arguments Ok {A} a.
Arguments Throw {A} e.

Module FixTemplates.
Record t : Type := Make {
  traditional : option string;
  method : option string
}.
End FixTemplates.

(** One entry of [config.suggestionRules] (and [config.defaults]); an
    absent key is [None]. Only the keys the rules and the engine read are
    kept. *)
Module RuleConfig.
Record t : Type := Make {
  enabled : option bool;
  severity : option string;
  label : option string;
  suggestion : option string;
  autoFixEnabled : option bool;
  fixStyle : option string;
  fixTemplates : option FixTemplates.t;
  skipIfWrappedIn : option (list string);
  functionNames : option (list string)
}.

Definition empty : t := Make None None None None None None None None None.

(** What a read of [fixTemplates[fixStyle]] can give: [undefined], a
    string, or a value inherited from [Object.prototype] (a function or
    an object, truthy and without string methods). *)
Inductive TemplateValue : Type :=
| NoTemplate
| Template (text : string)
| InheritedValue.

Definition ofOwnKey (o : option string) : TemplateValue :=
  match o with
  | Some text => Template text
  | None => NoTemplate
  end.

(** [ruleConfig.fixTemplates && ruleConfig.fixTemplates[fixStyle]]:
    [fixTemplates] is a plain object with the keys [traditional] and
    [method], so a style that names a key of [Object.prototype] reads an
    inherited value. *)
Definition templateFor (rc : t) (style : string) : TemplateValue :=
  match fixTemplates rc with
  | None => NoTemplate
  | Some ft =>
      if String.eqb style "traditional" then ofOwnKey (FixTemplates.traditional ft)
      else if String.eqb style "method" then ofOwnKey (FixTemplates.method ft)
      else if Js.isProtoKey style then InheritedValue
      else NoTemplate
  end.

(** [if (!template) template = fallback]: the template text used, or
    [None] when the value read is not a string. *)
Definition templateOr (v : TemplateValue) (fallback : string)
  : option string :=
  match v with
  | NoTemplate => Some fallback
  | Template EmptyString => Some fallback
  | Template text => Some text
  | InheritedValue => None
  end.

Definition optStrEqb (a b : option string) : bool :=
  match a, b with
  | Some x, Some y => String.eqb x y
  | None, None => true
  | _, _ => false
  end.

(** [ruleConfig.fixTemplates &&
     ruleConfig.fixTemplates.traditional !== ruleConfig.fixTemplates.method];
    [None] is [undefined]. *)
Definition hasDifferentForms (rc : t) : option bool :=
  match fixTemplates rc with
  | None => None
  | Some ft =>
      Some (negb (optStrEqb (FixTemplates.traditional ft)
                            (FixTemplates.method ft)))
  end.
End RuleConfig.

Module Config.
Record t : Type := Make {
  defaults : option RuleConfig.t;
  suggestionRules : option (list (string * RuleConfig.t));
  libraries : option (list string)
}.

(** The empty object [{}]. *)
Definition empty : t := Make None None None.

Fixpoint lookup (name : string) (l : list (string * RuleConfig.t))
  : option RuleConfig.t :=
  match l with
  | [] => None
  | (k, v) :: r => if String.eqb k name then Some v else lookup name r
  end.

(** [config.suggestionRules.<name>]: reading a property of [undefined]
    throws a [TypeError] (the message stands for the engine's wording). *)
Definition ruleEntry (config : t) (name : string)
  : Exc (option RuleConfig.t) :=
  match suggestionRules config with
  | None => Throw (TypeError "Cannot read properties of undefined")
  | Some rules => Ok (lookup name rules)
  end.
End Config.

(** The [context] object built by [analyzeDSL]; it never carries an
    [isInComment] key, which the rules nevertheless read. *)
Module Context.
Record t : Type := Make {
  lines : list string;
  totalLines : nat;
  isInComment : bool
}.
End Context.

Module Suggestion.
Record t : Type := Make {
  line : nat;
  column : nat;
  message : string;
  severity : string;
  rule : string;
  label : string;
  fixable : bool;
  hasDifferentForms : option bool;
  original : option string;
  instanceNumber : nat;
  fixed : option string
}.
End Suggestion.

(** The globals of [window] the engine and the rules read. *)
Module Window.
Record t : Type := Make {
  dslSuggestionsConfigData : option Config.t;
  __forceFormSelection : option string;
  __currentFormSelection : option string;
  checkedRadio : option string
}.
End Window.

(* ================================================================== *)
(** ** dslRuleUtilities.js: messages and escaping *)
(* ================================================================== *)

Module DSLRuleUtilsMore.

(** [Message.replacePlaceholders(template, values)]: for each key, in
    insertion order, [result.split('{' + key + '}').join(values[key])]. *)
Definition replacePlaceholders (template : string)
           (values : list (string * string)) : string :=
  fold_left
    (fun result kv =>
       let placeholder := "{" ++ fst kv ++ "}" in
       Js.join (snd kv) (Js.split placeholder result))
    values template.

(** A call argument that is either a string or the array returned by
    [exec]. *)
Inductive JsArg : Type :=
| AString (s : string)
| AMatchArray (m : Regex.MatchResult).

(** [Regex.escape(str)] is [str.replace(/[.*+?^${}()|[\]\\]/g, '\\$&')],
    read as the pattern it denotes; an array has no [replace] method. *)
Definition escape (str : JsArg) : Exc Regex.regex :=
  match str with
  | AString s => Ok (Regex.lit s)
  | AMatchArray _ => Throw (TypeError "str.replace is not a function")
  end.

End DSLRuleUtilsMore.

(** A rule object: its name, [check] and [fix]. The mutable
    [_instanceCounter] is passed to [check] and handed back with the
    result, also when [check] throws. *)
Record Rule : Type := MkRule {
  name : string;
  check : string -> nat -> list string -> Context.t -> Config.t ->
          nat -> Exc (list Suggestion.t) * nat;
  fix_ : Window.t -> string -> Suggestion.t -> Config.t -> Exc string
}.

Definition DQ : string := String Js.dquote EmptyString.
Definition NL : string := String Js.newline EmptyString.

(** Accumulator of a [while (exec)] loop of a [check]: the suggestions
    pushed so far, the counter, and an exception once one was thrown. *)
Record LoopAcc : Type := MkAcc {
  suggestions : list Suggestion.t;
  counter : nat;
  processedExpressions : list string;
  thrown : option JsError
}.

Definition finish (a : LoopAcc) : Exc (list Suggestion.t) * nat :=
  match thrown a with
  | Some e => (Throw e, counter a)
  | None => (Ok (suggestions a), counter a)
  end.

(** [this._instanceCounter++] followed by [suggestions.push({...,
    instanceNumber: this._instanceCounter})]. *)
Definition pushSuggestion (acc : LoopAcc) (mk : nat -> Suggestion.t)
  : LoopAcc :=
  let counter' := counter acc + 1 in
  MkAcc (suggestions acc ++ [mk counter'])%list counter'
        (processedExpressions acc) (thrown acc).

(** [if (lineNumber === 1) this._instanceCounter = 0;] *)
Definition resetAtLine1 (lineNumber counter0 : nat) : nat :=
  if lineNumber =? 1 then 0 else counter0.

(** The statements every [check] of [dslRules.js] starts with: the counter
    reset on line 1, the [context.isInComment] exit, the read of
    [config.suggestionRules.<name>] and the exit when the entry is missing
    or not enabled. [body] is the rest of the function. *)
Definition ruleProlog (name : string) (lineNumber : nat)
           (context : Context.t) (config : Config.t) (counter0 : nat)
           (body : RuleConfig.t -> nat -> Exc (list Suggestion.t) * nat)
  : Exc (list Suggestion.t) * nat :=
  let c := resetAtLine1 lineNumber counter0 in
  if Context.isInComment context then (Ok [], c)
  else
    match Config.ruleEntry config name with
    | Throw e => (Throw e, c)
    | Ok None => (Ok [], c)
    | Ok (Some ruleConfig) =>
        if negb (Js.truthyBool (RuleConfig.enabled ruleConfig)) then (Ok [], c)
        else body ruleConfig c
    end.

(** The statements every non-trivial [fix] starts with: the read of the
    rule entry and the exit unless [autoFixEnabled]. *)
Definition fixProlog (name : string) (code : string) (config : Config.t)
           (body : RuleConfig.t -> Exc string) : Exc string :=
  match Config.ruleEntry config name with
  | Throw e => Throw e
  | Ok None => Ok code
  | Ok (Some ruleConfig) =>
      if negb (Js.truthyBool (RuleConfig.autoFixEnabled ruleConfig))
      then Ok code
      else body ruleConfig
  end.

(** [suggestion.instanceNumber || 1] *)
Definition instanceNumOr1 (suggestion : Suggestion.t) : nat :=
  if Suggestion.instanceNumber suggestion =? 0 then 1
  else Suggestion.instanceNumber suggestion.

(* ================================================================== *)
(** ** dslRules.js, rule 1: divisionOperations *)
(* ================================================================== *)

Module DivisionOperations.
Import DSLRuleUtils DSLRuleUtilsMore Regex.

Definition name : string := "divisionOperations".

(** [/\/(?!=)/g] *)
Definition divisionPattern : regex := Seq (Chr "/") (NotAhead (Chr "=")).

Definition isStartDelimiter (c : ascii) : bool :=
  Ascii.eqb c "="%char || Ascii.eqb c ","%char || Ascii.eqb c "("%char.

Definition isEndDelimiter (c : ascii) : bool :=
  Ascii.eqb c ","%char || Ascii.eqb c ")"%char.

(** The backward scan [for (i = divPosition - 1; i >= 0; i--)]: [n] is
    [i + 1]. *)
Fixpoint scanBack (line : string) (n : nat) : nat :=
  match n with
  | O => 0
  | S i =>
      match String.get i line with
      | Some c => if isStartDelimiter c then i + 1 else scanBack line i
      | None => scanBack line i
      end
  end.

(** The forward scan [for (i = divPosition + 1; i < line.length; i++)]
    over the remainder [rest = line[i..]]. *)
Fixpoint scanForward (rest : string) (i : nat) : nat :=
  match rest with
  | EmptyString => i
  | String c t => if isEndDelimiter c then i else scanForward t (S i)
  end.

Definition _extractExpression (line : string) (divPosition : nat) : string :=
  let start := scanBack line divPosition in
  let end_ := scanForward (Js.dropn (divPosition + 1) line) (divPosition + 1) in
  Js.trim (Js.substring start end_ line).

(** [new RegExp(funcName + '\\s*\\(\\s*' + escapedExpression)] *)
Definition wrappedPattern (funcName : string) (escapedExpression : regex)
  : regex :=
  Seq (ofSource funcName)
      (Seq (Star true space)
           (Seq (Chr "(") (Seq (Star true space) escapedExpression))).

Fixpoint wrappedLoop (line : string) (expression : JsArg)
         (skipFunctions : list string) : Exc bool :=
  match skipFunctions with
  | [] => Ok false
  | funcName :: more =>
      match escape expression with
      | Throw e => Throw e
      | Ok escapedExpression =>
          if test (wrappedPattern funcName escapedExpression) line
          then Ok true
          else wrappedLoop line expression more
      end
  end.

Definition _isAlreadyWrapped (line : string) (expression : JsArg)
           (ruleConfig : RuleConfig.t) : Exc bool :=
  let skipFunctions :=
    match RuleConfig.skipIfWrappedIn ruleConfig with
    | Some l => l
    | None => []
    end in
  if List.length skipFunctions =? 0 then Ok false
  else wrappedLoop line expression skipFunctions.

Definition defaultSuggestion : string :=
  "Division operation detected. Consider using ifNaN({expression}, 0) to prevent division by zero errors.".

(** One turn of [while ((match = divisionPattern.exec(lineWithoutStrings))
    !== null)]. *)
Definition checkStep (line lineWithoutStrings : string) (lineNumber : nat)
           (ruleConfig : RuleConfig.t) (acc : LoopAcc) (m : MatchResult)
  : LoopAcc :=
  match thrown acc with
  | Some _ => acc
  | None =>
      let divPosition := index m in
      if isInsideString line divPosition then acc
      else
        let expression := _extractExpression lineWithoutStrings divPosition in
        if String.eqb expression "" || String.eqb (Js.trim expression) "" then acc
        else if existsb (String.eqb expression) (processedExpressions acc) then acc
        else
          let processed := expression :: processedExpressions acc in
          match _isAlreadyWrapped lineWithoutStrings (AString expression) ruleConfig with
          | Throw e => MkAcc (suggestions acc) (counter acc) processed (Some e)
          | Ok true => MkAcc (suggestions acc) (counter acc) processed None
          | Ok false =>
              let suggestionMsg :=
                replacePlaceholders
                  (Js.orStr (RuleConfig.suggestion ruleConfig) defaultSuggestion)
                  [("expression", expression)] in
              pushSuggestion
                (MkAcc (suggestions acc) (counter acc) processed None)
                (fun n =>
                   Suggestion.Make lineNumber divPosition suggestionMsg
                     (Js.orStr (RuleConfig.severity ruleConfig) "warning")
                     name
                     (Js.orStr (RuleConfig.label ruleConfig) name)
                     true
                     (RuleConfig.hasDifferentForms ruleConfig)
                     (Some expression)
                     n
                     None)
          end
  end.

Definition check (line : string) (lineNumber : nat) (allLines : list string)
           (context : Context.t) (config : Config.t) (counter0 : nat)
  : Exc (list Suggestion.t) * nat :=
  ruleProlog name lineNumber context config counter0
    (fun ruleConfig c =>
       (* lines holding a block comment are skipped *)
       if Js.includes "/*" line && Js.includes "*/" line then (Ok [], c)
       else
         let lineWithoutStrings := removeStringLiterals line in
         finish
           (fold_left
              (checkStep line lineWithoutStrings lineNumber ruleConfig)
              (execAll divisionPattern lineWithoutStrings)
              (MkAcc [] c [] None))).

(** Accumulator of the inner loop of [fix] over one line. *)
Record FixAcc : Type := MkFixAcc {
  newLine : string;
  lastIndex : nat;
  fixThrown : option JsError
}.

Definition fixStep (line fixedCode : string) (ruleConfig : RuleConfig.t)
           (acc : FixAcc) (m : MatchResult) : FixAcc :=
  match fixThrown acc with
  | Some _ => acc
  | None =>
      match _isAlreadyWrapped line (AMatchArray m) ruleConfig with
      | Throw e => MkFixAcc (newLine acc) (lastIndex acc) (Some e)
      | Ok false =>
          MkFixAcc (newLine acc ++ Js.substring (lastIndex acc) (index m) line
                    ++ fixedCode)
                   (mend m) None
      | Ok true =>
          MkFixAcc (newLine acc ++ Js.substring (lastIndex acc) (mend m) line)
                   (mend m) None
      end
  end.

Definition fixLine (original fixedCode : string) (ruleConfig : RuleConfig.t)
           (line : string) : Exc string :=
  let acc :=
    fold_left (fixStep line fixedCode ruleConfig)
              (execAll (lit original) line)
              (MkFixAcc "" 0 None) in
  match fixThrown acc with
  | Some e => Throw e
  | None => Ok (newLine acc ++ Js.sliceFrom (lastIndex acc) line)
  end.

(** The outer [for] loop of [fix] over the lines of the code. *)
Fixpoint fixLines (original fixedCode : string) (ruleConfig : RuleConfig.t)
         (lines : list string) : Exc (list string) :=
  match lines with
  | [] => Ok []
  | line :: more =>
      match fixLine original fixedCode ruleConfig line with
      | Throw e => Throw e
      | Ok newLine =>
          match fixLines original fixedCode ruleConfig more with
          | Throw e => Throw e
          | Ok rest => Ok (newLine :: rest)
          end
      end
  end.

Definition fix_ (w : Window.t) (code : string) (suggestion : Suggestion.t)
           (config : Config.t) : Exc string :=
  fixProlog name code config
    (fun ruleConfig =>
       if negb (Js.truthyStr (Suggestion.original suggestion)) then Ok code
       else
         let original := Js.orStr (Suggestion.original suggestion) "" in
         let fixStyle := Js.orStr (RuleConfig.fixStyle ruleConfig) "traditional" in
         match RuleConfig.templateOr
                 (RuleConfig.templateFor ruleConfig fixStyle)
                 "ifNaN({expression}, {defaultAltValue})" with
         | None =>
             (* an inherited value has no [replace] method *)
             Throw (TypeError "template.replace is not a function")
         | Some template =>
             let instanceNum := instanceNumOr1 suggestion in
             let defaultValue :=
               "DEF_VAL_DIV_BY_ZERO_" ++ Js.natToString instanceNum in
             let fixedCode :=
               replaceFirstStr "{defaultAltValue}" defaultValue
                 (replaceFirstStr "{expression}" original template) in
             match fixLines original fixedCode ruleConfig (Js.split NL code) with
             | Throw e => Throw e
             | Ok lines => Ok (Js.join NL lines)
             end
         end).

Definition rule : Rule := MkRule name check fix_.

End DivisionOperations.

(* ================================================================== *)
(** ** dslRules.js, rule 2: queryFunctions *)
(* ================================================================== *)

Module QueryFunctions.
Import DSLRuleUtils DSLRuleUtilsMore Regex.

Definition name : string := "queryFunctions".

(** [new RegExp('\\b(' + functionNames.join('|') + ')\\s*\\(', 'g')] *)
Definition functionRegex (functionNames : list string) : regex :=
  Seq WordB
      (Seq (Group 1 (altOfSources functionNames))
           (Seq (Star true space) (Chr "("))).

Definition defaultSuggestion : string :=
  "Consider setting {function}() as " ++ DQ ++ "One-Time" ++ DQ
  ++ " for better performance.".

Definition checkStep (line lineWithoutStrings : string) (lineNumber : nat)
           (ruleConfig : RuleConfig.t) (acc : LoopAcc) (m : MatchResult)
  : LoopAcc :=
  let functionName := group lineWithoutStrings m 1 in
  let position := index m in
  if isInsideString line position then acc
  else
    let suggestionMsg :=
      replacePlaceholders
        (Js.orStr (RuleConfig.suggestion ruleConfig) defaultSuggestion)
        [("function", functionName)] in
    pushSuggestion acc
      (fun n =>
         Suggestion.Make lineNumber position suggestionMsg
           (Js.orStr (RuleConfig.severity ruleConfig) "info")
           name
           (Js.orStr (RuleConfig.label ruleConfig) name)
           false
           None
           (Some (functionName ++ "("))
           n
           None).

Definition check (line : string) (lineNumber : nat) (allLines : list string)
           (context : Context.t) (config : Config.t) (counter0 : nat)
  : Exc (list Suggestion.t) * nat :=
  ruleProlog name lineNumber context config counter0
    (fun ruleConfig c =>
       let lineWithoutStrings := removeStringLiterals line in
       let functionNames :=
         match RuleConfig.functionNames ruleConfig with
         | Some l => l
         | None => []
         end in
       if 0 <? List.length functionNames then
         finish
           (fold_left
              (checkStep line lineWithoutStrings lineNumber ruleConfig)
              (execAll (functionRegex functionNames) lineWithoutStrings)
              (MkAcc [] c [] None))
       else (Ok [], c)).

Definition fix_ (w : Window.t) (code : string) (suggestion : Suggestion.t)
           (config : Config.t) : Exc string := Ok code.

Definition rule : Rule := MkRule name check fix_.

End QueryFunctions.

(* ================================================================== *)
(** ** dslRules.js, rule 3: uniqueKey *)
(* ================================================================== *)

Module UniqueKey.
Import DSLRuleUtils DSLRuleUtilsMore Regex.

Definition name : string := "uniqueKey".

(** [/uniqueKey\s*\(/gi] *)
Definition uniqueKeyPattern : regex :=
  Seq (litCI "uniqueKey") (Seq (Star true space) (Chr "(")).

Definition defaultSuggestion : string :=
  "Ensure Attribute with uniqueKey Expression is set as " ++ DQ
  ++ "One-Time / No-Copy" ++ DQ ++ " as per best practices.".

Definition checkStep (line : string) (lineNumber : nat)
           (ruleConfig : RuleConfig.t) (acc : LoopAcc) (m : MatchResult)
  : LoopAcc :=
  let position := index m in
  if isInsideString line position then acc
  else
    let suggestionMsg :=
      Js.orStr (RuleConfig.suggestion ruleConfig) defaultSuggestion in
    pushSuggestion acc
      (fun n =>
         Suggestion.Make lineNumber position suggestionMsg
           (Js.orStr (RuleConfig.severity ruleConfig) "warning")
           name
           (Js.orStr (RuleConfig.label ruleConfig) name)
           false
           None
           (Some "uniqueKey")
           n
           None).

(** The pattern runs over the line itself, not over the masked line. *)
Definition check (line : string) (lineNumber : nat) (allLines : list string)
           (context : Context.t) (config : Config.t) (counter0 : nat)
  : Exc (list Suggestion.t) * nat :=
  ruleProlog name lineNumber context config counter0
    (fun ruleConfig c =>
       finish
         (fold_left
            (checkStep line lineNumber ruleConfig)
            (execAll uniqueKeyPattern line)
            (MkAcc [] c [] None))).

Definition fix_ (w : Window.t) (code : string) (suggestion : Suggestion.t)
           (config : Config.t) : Exc string := Ok code.

Definition rule : Rule := MkRule name check fix_.

End UniqueKey.

(* ================================================================== *)
(** ** dslRules.js, rule 4: variableNaming *)
(* ================================================================== *)

Module VariableNaming.
Import DSLRuleUtils DSLRuleUtilsMore Regex.

Definition name : string := "variableNaming".

(** [/\b(?:(?:var|let|const)\s+)?(ID)\s*=/g], where [ID] stands for
    [[a-zA-Z_$][a-zA-Z0-9_$]*]. *)
Definition varPattern : regex :=
  Seq WordB
      (Seq (Opt (Seq (Alt (lit "var") (Alt (lit "let") (lit "const")))
                     (Plus space)))
           (Seq (Group 1 identifier)
                (Seq (Star true space) (Chr "=")))).

(** [/^[A-Z]/.test(varName)] *)
Definition startsUpper (varName : string) : bool :=
  test (Seq Bol (Cls Js.isUpper)) varName.

(** The callback of [map] in the camelCase conversion. *)
Definition camelPart (index : nat) (part : string) : string :=
  if index =? 0 then
    Js.toLowerCase (Js.charAt 0 part) ++ Js.sliceFrom 1 part
  else
    Js.toUpperCase (Js.charAt 0 part)
    ++ Js.toLowerCase (Js.sliceFrom 1 part).

Fixpoint mapIndexed (f : nat -> string -> string) (i : nat)
         (l : list string) : list string :=
  match l with
  | [] => []
  | x :: r => f i x :: mapIndexed f (S i) r
  end.

(** [varName.split('_').map(...).join('')] *)
Definition camelCase (varName : string) : string :=
  Js.join "" (mapIndexed camelPart 0 (Js.split "_" varName)).

Definition defaultSuggestion : string :=
  "Variable " ++ DQ ++ "{varName}" ++ DQ
  ++ " should use camelCase naming convention".

Definition checkStep (line lineWithoutStrings : string) (lineNumber : nat)
           (ruleConfig : RuleConfig.t) (acc : LoopAcc) (m : MatchResult)
  : LoopAcc :=
  let varName := group lineWithoutStrings m 1 in
  let position := index m in
  if isInsideString line position then acc
  else if Js.includes "_" varName || startsUpper varName then
    let camelCaseName := camelCase varName in
    let suggestionMsg :=
      replacePlaceholders
        (Js.orStr (RuleConfig.suggestion ruleConfig) defaultSuggestion)
        [("varName", varName); ("correctedName", camelCaseName)] in
    (* the corrected name goes into the message only: the object pushed
       has no [fixed] key *)
    pushSuggestion acc
      (fun n =>
         Suggestion.Make lineNumber position suggestionMsg
           (Js.orStr (RuleConfig.severity ruleConfig) "info")
           name
           (Js.orStr (RuleConfig.label ruleConfig) name)
           true
           (RuleConfig.hasDifferentForms ruleConfig)
           (Some varName)
           n
           None)
  else acc.

Definition check (line : string) (lineNumber : nat) (allLines : list string)
           (context : Context.t) (config : Config.t) (counter0 : nat)
  : Exc (list Suggestion.t) * nat :=
  ruleProlog name lineNumber context config counter0
    (fun ruleConfig c =>
       let lineWithoutStrings := removeStringLiterals line in
       finish
         (fold_left
            (checkStep line lineWithoutStrings lineNumber ruleConfig)
            (execAll varPattern lineWithoutStrings)
            (MkAcc [] c [] None))).

(** [new RegExp('\\b' + escape(suggestion.original) + '\\b', 'g')] *)
Definition originalPattern (original : string) : regex :=
  Seq WordB (Seq (lit original) WordB).

Definition fix_ (w : Window.t) (code : string) (suggestion : Suggestion.t)
           (config : Config.t) : Exc string :=
  fixProlog name code config
    (fun ruleConfig =>
       if negb (Js.truthyStr (Suggestion.original suggestion))
          || negb (Js.truthyStr (Suggestion.fixed suggestion))
       then Ok code
       else
         let original := Js.orStr (Suggestion.original suggestion) "" in
         let fixed := Js.orStr (Suggestion.fixed suggestion) "" in
         Ok (replaceAll (originalPattern original) fixed code)).

Definition rule : Rule := MkRule name check fix_.

End VariableNaming.

(* ================================================================== *)
(** ** dslRules.js, rule 5: nonOptimalNodeAccess *)
(* ================================================================== *)

Module NonOptimalNodeAccess.
Import DSLRuleUtils DSLRuleUtilsMore Regex.

Definition name : string := "nonOptimalNodeAccess".

Record Node : Type := MkNode {
  library : string;
  nodeName : string;
  position : nat;
  fullMatch : string
}.

(** [new RegExp(library + '\\.(\\w+)(?!\\s*:)', 'g')] *)
Definition nodePattern (library : string) : regex :=
  Seq (ofSource library)
      (Seq (Chr ".")
           (Seq (Group 1 (Plus word))
                (NotAhead (Seq (Star true space) (Chr ":"))))).

Definition defaultLibraries : list string :=
  ["Primary"; "Secondary"; "Tertiary"].

Definition _findNodeAccess (line : string) (config : Config.t) : list Node :=
  let libraries :=
    match Config.libraries config with
    | Some l => l
    | None => defaultLibraries
    end in
  flat_map
    (fun library =>
       map (fun m => MkNode library (group line m 1) (index m) (matched line m))
           (execAll (nodePattern library) line))
    libraries.

Definition defaultSuggestion : string :=
  "{library} node reference detected. Consider storing in variable if used multiple times.".

Definition checkStep (lineNumber : nat) (ruleConfig : RuleConfig.t)
           (acc : LoopAcc) (node : Node) : LoopAcc :=
  let suggestionMsg :=
    replacePlaceholders
      (Js.orStr (RuleConfig.suggestion ruleConfig) defaultSuggestion)
      [("library", library node); ("node", nodeName node)] in
  pushSuggestion acc
    (fun n =>
       Suggestion.Make lineNumber (position node) suggestionMsg
         (Js.orStr (RuleConfig.severity ruleConfig) "info")
         name
         (Js.orStr (RuleConfig.label ruleConfig) name)
         false
         None
         (Some (fullMatch node))
         n
         None).

Definition check (line : string) (lineNumber : nat) (allLines : list string)
           (context : Context.t) (config : Config.t) (counter0 : nat)
  : Exc (list Suggestion.t) * nat :=
  ruleProlog name lineNumber context config counter0
    (fun ruleConfig c =>
       let lineWithoutStrings := removeStringLiterals line in
       let foundNodes := _findNodeAccess lineWithoutStrings config in
       finish
         (fold_left (checkStep lineNumber ruleConfig) foundNodes
                    (MkAcc [] c [] None))).

Definition fix_ (w : Window.t) (code : string) (suggestion : Suggestion.t)
           (config : Config.t) : Exc string := Ok code.

Definition rule : Rule := MkRule name check fix_.

End NonOptimalNodeAccess.

(* ================================================================== *)
(** ** dslRules.js, rule 6: nullAccessProtection *)
(* ================================================================== *)

Module NullAccessProtection.
Import DSLRuleUtils DSLRuleUtilsMore Regex.

Definition name : string := "nullAccessProtection".

(** [/(ID)\.(ID)/g], where [ID] stands for [[a-zA-Z_$][a-zA-Z0-9_$]*]. *)
Definition propertyAccessPattern : regex :=
  Seq (Group 1 identifier) (Seq (Chr ".") (Group 2 identifier)).

(** [[!=]=] *)
Definition eqOp : regex :=
  Seq (Cls (fun c => Ascii.eqb c "!"%char || Ascii.eqb c "="%char)) (Chr "=").

Definition nullCheckPatterns (varName : string) : list regex :=
  [ (* 'if\\s*\\(\\s*' + varName + '\\s*[!=]=' *)
    Seq (lit "if")
        (Seq (Star true space)
             (Seq (Chr "(")
                  (Seq (Star true space)
                       (Seq (ofSource varName) (Seq (Star true space) eqOp)))));
    (* varName + '\\s*[!=]=\\s*null' *)
    Seq (ofSource varName)
        (Seq (Star true space) (Seq eqOp (Seq (Star true space) (lit "null"))));
    (* varName + '\\s*[!=]=\\s*undefined' *)
    Seq (ofSource varName)
        (Seq (Star true space)
             (Seq eqOp (Seq (Star true space) (lit "undefined"))));
    (* 'typeof\\s+' + varName + '\\s*[!=]=' *)
    Seq (lit "typeof")
        (Seq (Plus space) (Seq (ofSource varName) (Seq (Star true space) eqOp)))
  ].

Definition _hasNullCheck (line varName : string) : bool :=
  existsb (fun p => test p line) (nullCheckPatterns varName).

Definition defaultSuggestion : string :=
  "Property access on " ++ DQ ++ "{object}" ++ DQ
  ++ " may fail if null/undefined. Consider using optional chaining ({object}?.{property}) or null check.".

Definition checkStep (line lineWithoutStrings : string) (lineNumber : nat)
           (ruleConfig : RuleConfig.t) (acc : LoopAcc) (m : MatchResult)
  : LoopAcc :=
  let object := group lineWithoutStrings m 1 in
  let property := group lineWithoutStrings m 2 in
  let position := index m in
  if isInsideString line position then acc
  else
    let matchEnd := position + String.length (matched lineWithoutStrings m) in
    let nextChar := Js.charAt matchEnd lineWithoutStrings in
    if String.eqb nextChar "(" then acc
    else
      let hasOptionalChaining := Js.includes (object ++ "?.") lineWithoutStrings in
      let hasNullCheck := _hasNullCheck lineWithoutStrings object in
      if negb hasOptionalChaining && negb hasNullCheck then
        let expression := object ++ "." ++ property in
        let suggestionMsg :=
          replacePlaceholders
            (Js.orStr (RuleConfig.suggestion ruleConfig) defaultSuggestion)
            [("object", object); ("property", property);
             ("expression", expression)] in
        pushSuggestion acc
          (fun n =>
             Suggestion.Make lineNumber position suggestionMsg
               (Js.orStr (RuleConfig.severity ruleConfig) "warning")
               name
               (Js.orStr (RuleConfig.label ruleConfig) name)
               true
               (RuleConfig.hasDifferentForms ruleConfig)
               (Some expression)
               n
               None)
      else acc.

Definition check (line : string) (lineNumber : nat) (allLines : list string)
           (context : Context.t) (config : Config.t) (counter0 : nat)
  : Exc (list Suggestion.t) * nat :=
  ruleProlog name lineNumber context config counter0
    (fun ruleConfig c =>
       let lineWithoutStrings := removeStringLiterals line in
       finish
         (fold_left
            (checkStep line lineWithoutStrings lineNumber ruleConfig)
            (execAll propertyAccessPattern lineWithoutStrings)
            (MkAcc [] c [] None))).

Definition fix_ (w : Window.t) (code : string) (suggestion : Suggestion.t)
           (config : Config.t) : Exc string :=
  fixProlog name code config
    (fun ruleConfig =>
       if negb (Js.truthyStr (Suggestion.original suggestion)) then Ok code
       else
         let original := Js.orStr (Suggestion.original suggestion) "" in
         (* window.__forceFormSelection || ruleConfig.fixStyle || 'traditional' *)
         let fixStyle :=
           Js.orStr (Window.__forceFormSelection w)
                    (Js.orStr (RuleConfig.fixStyle ruleConfig) "traditional") in
         let template :=
           RuleConfig.templateOr (RuleConfig.templateFor ruleConfig fixStyle)
                                 "ifNull({expression})" in
         match Js.split "." original with
         | [object; property] =>
             match template with
             | None =>
                 (* [replacePlaceholders] calls [split] on an inherited
                    value *)
                 Throw (TypeError "result.split is not a function")
             | Some template =>
                 let instanceNum := instanceNumOr1 suggestion in
                 let defaultAltValue :=
                   "DEF_VAL_NULL_SAFETY_" ++ Js.natToString instanceNum in
                 let fixed :=
                   replacePlaceholders template
                     [("object", object); ("property", property);
                      ("expression", original);
                      ("defaultAltValue", defaultAltValue)] in
                 Ok (replaceAll (lit original) fixed code)
             end
         | _ => Ok code
         end).

Definition rule : Rule := MkRule name check fix_.

End NullAccessProtection.

(* ================================================================== *)
(** ** dslRules.js, rule 7: mathOperationsParens *)
(* ================================================================== *)

Module MathOperationsParens.
Import DSLRuleUtils DSLRuleUtilsMore Regex.

Definition name : string := "mathOperationsParens".

(** [id \s* ([+-]) \s* id \s* ([*/]) \s* id], five capturing groups. *)
Definition complexMathPattern : regex :=
  Seq (Group 1 identifier)
   (Seq (Star true space)
    (Seq (Group 2 (Cls (fun c => Ascii.eqb c "+"%char || Ascii.eqb c "-"%char)))
     (Seq (Star true space)
      (Seq (Group 3 identifier)
       (Seq (Star true space)
        (Seq (Group 4 (Cls (fun c => Ascii.eqb c "*"%char || Ascii.eqb c "/"%char)))
         (Seq (Star true space) (Group 5 identifier)))))))).

Definition _hasParentheses (line : string) (startPos length : nat) : bool :=
  let before := Js.substring (Nat.max 0 (startPos - 1)) startPos line in
  let after := Js.substring (startPos + length) (startPos + length + 1) line in
  String.eqb before "(" || String.eqb after ")".

Definition defaultSuggestion : string :=
  "Complex math expression detected. Consider adding parentheses for clarity.".

Definition checkStep (line lineWithoutStrings : string) (lineNumber : nat)
           (ruleConfig : RuleConfig.t) (acc : LoopAcc) (m : MatchResult)
  : LoopAcc :=
  let position := index m in
  if isInsideString line position then acc
  else
    let hasParens :=
      _hasParentheses lineWithoutStrings position
                      (String.length (matched lineWithoutStrings m)) in
    if negb hasParens then
      let original := matched lineWithoutStrings m in
      (* the local [fixed] is computed and dropped: it is not a key of the
         object pushed *)
      let suggestionMsg :=
        Js.orStr (RuleConfig.suggestion ruleConfig) defaultSuggestion
        ++ " **" ++ original ++ "**" in
      pushSuggestion acc
        (fun n =>
           Suggestion.Make lineNumber position suggestionMsg
             (Js.orStr (RuleConfig.severity ruleConfig) "info")
             name
             (Js.orStr (RuleConfig.label ruleConfig) name)
             (Js.truthyBool (RuleConfig.autoFixEnabled ruleConfig))
             None
             (Some original)
             n
             None)
    else acc.

Definition check (line : string) (lineNumber : nat) (allLines : list string)
           (context : Context.t) (config : Config.t) (counter0 : nat)
  : Exc (list Suggestion.t) * nat :=
  ruleProlog name lineNumber context config counter0
    (fun ruleConfig c =>
       let lineWithoutStrings := removeStringLiterals line in
       finish
         (fold_left
            (checkStep line lineWithoutStrings lineNumber ruleConfig)
            (execAll complexMathPattern lineWithoutStrings)
            (MkAcc [] c [] None))).

Definition fix_ (w : Window.t) (code : string) (suggestion : Suggestion.t)
           (config : Config.t) : Exc string :=
  fixProlog name code config
    (fun ruleConfig =>
       if negb (Js.truthyStr (Suggestion.original suggestion))
          || negb (Js.truthyStr (Suggestion.fixed suggestion))
       then Ok code
       else
         let original := Js.orStr (Suggestion.original suggestion) "" in
         let fixed := Js.orStr (Suggestion.fixed suggestion) "" in
         Ok (replaceAll (lit original) fixed code)).

Definition rule : Rule := MkRule name check fix_.

End MathOperationsParens.

(* ================================================================== *)
(** ** dslRules.js, rule 8: extraneousBlocks *)
(* ================================================================== *)

Module ExtraneousBlocks.
Import DSLRuleUtils DSLRuleUtilsMore Regex.

Definition name : string := "extraneousBlocks".

(** [/\/\*[\s\S]*?\*\//g]: a block comment, lazily. *)
Definition blockComment : regex :=
  Seq (lit "/*") (Seq (Star false (Cls (fun _ => true))) (lit "*/")).

(** [/\/\/.*/g]: a line comment. *)
Definition lineComment : regex :=
  Seq (lit "//") (Star true (Cls notLineTerminator)).

(** The comma-counting loop of [_countStatements]; [depth] may go below
    zero on an unmatched closing bracket. *)
Fixpoint countCommas (s : string) (depth : Z) (commaCount : nat) : nat :=
  match s with
  | EmptyString => commaCount
  | String char t =>
      if Ascii.eqb char "("%char || Ascii.eqb char "["%char
         || Ascii.eqb char "{"%char
      then countCommas t (depth + 1)%Z commaCount
      else if Ascii.eqb char ")"%char || Ascii.eqb char "]"%char
              || Ascii.eqb char "}"%char
      then countCommas t (depth - 1)%Z commaCount
      else if Ascii.eqb char ","%char && Z.eqb depth 0
      then countCommas t depth (commaCount + 1)
      else countCommas t depth commaCount
  end.

Definition _countStatements (content : string) : nat :=
  let contentNoComments :=
    replaceAll lineComment "" (replaceAll blockComment "" content) in
  let trimmed := Js.trim contentNoComments in
  if String.eqb trimmed "" then 0
  else
    let commaCount := countCommas trimmed 0%Z 0 in
    if 0 <? String.length trimmed then commaCount + 1 else 0.

(** The local variables of [_checkBlockFunction]. *)
Record BlockState : Type := MkBlock {
  blockContent : string;
  parenDepth : nat;
  foundBlock : bool;
  blockStartCol : nat
}.

(** The inner [for] loop over the characters of one masked line, from
    index [j] on ([rest] is the line from [j]); [skip] counts the
    characters still to jump over after [j += 5]. The boolean tells that
    the closing parenthesis of [block(] was reached, where the function
    returns. *)
Fixpoint scanChars (rest : string) (j skip : nat) (st : BlockState)
  : BlockState * bool :=
  match rest with
  | EmptyString => (st, false)
  | String char t =>
      match skip with
      | S k => scanChars t (S j) k st
      | O =>
          if negb (foundBlock st) && Js.startsWith "block(" rest then
            scanChars t (S j) 5 (MkBlock (blockContent st) 1 true j)
          else if foundBlock st then
            if Ascii.eqb char "("%char then
              scanChars t (S j) 0
                (MkBlock (blockContent st ++ String char "")
                         (parenDepth st + 1) true (blockStartCol st))
            else if Ascii.eqb char ")"%char then
              if parenDepth st - 1 =? 0 then
                (MkBlock (blockContent st) 0 true (blockStartCol st), true)
              else
                scanChars t (S j) 0
                  (MkBlock (blockContent st ++ String char "")
                           (parenDepth st - 1) true (blockStartCol st))
            else
              scanChars t (S j) 0
                (MkBlock (blockContent st ++ String char "")
                         (parenDepth st) true (blockStartCol st))
          else scanChars t (S j) 0 st
      end
  end.

(** The outer [for] loop over the lines from the start line on; [Some st]
    when the end of the block was reached, [None] for [return null]. *)
Fixpoint scanLines (lines : list string) (st : BlockState)
  : option BlockState :=
  match lines with
  | [] => None
  | line :: more =>
      let lineWithoutStrings := removeStringLiterals line in
      match scanChars lineWithoutStrings 0 0 st with
      | (st', true) => Some st'
      | (st', false) =>
          let st'' :=
            if foundBlock st' && (0 <? parenDepth st')
            then MkBlock (blockContent st' ++ NL) (parenDepth st')
                         (foundBlock st') (blockStartCol st')
            else st' in
          if foundBlock st'' && (parenDepth st'' =? 0) then None
          else scanLines more st''
      end
  end.

Definition blockSuggestion : string :=
  "Remove unnecessary block() wrapper for single statement.".

(** [_checkBlockFunction(startLine, allLines, ruleConfig)]: the suggestion
    or [null], and the counter. *)
Definition _checkBlockFunction (startLine : nat) (allLines : list string)
           (ruleConfig : RuleConfig.t) (counter0 : nat)
  : option Suggestion.t * nat :=
  let currentLine := startLine - 1 in
  match scanLines (skipn currentLine allLines) (MkBlock "" 0 false 0) with
  | None => (None, counter0)
  | Some st =>
      let statementCount := _countStatements (blockContent st) in
      if statementCount =? 1 then
        let counter' := counter0 + 1 in
        (Some (Suggestion.Make startLine (blockStartCol st)
                 (Js.orStr (RuleConfig.suggestion ruleConfig) blockSuggestion)
                 (Js.orStr (RuleConfig.severity ruleConfig) "info")
                 name
                 (Js.orStr (RuleConfig.label ruleConfig) name)
                 true
                 (RuleConfig.hasDifferentForms ruleConfig)
                 None
                 counter'
                 None),
         counter')
      else (None, counter0)
  end.

(** [allLines[i].trim()] for an index in range. *)
Definition lineAt (allLines : list string) (i : nat) : string :=
  Js.trim (nth i allLines "").

Definition check (line : string) (lineNumber : nat) (allLines : list string)
           (context : Context.t) (config : Config.t) (counter0 : nat)
  : Exc (list Suggestion.t) * nat :=
  ruleProlog name lineNumber context config counter0
    (fun ruleConfig c =>
       let lineWithoutStrings := removeStringLiterals line in
       let trimmedLine := Js.trim lineWithoutStrings in
       let acc0 := MkAcc [] c [] None in
       (* an unnecessary block() wrapper around a single statement *)
       let acc1 :=
         if Js.includes "block(" trimmedLine then
           match _checkBlockFunction lineNumber allLines ruleConfig c with
           | (Some blockResult, c') => MkAcc [blockResult] c' [] None
           | (None, c') => MkAcc [] c' [] None
           end
         else acc0 in
       (* braces around a single statement *)
       let acc2 :=
         if String.eqb trimmedLine "{"
            && (lineNumber <? List.length allLines - 1) then
           let nextLine := lineAt allLines lineNumber in
           let lineAfterNext :=
             if lineNumber <? List.length allLines - 2
             then lineAt allLines (lineNumber + 1) else "" in
           if negb (String.eqb nextLine "") && negb (String.eqb nextLine "}")
              && String.eqb lineAfterNext "}" then
             pushSuggestion acc1
               (fun n =>
                  Suggestion.Make lineNumber 0
                    (Js.orStr (RuleConfig.suggestion ruleConfig)
                       "Unnecessary block detected. Single statement does not require braces.")
                    (Js.orStr (RuleConfig.severity ruleConfig) "info")
                    name
                    (Js.orStr (RuleConfig.label ruleConfig) name)
                    true
                    (RuleConfig.hasDifferentForms ruleConfig)
                    None
                    n
                    None)
           else acc1
         else acc1 in
       (* empty blocks *)
       let acc3 :=
         if String.eqb trimmedLine "{}"
            || (String.eqb trimmedLine "{"
                && (lineNumber <? List.length allLines)
                && String.eqb (lineAt allLines lineNumber) "}") then
           pushSuggestion acc2
             (fun n =>
                Suggestion.Make lineNumber 0
                  (Js.orStr (RuleConfig.suggestion ruleConfig)
                     "Empty block detected. Consider removing or adding implementation.")
                  (Js.orStr (RuleConfig.severity ruleConfig) "warning")
                  name
                  (Js.orStr (RuleConfig.label ruleConfig) name)
                  true
                  (RuleConfig.hasDifferentForms ruleConfig)
                  None
                  n
                  None)
         else acc2 in
       finish acc3).

Definition fix_ (w : Window.t) (code : string) (suggestion : Suggestion.t)
           (config : Config.t) : Exc string := Ok code.

Definition rule : Rule := MkRule name check fix_.

End ExtraneousBlocks.

(** The array [DSL_RULES], in registration order. *)
Definition DSL_RULES : list Rule :=
  [ DivisionOperations.rule;
    QueryFunctions.rule;
    UniqueKey.rule;
    VariableNaming.rule;
    NonOptimalNodeAccess.rule;
    NullAccessProtection.rule;
    MathOperationsParens.rule;
    ExtraneousBlocks.rule ].

(* ================================================================== *)
(** ** dslSuggestionsEngine.js *)
(* ================================================================== *)

Module Engine.
Import Regex.

(** The mutable part of [window.DSL_RULES]: the [_instanceCounter] of
    each rule object, in registration order (a missing entry reads as the
    initial value 0). *)
Definition Counters : Type := list nat.

(** The counters as loaded. *)
Definition freshCounters : Counters := map (fun _ => 0) DSL_RULES.

Definition orOpt {A} (a b : option A) : option A :=
  match a with Some x => Some x | None => b end.

(** [applyConfigDefaults(ruleConfig, defaults)] for two objects: the keys
    of [defaults] are copied first, then overwritten by those of
    [ruleConfig]. *)
Definition applyConfigDefaults (ruleConfig defaults : RuleConfig.t)
  : RuleConfig.t :=
  RuleConfig.Make
    (orOpt (RuleConfig.enabled ruleConfig) (RuleConfig.enabled defaults))
    (orOpt (RuleConfig.severity ruleConfig) (RuleConfig.severity defaults))
    (orOpt (RuleConfig.label ruleConfig) (RuleConfig.label defaults))
    (orOpt (RuleConfig.suggestion ruleConfig) (RuleConfig.suggestion defaults))
    (orOpt (RuleConfig.autoFixEnabled ruleConfig)
           (RuleConfig.autoFixEnabled defaults))
    (orOpt (RuleConfig.fixStyle ruleConfig) (RuleConfig.fixStyle defaults))
    (orOpt (RuleConfig.fixTemplates ruleConfig)
           (RuleConfig.fixTemplates defaults))
    (orOpt (RuleConfig.skipIfWrappedIn ruleConfig)
           (RuleConfig.skipIfWrappedIn defaults))
    (orOpt (RuleConfig.functionNames ruleConfig)
           (RuleConfig.functionNames defaults)).

(** [config.suggestionRules && config.suggestionRules[rule.name]],
    followed by the merge with [config.defaults] when both exist. *)
Definition ruleConfigWithDefaults (config : Config.t) (ruleName : string)
  : option RuleConfig.t :=
  let ruleConfig :=
    match Config.suggestionRules config with
    | None => None
    | Some rules => Config.lookup ruleName rules
    end in
  match ruleConfig, Config.defaults config with
  | Some rc, Some d => Some (applyConfigDefaults rc d)
  | _, _ => ruleConfig
  end.

(** The value kept under a key of [summary.byType] or
    [summary.bySeverity]: a number, or a string once a value inherited
    from [Object.prototype] was read under that key (the text of that
    string depends on the engine and is not kept). *)
Inductive CountValue : Type :=
| Count (n : nat)
| Textual.

Record Summary : Type := MkSummary {
  total : nat;
  byType : list (string * CountValue);
  bySeverity : list (string * CountValue)
}.

Record AnalysisResult : Type := MkResult {
  suggestions : list Suggestion.t;
  summary : Summary
}.

(** [v + 1] for a truthy [v]: a number is incremented, a string gets a
    character appended. *)
Definition plusOne (v : CountValue) : CountValue :=
  match v with
  | Count n => Count (n + 1)
  | Textual => Textual
  end.

(** [counts[key] = (counts[key] || 0) + 1] on the plain object [counts],
    as the list of its own properties. Without an own property, a key of
    [Object.prototype] reads an inherited function or object, so that the
    sum is a string; for [__proto__] the assignment of that string is
    ignored, for the other keys it creates the property. *)
Fixpoint increment (key : string) (counts : list (string * CountValue))
  : list (string * CountValue) :=
  match counts with
  | [] =>
      if String.eqb key "__proto__" then []
      else if Js.isProtoKey key then [(key, Textual)]
      else [(key, Count 1)]
  | (k, v) :: r =>
      if String.eqb k key then (k, plusOne v) :: r
      else (k, v) :: increment key r
  end.

(** [/\[([^\]]+)\]/] *)
Definition typePattern : regex :=
  Seq (Chr "[")
      (Seq (Group 1 (Plus (Cls (fun c => negb (Ascii.eqb c "]"%char)))))
           (Chr "]")).

Definition typeOf (message : string) : string :=
  match exec typePattern message 0 with
  | Some m => group message m 1
  | None => "unknown"
  end.

Definition summarize (suggestions : list Suggestion.t) : Summary :=
  fold_left
    (fun s suggestion =>
       MkSummary (total s)
                 (increment (typeOf (Suggestion.message suggestion)) (byType s))
                 (increment (Suggestion.severity suggestion) (bySeverity s)))
    suggestions
    (MkSummary (List.length suggestions) [] []).

(** The inner loop of [analyzeDSL]: one rule over the lines from index
    [lineNum] on; [acc] is [results.suggestions]. *)
Fixpoint lineLoop (rule : Rule) (lines : list string) (context : Context.t)
         (config : Config.t) (remaining : list string) (lineNum : nat)
         (counter : nat) (acc : list Suggestion.t)
  : Exc (list Suggestion.t) * nat :=
  match remaining with
  | [] => (Ok acc, counter)
  | line :: rest =>
      match check rule line (lineNum + 1) lines context config counter with
      | (Throw e, counter') => (Throw e, counter')
      | (Ok lineSuggestions, counter') =>
          lineLoop rule lines context config rest (S lineNum) counter'
                   (if 0 <? List.length lineSuggestions
                    then (acc ++ lineSuggestions)%list else acc)
      end
  end.

(** The outer loop of [analyzeDSL] over the rule objects, [counters]
    holding their counters. The rule entry merged with the defaults that
    the loop computes is not used afterwards: [check] receives the whole
    [config]. When a [check] throws, the rules after it are not run and
    keep their counters. *)
Fixpoint ruleLoop (rules : list Rule) (counters : Counters)
         (lines : list string) (context : Context.t) (config : Config.t)
         (acc : list Suggestion.t) : Exc (list Suggestion.t) * Counters :=
  match rules with
  | [] => (Ok acc, [])
  | rule :: more =>
      match lineLoop rule lines context config lines 0 (hd 0 counters) acc with
      | (Throw e, counter') => (Throw e, counter' :: tl counters)
      | (Ok acc', counter') =>
          let (r, counters') :=
            ruleLoop more (tl counters) lines context config acc' in
          (r, counter' :: counters')
      end
  end.

(** The [options] argument: only [options.config] is read. *)
Definition Options : Type := option Config.t.

(** [options.config || window.dslSuggestionsConfigData || {}] *)
Definition configOf (options : Options) (w : Window.t) : Config.t :=
  match options with
  | Some c => c
  | None =>
      match Window.dslSuggestionsConfigData w with
      | Some c => c
      | None => Config.empty
      end
  end.

Definition analyzeDSL (code : string) (options : Options) (w : Window.t)
           (counters : Counters) : Exc AnalysisResult * Counters :=
  let config := configOf options w in
  let lines := Js.split NL code in
  let context := Context.Make lines (List.length lines) false in
  match ruleLoop DSL_RULES counters lines context config [] with
  | (Throw e, counters') => (Throw e, counters')
  | (Ok suggestions, counters') =>
      (Ok (MkResult suggestions (summarize suggestions)), counters')
  end.

Definition getCurrentFormSelection (w : Window.t) : string :=
  if Js.truthyStr (Window.__forceFormSelection w)
  then Js.orStr (Window.__forceFormSelection w) ""
  else if Js.truthyStr (Window.__currentFormSelection w)
  then Js.orStr (Window.__currentFormSelection w) ""
  else
    match Window.checkedRadio w with
    | Some v => v
    | None => "traditional"
    end.

(** The loop over [ruleSuggestions]: [modifiedCode] becomes the result of
    each [fix] that changed it. *)
Fixpoint fixLoop (rule : Rule) (w : Window.t) (fullConfig : Config.t)
         (ruleSuggestions : list Suggestion.t) (modifiedCode : string)
  : Exc string :=
  match ruleSuggestions with
  | [] => Ok modifiedCode
  | suggestion :: more =>
      match fix_ rule w modifiedCode suggestion fullConfig with
      | Throw e => Throw e
      | Ok fixedCode =>
          fixLoop rule w fullConfig more
                  (if String.eqb fixedCode modifiedCode then modifiedCode
                   else fixedCode)
      end
  end.

(** [modifiedRuleConfig]: a copy of the entry with [fixStyle] overwritten. *)
Definition withFixStyle (rc : RuleConfig.t) (formSelection : string)
  : RuleConfig.t :=
  RuleConfig.Make (RuleConfig.enabled rc) (RuleConfig.severity rc)
                  (RuleConfig.label rc) (RuleConfig.suggestion rc)
                  (RuleConfig.autoFixEnabled rc) (Some formSelection)
                  (RuleConfig.fixTemplates rc) (RuleConfig.skipIfWrappedIn rc)
                  (RuleConfig.functionNames rc).

(** The loop of [applyCodeSuggestions] over [rulesToApply]; every rule
    object has a [fix] function. *)
Fixpoint applyLoop (rules : list Rule) (w : Window.t) (config : Config.t)
         (formSelection : string) (modifiedCode : string)
         (counters : Counters) : Exc string * Counters :=
  match rules with
  | [] => (Ok modifiedCode, counters)
  | rule :: more =>
      match ruleConfigWithDefaults config (name rule) with
      | None => applyLoop more w config formSelection modifiedCode counters
      | Some ruleConfig =>
          if negb (Js.truthyBool (RuleConfig.enabled ruleConfig)) then
            applyLoop more w config formSelection modifiedCode counters
          else if negb (Js.truthyBool (RuleConfig.autoFixEnabled ruleConfig)) then
            applyLoop more w config formSelection modifiedCode counters
          else
            let modifiedRuleConfig := withFixStyle ruleConfig formSelection in
            let fullConfig :=
              Config.Make None (Some [(name rule, modifiedRuleConfig)]) None in
            match analyzeDSL modifiedCode None w counters with
            | (Throw e, counters') => (Throw e, counters')
            | (Ok analysisResults, counters') =>
                let ruleSuggestions :=
                  filter (fun s => String.eqb (Suggestion.rule s) (name rule))
                         (suggestions analysisResults) in
                match fixLoop rule w fullConfig ruleSuggestions modifiedCode with
                | Throw e => (Throw e, counters')
                | Ok code' =>
                    applyLoop more w config formSelection code' counters'
                end
            end
      end
  end.

(** The body of the [try] block. *)
Definition applyBody (code : string) (w : Window.t) (counters : Counters)
  : Exc string * Counters :=
  let config :=
    match Window.dslSuggestionsConfigData w with
    | Some c => c
    | None => Config.empty
    end in
  let formSelection := getCurrentFormSelection w in
  applyLoop DSL_RULES w config formSelection code counters.

Definition applyCodeSuggestions (code : string) (w : Window.t)
           (counters : Counters) : string * Counters :=
  if String.eqb code "" || String.eqb (Js.trim code) "" then (code, counters)
  else
    match applyBody code w counters with
    | (Ok modifiedCode, counters') => (modifiedCode, counters')
    | (Throw _, counters') => (code, counters')   (* catch: return original *)
    end.

End Engine.

(* ================================================================== *)
(** ** Sample configurations *)
(* ================================================================== *)

Module Samples.

(** The templates of the shipped configuration. *)
Definition divisionTemplates : FixTemplates.t :=
  FixTemplates.Make (Some "ifNaN({expression}, {defaultAltValue})")
                    (Some "({expression}).ifNaN({defaultAltValue})").

Definition nullTemplates : FixTemplates.t :=
  FixTemplates.Make (Some "ifNull({expression}, {defaultAltValue})")
                    (Some "({expression}).ifNull({defaultAltValue})").

(** An enabled, auto-fixable entry with the given templates and protector
    names. *)
Definition fixable (templates : option FixTemplates.t)
           (skip : option (list string)) : RuleConfig.t :=
  RuleConfig.Make (Some true) None None None (Some true) None templates skip
                  None.

Definition onlyRule (ruleName : string) (rc : RuleConfig.t) : Config.t :=
  Config.Make None (Some [(ruleName, rc)]) None.

Definition windowWith (config : Config.t) : Window.t :=
  Window.Make (Some config) None None None.

(** Division rule alone, protector list [protect]. *)
Definition protectConfig : Config.t :=
  onlyRule "divisionOperations"
           (fixable (Some (FixTemplates.Make
                             (Some "protect({expression}, {defaultAltValue})")
                             (Some "({expression}).protect({defaultAltValue})")))
                    (Some ["protect"])).

(** Division rule alone, as shipped in v2.36 of the configuration. *)
Definition divisionConfig : Config.t :=
  onlyRule "divisionOperations"
           (fixable (Some divisionTemplates)
                    (Some ["ifNaN"; "catch"; "ifNull"; "safeDivide"])).

Definition nullAccessConfig : Config.t :=
  onlyRule "nullAccessProtection" (fixable (Some nullTemplates) None).

Definition namingConfig : Config.t :=
  onlyRule "variableNaming"
           (fixable (Some (FixTemplates.Make (Some "{correctedName}")
                                             (Some "{correctedName}")))
                    None).

Definition bareWindow : Window.t := Window.Make None None None None.

(** The document of the instance-numbering example: three divisions on
    three lines. *)
Definition threeDivisions : string :=
  "a = b / c" ++ NL ++ "d = e / f" ++ NL ++ "g = h / i".

(** Counters as an earlier run over another document may have left
    them. *)
Definition staleCounters : list nat := [7; 3; 0; 2; 0; 5; 0; 1].

(** Division and null-access rules, to see two rules interleave. *)
Definition twoRules : Config.t :=
  Config.Make None
    (Some [("divisionOperations", fixable (Some divisionTemplates) None);
           ("nullAccessProtection", fixable (Some nullTemplates) None)])
    None.

(** A null access on line 1, a division on line 2. *)
Definition accessThenDivision : string := "x = obj.prop" ++ NL ++ "y = a / b".

(** A window whose radio button selects the method form. *)
Definition methodWindow (config : Config.t) : Window.t :=
  Window.Make (Some config) None None (Some "method").

(** The finding the naming rule reports for [my_variable], and the same
    finding with the [fixed] key that [fix] reads. *)
Definition namingFinding : Suggestion.t :=
  Suggestion.Make 1 0
    ("Variable " ++ DQ ++ "my_variable" ++ DQ
     ++ " should use camelCase naming convention")
    "info" "variableNaming" "variableNaming" true (Some false)
    (Some "my_variable") 1 None.

Definition namingFindingWithFixed : Suggestion.t :=
  Suggestion.Make 1 0 (Suggestion.message namingFinding)
    "info" "variableNaming" "variableNaming" true (Some false)
    (Some "my_variable") 1 (Some "myVariable").

End Samples.

(* ================================================================== *)
(** ** Predicates used to state the properties *)
(* ================================================================== *)

(** The projection [name] of a rule object, under a name that stays
    available where a rule module is imported. *)
Abbreviation nameOf := name (only parsing).

(** [s'] is reached from [s] by consuming at least [n] characters. *)
Definition consumed (n : nat) (s s' : Regex.mstate) : Prop :=
  Regex.pos s' + String.length (Regex.rest s')
  = Regex.pos s + String.length (Regex.rest s)
  /\ String.length (Regex.rest s') + n <= String.length (Regex.rest s).

(** [line[p-1]] seen from inside a scanner loop, where [prev] is the
    character before the remainder. *)
Definition prevAt (prev : option ascii) (line : string) (p : nat)
  : option ascii :=
  match p with
  | O => prev
  | S q => String.get q line
  end.

(** [p] occurs in [s] at offset [j]. *)
Definition occursAt (p s : string) (j : nat) : Prop :=
  Js.startsWith p (Js.dropn j s) = true.

(** What [original] and [column] are for a finding of the division rule:
    the column is the offset of the operator in the masked line and
    [original] is the trimmed expression extracted around it. *)
Definition DivisionAnchor (lineText : string) (s : Suggestion.t) : Prop :=
  Suggestion.rule s = DivisionOperations.name ->
  String.get (Suggestion.column s)
             (DSLRuleUtils.removeStringLiterals lineText) = Some "/"%char
  /\ Suggestion.original s
     = Some (DivisionOperations._extractExpression
               (DSLRuleUtils.removeStringLiterals lineText)
               (Suggestion.column s)).

(** A suggestion is well placed: produced for the line being checked, by
    the rule named, at a column inside that line; it has no [fixed] key. *)
Definition Placed (lineNumber : nat) (ruleName : string) (lineText : string)
           (s : Suggestion.t) : Prop :=
  Suggestion.line s = lineNumber
  /\ Suggestion.rule s = ruleName
  /\ Suggestion.column s < String.length lineText
  /\ DivisionAnchor lineText s
  /\ Suggestion.fixed s = None.

(** Invariant of the loops of a [check]: the suggestions pushed so far are
    well placed and numbered [c0 + 1, c0 + 2, ...], and the counter has
    advanced by their number. *)
Definition AccInv (lineNumber : nat) (ruleName : string) (lineText : string)
           (c0 : nat) (sugs : list Suggestion.t) (c : nat) : Prop :=
  Forall (Placed lineNumber ruleName lineText) sugs
  /\ map Suggestion.instanceNumber sugs = seq (c0 + 1) (List.length sugs)
  /\ c = c0 + List.length sugs.

(** What a rule's [check] guarantees on line [i + 1] of [lines]. *)
Definition CheckSpec (r : Rule) : Prop :=
  forall lines i line context config c sugs c',
    nth_error lines i = Some line ->
    check r line (i + 1) lines context config c = (Ok sugs, c') ->
    AccInv (i + 1) (name r) line (resetAtLine1 (i + 1) c) sugs c'.

(** On line 1 the counter a [check] starts from is irrelevant. *)
Definition ResetsAtLine1 (r : Rule) : Prop :=
  forall line lines context config c1 c2,
    check r line 1 lines context config c1
    = check r line 1 lines context config c2.

(** A suggestion points into the document: its line is one of [lines],
    after line [lo], and its column is inside that line. *)
Definition InDoc (ruleName : string) (lines : list string) (lo : nat)
           (s : Suggestion.t) : Prop :=
  Suggestion.rule s = ruleName
  /\ lo < Suggestion.line s <= List.length lines
  /\ exists lineText,
      nth_error lines (Suggestion.line s - 1) = Some lineText
      /\ Suggestion.column s < String.length lineText
      /\ DivisionAnchor lineText s
      /\ Suggestion.fixed s = None.

(** Non-decreasing line numbers. *)
Fixpoint ascending (l : list nat) : Prop :=
  match l with
  | [] => True
  | x :: t => Forall (fun y => x <= y) t /\ ascending t
  end.

(** The findings of one rule over a whole document: all carry the rule's
    name, point into the document, come in ascending line order and are
    numbered from 1. *)
Definition BlockOf (lines : list string) (r : Rule)
           (block : list Suggestion.t) : Prop :=
  Forall (InDoc (name r) lines 0) block
  /\ ascending (map Suggestion.line block)
  /\ map Suggestion.instanceNumber block = seq 1 (List.length block).

(** The line/column part of the specification's invariant on suggestions. *)
Definition PointsIntoSource (lines : list string) (s : Suggestion.t) : Prop :=
  1 <= Suggestion.line s <= List.length lines
  /\ exists lineText,
      nth_error lines (Suggestion.line s - 1) = Some lineText
      /\ Suggestion.column s < String.length lineText.

(** The [original] part as the specification states it: when present,
    [original] is the text found at that line and column, the line being
    read after masking of its string literals. *)
Definition OriginalAtColumn (lines : list string) (s : Suggestion.t) : Prop :=
  forall o lineText,
    Suggestion.original s = Some o ->
    nth_error lines (Suggestion.line s - 1) = Some lineText ->
    Js.substr (Suggestion.column s) (String.length o)
              (DSLRuleUtils.removeStringLiterals lineText) = o.

(** A rule takes part in the fix pass: its entry, merged with the
    defaults, is enabled and has [autoFixEnabled]. *)
Definition autoFixActive (config : Config.t) (ruleName : string) : bool :=
  match Engine.ruleConfigWithDefaults config ruleName with
  | Some rc =>
      Js.truthyBool (RuleConfig.enabled rc)
      && Js.truthyBool (RuleConfig.autoFixEnabled rc)
  | None => false
  end.

(** The [fix] of a rule returns the code it is given, for every finding
    without a [fixed] key and every configuration that has a rule table. *)
Definition FixIsIdentity (r : Rule) : Prop :=
  forall w code s defaults rules libraries,
    Suggestion.fixed s = None ->
    fix_ r w code s (Config.Make defaults (Some rules) libraries) = Ok code.


(** Closes the side condition of pushing a suggestion built on the spot by
    a rule other than the division rule. *)
Ltac placed :=
  intros ?; split;
  [split; [reflexivity
          | split; [reflexivity
                   | split; [assumption
                            | split; [intros E; discriminate E
                                     | reflexivity]]]]
  | reflexivity].
(* ================================================================== *)
(** ** dslRuleUtilities.js: portions, comments, versioned messages *)
(* ================================================================== *)

Module DSLRuleUtilsRest.
Import DSLRuleUtils.

(** One element of the array returned by [extractNonStringPortions]. *)
Record Portion : Type := MkPortion {
  text : string;
  offset : nat
}.

(** [portions.push({text: currentPortion, offset: currentOffset})] under
    the test [currentPortion.length > 0]. *)
Definition pushPortion (portions : list Portion) (currentPortion : string)
           (currentOffset : nat) : list Portion :=
  if 0 <? String.length currentPortion
  then (portions ++ [MkPortion currentPortion currentOffset])%list
  else portions.

(** The [for] loop of [extractNonStringPortions] from index [i] on, [line]
    being the remainder [line[i..]], followed by the final push. *)
Fixpoint portionsLoop (portions : list Portion) (currentPortion : string)
         (currentOffset : nat) (inString : bool) (stringChar : option ascii)
         (prev : option ascii) (i : nat) (line : string) : list Portion :=
  match line with
  | EmptyString => pushPortion portions currentPortion currentOffset
  | String char rest =>
      if isDelimiter prev char then
        if negb inString then
          portionsLoop (pushPortion portions currentPortion currentOffset)
                       "" currentOffset true (Some char) (Some char) (S i) rest
        else if Js.opt_ascii_eqb stringChar char then
          portionsLoop portions currentPortion (i + 1) false None
                       (Some char) (S i) rest
        else
          portionsLoop portions currentPortion currentOffset inString
                       stringChar (Some char) (S i) rest
      else if negb inString then
        portionsLoop portions (currentPortion ++ String char "")
                     currentOffset inString stringChar (Some char) (S i) rest
      else
        portionsLoop portions currentPortion currentOffset inString
                     stringChar (Some char) (S i) rest
  end.

Definition extractNonStringPortions (line : string) : list Portion :=
  portionsLoop [] "" 0 false None None 0 line.

(** [Comment.isComment] *)
Definition isComment (line : string) : bool :=
  let trimmed := Js.trim line in
  Js.startsWith "//" trimmed || Js.startsWith "/*" trimmed
  || Js.startsWith "*" trimmed.

(** [Comment.removeComments] *)
Definition removeComments (line : string) : string :=
  match Js.indexOf "//" line with
  | Some commentIndex =>
      if negb (isInsideString line commentIndex)
      then Js.substring 0 commentIndex line
      else line
  | None => line
  end.

(** [Comment.isInsideComment] *)
Definition isInsideComment (line : string) (position : nat) : bool :=
  match Js.indexOf "//" line with
  | Some commentIndex =>
      if commentIndex <? position
      then negb (isInsideString line commentIndex)
      else false
  | None => false
  end.

(** [Message.formatVersioned] *)
Definition formatVersioned (version message : string) : string :=
  "[" ++ version ++ "] " ++ message.

End DSLRuleUtilsRest.

(* ================================================================== *)
(** ** dslSuggestionsEngine.js: the annotated listing *)
(* ================================================================== *)

(** The [styling] entry of the configuration object, read by the output
    formatter only. *)
Module Styling.
Record t : Type := Make {
  suggestionColor : option string;
  suggestionBold : option bool
}.
End Styling.

Module EngineOutput.
Import Regex Engine.

(** [buildSuggestionStyle(config)]; the argument is [config.styling]. *)
Definition buildSuggestionStyle (styling : option Styling.t) : string :=
  match styling with
  | None => "color: red;"
  | Some st =>
      let color := Js.orStr (Styling.suggestionColor st) "red" in
      let bold := Js.truthyBool (Styling.suggestionBold st) in
      let style := "color: " ++ color ++ ";" in
      if bold then style ++ " font-weight: bold;" else style
  end.

(** The pattern of [getIndent]: the start of the input followed by one
    group holding as much white space as there is. *)
Definition indentPattern : regex := Seq Bol (Group 1 (Star true space)).

Definition getIndent (line : string) : string :=
  match exec indentPattern line 0 with
  | Some m => group line m 1
  | None => ""
  end.

Definition spanOpen (suggestionStyle : string) : string :=
  "/* <span style=" ++ DQ ++ suggestionStyle ++ DQ ++ ">SUGGESTION:</span> ".

(** The lines pushed for one suggestion of a line. *)
Definition suggestionLines (suggestionStyle indent : string)
           (suggestion : Suggestion.t) : list string :=
  let message := Suggestion.message suggestion in
  if Js.includes NL message then
    match Js.split NL message with
    | first :: others =>
        (indent ++ spanOpen suggestionStyle ++ first)
          :: List.app (map (fun l => indent ++ l) others) [indent ++ "*/"]
    | [] => [indent ++ spanOpen suggestionStyle; indent ++ "*/"]  (* never: split gives a piece *)
    end
  else [indent ++ spanOpen suggestionStyle ++ message ++ " */"].

(** The loop over the lines, from index [i] on. *)
Fixpoint formatLoop (suggestionStyle : string) (suggestions : list Suggestion.t)
         (lines : list string) (i : nat) : list string :=
  match lines with
  | [] => []
  | line :: rest =>
      let lineSuggestions :=
        filter (fun s => Suggestion.line s =? i + 1) suggestions in
      line :: List.app
                (flat_map (suggestionLines suggestionStyle (getIndent line))
                          lineSuggestions)
                (formatLoop suggestionStyle suggestions rest (S i))
  end.

(** [formatSuggestionsOutput(code, suggestions)]; [styling] is the
    [styling] entry of [window.dslSuggestionsConfigData], looked at only
    when that object exists. *)
Definition formatSuggestionsOutput (code : string)
           (suggestions : list Suggestion.t) (w : Window.t)
           (styling : option Styling.t) : string :=
  let lines := Js.split NL code in
  let suggestionStyle :=
    buildSuggestionStyle
      (match Window.dslSuggestionsConfigData w with
       | Some _ => styling
       | None => None
       end) in
  Js.join NL (formatLoop suggestionStyle suggestions lines 0).

Definition errorMessage (e : JsError) : string :=
  match e with TypeError msg => msg end.

(** [generateCodeSuggestions(code)] *)
Definition generateCodeSuggestions (code : string) (w : Window.t)
           (styling : option Styling.t) (counters : Counters)
  : string * Counters :=
  if String.eqb code "" || String.eqb (Js.trim code) ""
  then ("No code provided for analysis.", counters)
  else
    match analyzeDSL code None w counters with
    | (Ok analysisResults, counters') =>
        if List.length (suggestions analysisResults) =? 0
        then ("No suggestions found. Code looks good!", counters')
        else (formatSuggestionsOutput code (suggestions analysisResults)
                                      w styling,
              counters')
    | (Throw error, counters') =>
        ("Error analyzing code: " ++ errorMessage error, counters')
    end.

End EngineOutput.

(* ================================================================== *)
(** ** Further predicates *)
(* ================================================================== *)

(** The own property [counts[key]] of a summary object, [None] when there
    is none. *)
Fixpoint entryOf (key : string) (counts : list (string * Engine.CountValue))
  : option Engine.CountValue :=
  match counts with
  | [] => None
  | (k, v) :: r => if String.eqb k key then Some v else entryOf key r
  end.

(** What a summary object holds under [key] after [n] suggestions with
    that key were counted: nothing when there was none; the number [n]
    for a key that is not inherited; for an inherited key a string, except
    under [__proto__], where nothing can be stored. *)
Definition expectedEntry (key : string) (n : nat)
  : option Engine.CountValue :=
  if n =? 0 then None
  else if String.eqb key "__proto__" then None
  else if Js.isProtoKey key then Some Engine.Textual
  else Some (Engine.Count n).

(** The number of elements of a list that satisfy a test. *)
Definition countIf {A : Type} (f : A -> bool) (l : list A) : nat :=
  List.length (filter f l).

(** The findings of one rule among the suggestions of an analysis. *)
Definition findingsOf (r : Rule) (l : list Suggestion.t)
  : list Suggestion.t :=
  filter (fun s => String.eqb (Suggestion.rule s) (name r)) l.

(** The rule has an entry in the rule table of [config] and that entry is
    enabled. *)
Definition enabledIn (config : Config.t) (ruleName : string) : bool :=
  match Config.suggestionRules config with
  | Some rules =>
      match Config.lookup ruleName rules with
      | Some rc => Js.truthyBool (RuleConfig.enabled rc)
      | None => false
      end
  | None => false
  end.

(** [original] occurs in one of the lines of [code]. *)
Definition occursOnSomeLine (original code : string) : bool :=
  existsb (Js.includes original) (Js.split NL code).

(** The state of the two string scanners after the whole of [line]. *)
Definition endsInsideString (line : string) : bool :=
  DSLRuleUtils.isInsideString line (String.length line).

(** A suggestion is meant for one of the lines [1..n]. *)
Definition inRange (n : nat) (s : Suggestion.t) : bool :=
  (1 <=? Suggestion.line s) && (Suggestion.line s <=? n).

(** The comment line of the annotated listing for a suggestion whose
    message is on one line. *)
Definition commentLine (suggestionStyle indent message : string) : string :=
  indent ++ EngineOutput.spanOpen suggestionStyle ++ message ++ " */".

(** The sum of the numbers held by a summary object. *)
Fixpoint sumCounts (counts : list (string * Engine.CountValue)) : nat :=
  match counts with
  | [] => 0
  | (_, Engine.Count n) :: r => n + sumCounts r
  | (_, Engine.Textual) :: r => sumCounts r
  end.

(** The names that a configuration splices into pattern sources (the
    protector names, the query function names and the library names) are
    all plain. *)
Definition plainNames (names : option (list string)) : bool :=
  match names with
  | Some l => forallb Regex.plainSource l
  | None => true
  end.

Definition patternSafe (config : Config.t) : bool :=
  plainNames (Config.libraries config)
  && match Config.suggestionRules config with
     | Some rules =>
         forallb (fun kv =>
                    plainNames (RuleConfig.skipIfWrappedIn (snd kv))
                    && plainNames (RuleConfig.functionNames (snd kv)))
                 rules
     | None => true
     end.

(** Every [check] of rule [r] over the lines of a document returns
    suggestions that satisfy [P]. *)
Definition CheckGives (P : Suggestion.t -> Prop) (lines : list string)
           (context : Context.t) (config : Config.t) (r : Rule) : Prop :=
  forall i line c sugs c',
    nth_error lines i = Some line ->
    check r line (i + 1) lines context config c = (Ok sugs, c') ->
    Forall P sugs.

(** Rule [r] reports nothing and does not throw, on any line. *)
Definition Silent (lines : list string) (context : Context.t)
           (config : Config.t) (r : Rule) : Prop :=
  forall line n c,
    check r line n lines context config c = (Ok [], resetAtLine1 n c).

(** Exposes the common prologue of the [check] of any of the rules. *)
Ltac unfold_check H :=
  cbn [check DivisionOperations.rule QueryFunctions.rule UniqueKey.rule
       VariableNaming.rule NonOptimalNodeAccess.rule
       NullAccessProtection.rule MathOperationsParens.rule
       ExtraneousBlocks.rule] in H;
  unfold DivisionOperations.check, QueryFunctions.check, UniqueKey.check,
    VariableNaming.check, NonOptimalNodeAccess.check,
    NullAccessProtection.check, MathOperationsParens.check,
    ExtraneousBlocks.check in H.

Ltac unfold_check_goal :=
  cbn [check DivisionOperations.rule QueryFunctions.rule UniqueKey.rule
       VariableNaming.rule NonOptimalNodeAccess.rule
       NullAccessProtection.rule MathOperationsParens.rule
       ExtraneousBlocks.rule];
  unfold DivisionOperations.check, QueryFunctions.check, UniqueKey.check,
    VariableNaming.check, NonOptimalNodeAccess.check,
    NullAccessProtection.check, MathOperationsParens.check,
    ExtraneousBlocks.check.


(** A portion of [line]: a non-empty piece of text found in [line] at the
    portion's offset. *)
Definition PortionOf (line : string) (p : DSLRuleUtilsRest.Portion) : Prop :=
  DSLRuleUtilsRest.text p <> ""
  /\ Js.substr (DSLRuleUtilsRest.offset p)
               (String.length (DSLRuleUtilsRest.text p)) line
     = DSLRuleUtilsRest.text p.

(** The matcher state once the characters of [a], with which the input
    ahead starts, have been consumed. *)
Fixpoint consume (a : string) (s : Regex.mstate) : Regex.mstate :=
  match a, Regex.rest s with
  | String _ a', String d t => consume a' (Regex.advance d t s)
  | _, _ => s
  end.

(** Every character of [s] passes the test [f]. *)
Fixpoint allChars (f : ascii -> bool) (s : string) : bool :=
  match s with
  | EmptyString => true
  | String c r => f c && allChars f r
  end.

(** The first character of [s], if any, passes the test [f]. *)
Definition headPasses (f : ascii -> bool) (s : string) : bool :=
  match s with
  | EmptyString => false
  | String c _ => f c
  end.

(** Rule [r] returns a result, without throwing, on every line. *)
Definition Returns (lines : list string) (context : Context.t)
           (config : Config.t) (r : Rule) : Prop :=
  forall line n c,
    exists sugs c', check r line n lines context config c = (Ok sugs, c').

(** Case analysis on the tests of a loop body that only pushes
    suggestions. *)
Ltac keeps_thrown :=
  cbv zeta;
  repeat match goal with
         | |- context [if ?b then _ else _] => destruct b
         end;
  try assumption;
  unfold pushSuggestion; cbn [thrown]; assumption.

(** An entry of a summary object holds a string exactly when its key is
    inherited from [Object.prototype]. *)
Definition WellKeyed (kv : string * Engine.CountValue) : Prop :=
  Js.isProtoKey (fst kv)
  = match snd kv with Engine.Textual => true | Engine.Count _ => false end.

(** The fix styles that the division fix and the null-access fix would
    read for an entry are not keys inherited from [Object.prototype]. *)
Definition ownStyles (w : Window.t) (rc : RuleConfig.t) : bool :=
  negb (Js.isProtoKey (Js.orStr (RuleConfig.fixStyle rc) "traditional"))
  && negb (Js.isProtoKey
             (Js.orStr (Window.__forceFormSelection w)
                       (Js.orStr (RuleConfig.fixStyle rc) "traditional"))).

Definition hasTemplates (rc : RuleConfig.t) : bool :=
  match RuleConfig.fixTemplates rc with
  | Some _ => true
  | None => false
  end.

(** The matcher went from [s] to [s'] by consuming the text [a]. *)
Definition follows (a : string) (s s' : Regex.mstate) : Prop :=
  Regex.rest s = a ++ Regex.rest s'
  /\ Regex.pos s' = Regex.pos s + String.length a.

(** A pattern without capturing group. *)
Fixpoint groupFree (r : Regex.regex) : bool :=
  match r with
  | Regex.Group _ _ => false
  | Regex.Seq r1 r2 | Regex.Alt r1 r2 => groupFree r1 && groupFree r2
  | Regex.Star _ r0 => groupFree r0
  | _ => true
  end.

(** What [original] and [column] are for a finding of the division rule,
    in terms of the masked line alone: the column holds the operator, and
    [original] is a piece of the masked line that starts at or before the
    column and ends after it. *)
Definition OriginalSpansColumn (lines : list string) (s : Suggestion.t)
  : Prop :=
  exists lineText o start,
    nth_error lines (Suggestion.line s - 1) = Some lineText
    /\ Suggestion.original s = Some o
    /\ String.get (Suggestion.column s)
                  (DSLRuleUtils.removeStringLiterals lineText)
       = Some "/"%char
    /\ start <= Suggestion.column s < start + String.length o
    /\ Js.substr start (String.length o)
                 (DSLRuleUtils.removeStringLiterals lineText) = o.

(** The rules whose findings quote the text at their column. *)
Definition quotingRule (ruleName : string) : bool :=
  String.eqb ruleName NullAccessProtection.name
  || String.eqb ruleName MathOperationsParens.name
  || String.eqb ruleName NonOptimalNodeAccess.name.

Definition quotesAtColumn (s : Suggestion.t) : bool :=
  quotingRule (Suggestion.rule s).

(* ================================================================== *)
(** * Theorems *)
(* ================================================================== *)

(** ** The matcher and the primitives on sample inputs *)

Module SampleRuns.
Import Regex.

(** [/\/(?!=)/] *)
Example division_pattern :
  map index (execAll (Seq (Chr "/") (NotAhead (Chr "="))) "a / b /= c/d")
  = [2; 10].
Proof. reflexivity. Qed.

Example identifier_greedy :
  map (matched "ab.cd = x_1") (execAll identifier "ab.cd = x_1")
  = ["ab"; "cd"; "x_1"].
Proof. reflexivity. Qed.

Example lazy_star :
  map (matched "a/*x*/b/*y*/")
      (execAll (Seq (lit "/*") (Seq (Star false (Cls (fun _ => true))) (lit "*/")))
               "a/*x*/b/*y*/")
  = ["/*x*/"; "/*y*/"].
Proof. reflexivity. Qed.

Example word_boundary :
  map index (execAll (Seq WordB (Seq (lit "query") (Seq (Star true space) (Chr "("))))
                     "subquery(x) + query (y)")
  = [14].
Proof. reflexivity. Qed.

Example replace_dollar :
  replaceFirstStr "{e}" "<$&|$$>" "f({e})" = "f(<{e}|$>)".
Proof. reflexivity. Qed.

Example trim_and_split :
  Js.trim "  a b  " = "a b" /\ Js.split "_" "my_var_X" = ["my"; "var"; "X"]
  /\ Js.split "." "a.b" = ["a"; "b"] /\ Js.split "." "" = [""].
Proof. repeat split; reflexivity. Qed.

Example masking_sample :
  DSLRuleUtils.removeStringLiterals "x = 'a/b' + c" = "x =       + c"
  /\ DSLRuleUtils.isInsideString "x = 'a/b' + c" 6 = true
  /\ DSLRuleUtils.isInsideString "x = 'a/b' + c" 4 = false.
Proof. repeat split; reflexivity. Qed.

Example extract_expression :
  DivisionOperations._extractExpression "r = f(total / count, 0)" 12
  = "total / count".
Proof. reflexivity. Qed.

Example count_statements :
  map ExtraneousBlocks._countStatements
      ["x = 5"; "x = 5, y = f(1, 2)"; "x = f(1,2) /* a, b */"; "  "]
  = [1; 2; 1; 0].
Proof. reflexivity. Qed.

Example counter_rendering :
  map Js.natToString [0; 7; 12; 305] = ["0"; "7"; "12"; "305"].
Proof. reflexivity. Qed.

End SampleRuns.

(** ** String-literal masking *)

Section Masking.

Import DSLRuleUtils MaskSpec.

Lemma removeLoop_length (line : string) :
  forall inString stringChar prev,
    String.length (removeLoop inString stringChar prev line)
    = String.length line.
Proof.
  induction line as [|c rest IH]; intros inString stringChar prev.
  - reflexivity.
  - cbn [removeLoop].
    destruct (isDelimiter prev c); [destruct (negb inString);
      [|destruct (Js.opt_ascii_eqb stringChar c)]|destruct inString];
      cbn [String.length]; now rewrite IH.
Qed.

Lemma removeStringLiterals_length (line : string) :
  String.length (removeStringLiterals line) = String.length line.
Proof. apply removeLoop_length. Qed.

Lemma removeLoop_get (line : string) :
  forall p inString stringChar prev,
    String.get p (removeLoop inString stringChar prev line)
    = option_map
        (fun c =>
           if insideLoop inString stringChar prev line p
              || isDelimiter (prevAt prev line p) c
           then Js.space else c)
        (String.get p line).
Proof.
  induction line as [|c rest IH]; intros p inString stringChar prev.
  - destruct p; reflexivity.
  - destruct p as [|p].
    + cbn [removeLoop insideLoop prevAt String.get option_map].
      destruct (isDelimiter prev c) eqn:D.
      * rewrite orb_true_r.
        destruct (negb inString);
          [|destruct (Js.opt_ascii_eqb stringChar c)]; reflexivity.
      * rewrite orb_false_r. destruct inString; reflexivity.
    + assert (P : prevAt prev (String c rest) (S p) = prevAt (Some c) rest p)
        by (destruct p; reflexivity).
      rewrite P.
      cbn [removeLoop insideLoop].
      destruct (isDelimiter prev c);
        [destruct (negb inString);
         [|destruct (Js.opt_ascii_eqb stringChar c)]|destruct inString];
        cbn [String.get]; apply IH.
Qed.

End Masking.

(** C5 (as stated, refuted): at the opening quote of the line ['a'] the
    character is masked to a space and belongs to the literal, yet
    [isInsideString] answers false, so the masked positions and the
    positions reported inside a string do not coincide. The invariant
    fails whether the delimiters count as inside the literal (first part,
    at the opening quote) or not (second part, at the closing quote), and
    also in the form that needs no such reading: a character other than a
    space that masking turned into a space need not be reported (third
    part). *)
Lemma C5_masking_invariant_fails :
  ~ (forall L p, MaskSpec.maskingInvariantAt MaskSpec.insideQuotes L p)
  /\ ~ (forall L p, MaskSpec.maskingInvariantAt MaskSpec.betweenQuotes L p)
  /\ ~ (forall L p c,
           String.get p L = Some c ->
           c <> Js.space ->
           String.get p (DSLRuleUtils.removeStringLiterals L) = Some Js.space ->
           DSLRuleUtils.isInsideString L p = true).
Proof.
  split; [|split].
  - intros H. specialize (H "'a'" 0). unfold MaskSpec.maskingInvariantAt in H.
    destruct H as [_ H].
    assert (E : DSLRuleUtils.isInsideString "'a'" 0 = true)
      by (apply H; split; reflexivity).
    discriminate E.
  - intros H. specialize (H "'a'" 2). unfold MaskSpec.maskingInvariantAt in H.
    destruct H as [H _].
    destruct (H eq_refl) as [_ E]. discriminate E.
  - intros H.
    assert (E : DSLRuleUtils.isInsideString "'a'" 0 = true).
    { apply (H "'a'" 0 Js.squote); [reflexivity|discriminate|reflexivity]. }
    discriminate E.
Qed.

(** C5 (amended): masking preserves the length, and at every position the
    masked line holds a space when [isInsideString] is true there or the
    character is an unescaped quote, and the original character otherwise.
    In particular every position [isInsideString] reports is masked. *)
Theorem C5_masking_agreement (L : string) :
  String.length (DSLRuleUtils.removeStringLiterals L) = String.length L
  /\ (forall p,
         String.get p (DSLRuleUtils.removeStringLiterals L)
         = option_map (MaskSpec.maskedChar L p) (String.get p L))
  /\ (forall p,
         p < String.length L ->
         DSLRuleUtils.isInsideString L p = true ->
         String.get p (DSLRuleUtils.removeStringLiterals L) = Some Js.space).
Proof.
  split; [apply removeStringLiterals_length|].
  assert (G : forall p,
             String.get p (DSLRuleUtils.removeStringLiterals L)
             = option_map (MaskSpec.maskedChar L p) (String.get p L)).
  { intros p. unfold DSLRuleUtils.removeStringLiterals.
    rewrite removeLoop_get. unfold MaskSpec.maskedChar, MaskSpec.charBefore.
    destruct p; reflexivity. }
  split; [exact G|].
  intros p Hp Hin. rewrite G.
  destruct (String.get p L) as [c|] eqn:E.
  - cbn. unfold MaskSpec.maskedChar. now rewrite Hin.
  - exfalso. revert E. clear -Hp. revert p Hp.
    induction L as [|c r IH]; intros p Hp; cbn in Hp; [lia|].
    destruct p; cbn; [discriminate|]. apply IH. lia.
Qed.

Lemma C5_masking_agreement_witness :
  String.get 1 (DSLRuleUtils.removeStringLiterals "'a'") = Some Js.space.
Proof.
  apply (proj2 (proj2 (C5_masking_agreement "'a'")) 1);
    [cbn; lia | reflexivity].
Defined.

(** ** Bounds on what the matcher returns *)

Section MatcherBounds.

Import Regex.

Lemma consumed_refl (s : mstate) : consumed 0 s s.
Proof. split; lia. Qed.

Lemma consumed_trans (a b : nat) (s1 s2 s3 : mstate) :
  consumed a s1 s2 -> consumed b s2 s3 -> consumed (a + b) s1 s3.
Proof. unfold consumed. intros [H1 H2] [H3 H4]. split; lia. Qed.

Lemma consumed_weaken (a b : nat) (s s' : mstate) :
  b <= a -> consumed a s s' -> consumed b s s'.
Proof. unfold consumed. intros L [H1 H2]. split; lia. Qed.

Lemma orElse_some {A} (a b : option A) (x : A) :
  orElse a b = Some x -> a = Some x \/ b = Some x.
Proof. destruct a; cbn; intros H; [left|right]; assumption. Qed.

Lemma starLoop_sound
      (body : (mstate -> option mstate) -> mstate -> option mstate)
      (n : nat) (greedy : bool) (k : mstate -> option mstate) :
  (forall k s x, body k s = Some x ->
                 exists s', k s' = Some x /\ consumed n s s') ->
  forall fuel s x,
    starLoop body greedy k fuel s = Some x ->
    exists s', k s' = Some x /\ consumed 0 s s'.
Proof.
  intros Hbody. induction fuel as [|fuel IHf]; intros s x H; cbn [starLoop] in H.
  - exists s. split; [exact H | apply consumed_refl].
  - assert (A : forall y,
               body (fun s' =>
                       if String.length (rest s') <? String.length (rest s)
                       then starLoop body greedy k fuel s' else None) s
               = Some y ->
               exists s', k s' = Some y /\ consumed 0 s s').
    { intros y Hy. apply Hbody in Hy. destruct Hy as (s1 & Hy & C1).
      destruct (String.length (rest s1) <? String.length (rest s));
        [|discriminate].
      apply IHf in Hy. destruct Hy as (s2 & Hy & C2).
      exists s2. split; [assumption|].
      eapply consumed_weaken; [|eapply consumed_trans; eassumption]. lia. }
    cbv zeta in H. destruct greedy.
    + apply orElse_some in H. destruct H as [H|H].
      * apply A; exact H.
      * exists s. split; [assumption | apply consumed_refl].
    + apply orElse_some in H. destruct H as [H|H].
      * exists s. split; [assumption | apply consumed_refl].
      * apply A; exact H.
Qed.

(** Whatever the continuation accepts was reached by consuming at least
    [minLen r] characters of the input ahead. *)
Lemma run_sound (r : regex) :
  forall k s x,
    run r k s = Some x ->
    exists s', k s' = Some x /\ consumed (minLen r) s s'.
Proof.
  induction r as [ | c | f | r1 IH1 r2 IH2 | r1 IH1 r2 IH2 | g r0 IH
                   | n r0 IH | r0 IH | | | ]; intros k s x H; cbn [run minLen] in *.
  - exists s. split; [assumption | apply consumed_refl].
  - destruct (rest s) as [|d t] eqn:E; [discriminate|].
    destruct (Ascii.eqb c d); [|discriminate].
    exists (advance d t s). split; [assumption|].
    unfold consumed, advance; cbn. rewrite E; cbn. split; lia.
  - destruct (rest s) as [|d t] eqn:E; [discriminate|].
    destruct (f d); [|discriminate].
    exists (advance d t s). split; [assumption|].
    unfold consumed, advance; cbn. rewrite E; cbn. split; lia.
  - apply IH1 in H. destruct H as (s1 & H & C1).
    apply IH2 in H. destruct H as (s2 & H & C2).
    exists s2. split; [assumption|]. eapply consumed_trans; eassumption.
  - apply orElse_some in H. destruct H as [H|H].
    + apply IH1 in H. destruct H as (s1 & H & C1). exists s1.
      split; [assumption|]. eapply consumed_weaken; [|eassumption]. lia.
    + apply IH2 in H. destruct H as (s1 & H & C1). exists s1.
      split; [assumption|]. eapply consumed_weaken; [|eassumption]. lia.
  - eapply starLoop_sound; eassumption.
  - apply IH in H. destruct H as (s1 & H & C1).
    exists (setCap n (pos s) (pos s1) s1). split; [assumption|].
    exact C1.
  - destruct (run r0 Some s); [discriminate|].
    exists s. split; [assumption | apply consumed_refl].
  - destruct (xorb _ _); [|discriminate].
    exists s. split; [assumption | apply consumed_refl].
  - destruct (pos s =? 0); [|discriminate].
    exists s. split; [assumption | apply consumed_refl].
  - destruct (rest s); [|discriminate].
    exists s. split; [assumption | apply consumed_refl].
Qed.

Lemma searchFrom_bounds (r : regex) (rest0 : string) :
  forall prev0 i m,
    searchFrom r prev0 rest0 i = Some m ->
    i <= index m
    /\ index m + minLen r <= mend m
    /\ mend m <= i + String.length rest0.
Proof.
  induction rest0 as [|c t IH]; intros prev0 i m H; cbn [searchFrom] in H.
  - destruct (run r Some (MState i prev0 "" [])) as [s|] eqn:E; [|discriminate].
    injection H as <-. cbn.
    apply run_sound in E. destruct E as (s' & E & C1 & C2).
    injection E as ->. cbn in *. lia.
  - destruct (run r Some (MState i prev0 (String c t) [])) as [s|] eqn:E.
    + injection H as <-. cbn.
      apply run_sound in E. destruct E as (s' & E & C1 & C2).
      injection E as ->. cbn in *. lia.
    + apply IH in H. cbn. lia.
Qed.

Lemma dropn_length (s : string) :
  forall n, String.length (Js.dropn n s) = String.length s - n.
Proof.
  induction s as [|c t IH]; intros [|n]; cbn; try reflexivity. apply IH.
Qed.

Lemma exec_bounds (r : regex) (input : string) (lastIndex : nat)
      (m : MatchResult) :
  exec r input lastIndex = Some m ->
  lastIndex <= index m
  /\ index m + minLen r <= mend m
  /\ mend m <= String.length input.
Proof.
  unfold exec. destruct (String.length input <? lastIndex) eqn:L;
    [discriminate|].
  apply Nat.ltb_ge in L. intros H. apply searchFrom_bounds in H.
  rewrite dropn_length in H. lia.
Qed.

Lemma execLoop_bounds (r : regex) (input : string) (fuel : nat) :
  forall lastIndex m,
    In m (execLoop fuel r input lastIndex) ->
    index m + minLen r <= mend m /\ mend m <= String.length input.
Proof.
  induction fuel as [|fuel IH]; intros lastIndex m H; cbn [execLoop] in H.
  - destruct H.
  - destruct (exec r input lastIndex) as [m0|] eqn:E; [|destruct H].
    destruct H as [<-|H].
    + apply exec_bounds in E. lia.
    + destruct (mend m0 <=? lastIndex); [destruct H|].
      eapply IH; eassumption.
Qed.

(** Every match reported by a [while (exec)] loop of a pattern that
    consumes something starts inside the input. *)
Lemma execAll_index_lt (r : regex) (input : string) (m : MatchResult) :
  1 <= minLen r ->
  In m (execAll r input) ->
  index m < String.length input.
Proof.
  intros L H. apply execLoop_bounds in H. lia.
Qed.

Lemma get_dropn (s : string) :
  forall n k, String.get k (Js.dropn n s) = String.get (n + k) s.
Proof.
  induction s as [|c t IH]; intros [|n] k; cbn; try reflexivity.
  apply IH.
Qed.

(** A match of a pattern that begins with a literal character starts at
    an occurrence of that character. *)
Lemma searchFrom_head (c : ascii) (r : regex) (rest0 : string) :
  forall prev0 i m,
    searchFrom (Seq (Chr c) r) prev0 rest0 i = Some m ->
    i <= index m /\ String.get (index m - i) rest0 = Some c.
Proof.
  induction rest0 as [|d t IH]; intros prev0 i m H; cbn [searchFrom] in H.
  - cbn in H. discriminate.
  - destruct (run (Seq (Chr c) r) Some (MState i prev0 (String d t) []))
      as [s|] eqn:E.
    + injection H as <-. cbn [index]. rewrite Nat.sub_diag.
      cbn in E. destruct (Ascii.eqb c d) eqn:C; [|discriminate].
      apply Ascii.eqb_eq in C. subst d. split; [lia | reflexivity].
    + apply IH in H. destruct H as [L G]. split; [lia|].
      replace (index m - i) with (S (index m - S i)) by lia. exact G.
Qed.

Lemma execLoop_head (c : ascii) (r : regex) (input : string) (fuel : nat) :
  forall lastIndex m,
    In m (execLoop fuel (Seq (Chr c) r) input lastIndex) ->
    String.get (index m) input = Some c.
Proof.
  induction fuel as [|fuel IH]; intros lastIndex m H; cbn [execLoop] in H.
  - destruct H.
  - destruct (exec (Seq (Chr c) r) input lastIndex) as [m0|] eqn:E;
      [|destruct H].
    destruct H as [<-|H].
    + unfold exec in E. destruct (String.length input <? lastIndex);
        [discriminate|].
      apply searchFrom_head in E. destruct E as [L G].
      rewrite get_dropn in G. now replace (lastIndex + (index m0 - lastIndex))
        with (index m0) in G by lia.
    + destruct (mend m0 <=? lastIndex); [destruct H|].
      eapply IH; eassumption.
Qed.

Lemma execAll_head (c : ascii) (r : regex) (input : string)
      (m : MatchResult) :
  In m (execAll (Seq (Chr c) r) input) ->
  String.get (index m) input = Some c.
Proof. apply execLoop_head. Qed.

(** *** The fuel of the loops is never used up *)

(** The [while (exec)] loop of a pattern that consumes something visits
    the same matches whatever fuel it is given beyond the length of the
    input still ahead. *)
Lemma execLoop_fuel (r : regex) (input : string) :
  1 <= minLen r ->
  forall fuel fuel' lastIndex,
    String.length input - lastIndex < fuel ->
    String.length input - lastIndex < fuel' ->
    execLoop fuel r input lastIndex = execLoop fuel' r input lastIndex.
Proof.
  intros L. induction fuel as [|fuel IH]; intros fuel' lastIndex F F';
    [lia|].
  destruct fuel' as [|fuel']; [lia|]. cbn [execLoop].
  destruct (exec r input lastIndex) as [m|] eqn:E; [|reflexivity].
  f_equal. destruct (mend m <=? lastIndex); [reflexivity|].
  apply exec_bounds in E. apply IH; lia.
Qed.

Lemma execAll_fuel (r : regex) (input : string) (fuel : nat) :
  1 <= minLen r ->
  String.length input < fuel ->
  execLoop fuel r input 0 = execAll r input.
Proof.
  intros L F. unfold execAll. apply execLoop_fuel; [assumption|lia|lia].
Qed.

(** No match of such a pattern is empty, so the loop never stops on the
    test that guards against an empty match. *)
Lemma exec_advances (r : regex) (input : string) (lastIndex : nat)
      (m : MatchResult) :
  1 <= minLen r ->
  exec r input lastIndex = Some m ->
  (mend m <=? lastIndex) = false.
Proof.
  intros L E. apply exec_bounds in E. apply Nat.leb_gt. lia.
Qed.

End MatcherBounds.

(** ** What every [check] returns *)

Section CheckInvariants.

Import DSLRuleUtils.

Lemma AccInv_nil (lineNumber : nat) (ruleName : string) (lineText : string) (c0 : nat) :
  AccInv lineNumber ruleName lineText c0 [] c0.
Proof. repeat split; [constructor | cbn; lia]. Qed.

Lemma AccInv_push (lineNumber : nat) (ruleName : string)
      (lineText : string) (c0 : nat) (acc : LoopAcc) (mk : nat -> Suggestion.t) :
  AccInv lineNumber ruleName lineText c0 (suggestions acc) (counter acc) ->
  (forall n, Placed lineNumber ruleName lineText (mk n)
             /\ Suggestion.instanceNumber (mk n) = n) ->
  AccInv lineNumber ruleName lineText c0
         (suggestions (pushSuggestion acc mk))
         (counter (pushSuggestion acc mk)).
Proof.
  intros (F & N & C) M. unfold pushSuggestion. cbn [suggestions counter].
  repeat split.
  - apply Forall_app. split; [assumption|]. constructor; [apply M|constructor].
  - rewrite map_app, N, length_app. cbn [map List.length].
    rewrite (proj2 (M _)), seq_app. cbn [seq]. do 2 f_equal. lia.
  - rewrite length_app. cbn. lia.
Qed.

Lemma fold_left_invariant {A B : Type} (P : A -> Prop) (f : A -> B -> A)
      (l : list B) :
  (forall a b, In b l -> P a -> P (f a b)) ->
  forall a, P a -> P (fold_left f l a).
Proof.
  induction l as [|b l IH]; intros H a Pa; cbn; [assumption|].
  apply IH.
  - intros a' b' I. apply H. now right.
  - apply H; [now left | assumption].
Qed.

Lemma finish_ok (acc : LoopAcc) (sugs : list Suggestion.t) (c : nat) :
  finish acc = (Ok sugs, c) -> sugs = suggestions acc /\ c = counter acc.
Proof.
  unfold finish. destruct (thrown acc); intros H; inversion H. now split.
Qed.

(** The two ways out of the common prologue with a result. *)
Lemma ruleProlog_ok (ruleName : string) (lineNumber : nat)
      (context : Context.t) (config : Config.t) (counter0 : nat)
      (body : RuleConfig.t -> nat -> Exc (list Suggestion.t) * nat)
      (sugs : list Suggestion.t) (c' : nat) :
  ruleProlog ruleName lineNumber context config counter0 body = (Ok sugs, c') ->
  (sugs = [] /\ c' = resetAtLine1 lineNumber counter0)
  \/ (exists ruleConfig,
         Config.ruleEntry config ruleName = Ok (Some ruleConfig)
         /\ body ruleConfig (resetAtLine1 lineNumber counter0) = (Ok sugs, c')).
Proof.
  unfold ruleProlog. cbv zeta.
  destruct (Context.isInComment context).
  { intros H; inversion H. now left. }
  destruct (Config.ruleEntry config ruleName) as [[rc|]|e].
  - destruct (negb (Js.truthyBool (RuleConfig.enabled rc))).
    + intros H; inversion H. now left.
    + intros H. right. exists rc. now split.
  - intros H; inversion H. now left.
  - discriminate.
Qed.

(** The shape shared by the rules whose [check] is one loop over the
    matches of a pattern in the masked line. *)
Lemma loop_check_spec {M : Type} (ruleName : string) (lineNumber : nat)
      (lineText : string) (c0 : nat)
      (step : LoopAcc -> M -> LoopAcc) (ms : list M)
      (sugs : list Suggestion.t) (c' : nat) :
  (forall acc m,
      In m ms ->
      AccInv lineNumber ruleName lineText c0 (suggestions acc) (counter acc) ->
      AccInv lineNumber ruleName lineText c0
             (suggestions (step acc m)) (counter (step acc m))) ->
  finish (fold_left step ms (MkAcc [] c0 [] None)) = (Ok sugs, c') ->
  AccInv lineNumber ruleName lineText c0 sugs c'.
Proof.
  intros Hstep H. apply finish_ok in H. destruct H as [-> ->].
  apply (fold_left_invariant
           (fun acc => AccInv lineNumber ruleName lineText c0
                              (suggestions acc) (counter acc))).
  - exact Hstep.
  - apply AccInv_nil.
Qed.

Lemma masked_index_lt (r : Regex.regex) (line : string)
      (m : Regex.MatchResult) :
  1 <= Regex.minLen r ->
  In m (Regex.execAll r (removeStringLiterals line)) ->
  Regex.index m < String.length line.
Proof.
  intros L I. rewrite <- (removeStringLiterals_length line).
  eapply execAll_index_lt; eassumption.
Qed.

Lemma division_spec : CheckSpec DivisionOperations.rule.
Proof.
  intros lines i line context config c sugs c' _ H.
  cbn [check name DivisionOperations.rule] in *.
  unfold DivisionOperations.check in H.
  apply ruleProlog_ok in H. destruct H as [[-> ->]|(rc & _ & H)];
    [apply AccInv_nil|].
  destruct (Js.includes "/*" line && Js.includes "*/" line).
  { inversion H. apply AccInv_nil. }
  eapply loop_check_spec; [|exact H].
  intros acc m I A. unfold DivisionOperations.checkStep.
  assert (L : Regex.index m < String.length line)
    by (eapply masked_index_lt; [|exact I]; cbv; lia).
  destruct (thrown acc); [assumption|].
  destruct (isInsideString line (Regex.index m)); [assumption|].
  destruct (_ || _); [assumption|].
  destruct (existsb _ _); [assumption|].
  destruct (DivisionOperations._isAlreadyWrapped _ _ _) as [[|]|e];
    try exact A.
  apply AccInv_push; [exact A|].
  intros n. split; [|reflexivity].
  split; [reflexivity|split; [reflexivity|split; [assumption|]]].
  split; [|reflexivity].
  intros _. split; [|reflexivity].
  cbn [Suggestion.column]. eapply execAll_head. exact I.
Qed.

Lemma query_spec : CheckSpec QueryFunctions.rule.
Proof.
  intros lines i line context config c sugs c' _ H.
  cbn [check name QueryFunctions.rule] in *.
  unfold QueryFunctions.check in H.
  apply ruleProlog_ok in H. destruct H as [[-> ->]|(rc & _ & H)];
    [apply AccInv_nil|].
  cbv zeta in H. destruct (0 <? _).
  2:{ inversion H. apply AccInv_nil. }
  eapply loop_check_spec; [|exact H].
  intros acc m I A. unfold QueryFunctions.checkStep.
  assert (L : Regex.index m < String.length line)
    by (eapply masked_index_lt; [|exact I];
        unfold QueryFunctions.functionRegex; cbn [Regex.minLen]; lia).
  cbv zeta.
  destruct (isInsideString line (Regex.index m)); [assumption|].
  apply AccInv_push; [exact A|]. placed.
Qed.

Lemma uniqueKey_spec : CheckSpec UniqueKey.rule.
Proof.
  intros lines i line context config c sugs c' _ H.
  cbn [check name UniqueKey.rule] in *.
  unfold UniqueKey.check in H.
  apply ruleProlog_ok in H. destruct H as [[-> ->]|(rc & _ & H)];
    [apply AccInv_nil|].
  eapply loop_check_spec; [|exact H].
  intros acc m I A. unfold UniqueKey.checkStep.
  assert (L : Regex.index m < String.length line)
    by (eapply execAll_index_lt; [|exact I]; cbv; lia).
  cbv zeta.
  destruct (isInsideString line (Regex.index m)); [assumption|].
  apply AccInv_push; [exact A|]. placed.
Qed.

Lemma naming_spec : CheckSpec VariableNaming.rule.
Proof.
  intros lines i line context config c sugs c' _ H.
  cbn [check name VariableNaming.rule] in *.
  unfold VariableNaming.check in H.
  apply ruleProlog_ok in H. destruct H as [[-> ->]|(rc & _ & H)];
    [apply AccInv_nil|].
  eapply loop_check_spec; [|exact H].
  intros acc m I A. unfold VariableNaming.checkStep.
  assert (L : Regex.index m < String.length line)
    by (eapply masked_index_lt; [|exact I]; cbv; lia).
  cbv zeta.
  destruct (isInsideString line (Regex.index m)); [assumption|].
  destruct (_ || _); [|assumption].
  apply AccInv_push; [exact A|]. placed.
Qed.

Lemma findNodeAccess_position (line : string) (config : Config.t)
      (node : NonOptimalNodeAccess.Node) :
  In node (NonOptimalNodeAccess._findNodeAccess
             (removeStringLiterals line) config) ->
  NonOptimalNodeAccess.position node < String.length line.
Proof.
  unfold NonOptimalNodeAccess._findNodeAccess. intros I.
  apply in_flat_map in I. destruct I as (library & _ & I).
  apply in_map_iff in I. destruct I as (m & <- & I). cbn.
  eapply masked_index_lt; [|exact I].
  unfold NonOptimalNodeAccess.nodePattern. cbn [Regex.minLen]. lia.
Qed.

Lemma nodeAccess_spec : CheckSpec NonOptimalNodeAccess.rule.
Proof.
  intros lines i line context config c sugs c' _ H.
  cbn [check name NonOptimalNodeAccess.rule] in *.
  unfold NonOptimalNodeAccess.check in H.
  apply ruleProlog_ok in H. destruct H as [[-> ->]|(rc & _ & H)];
    [apply AccInv_nil|].
  eapply loop_check_spec; [|exact H].
  intros acc node I A. unfold NonOptimalNodeAccess.checkStep.
  apply findNodeAccess_position in I.
  apply AccInv_push; [exact A|]. placed.
Qed.

Lemma nullAccess_spec : CheckSpec NullAccessProtection.rule.
Proof.
  intros lines i line context config c sugs c' _ H.
  cbn [check name NullAccessProtection.rule] in *.
  unfold NullAccessProtection.check in H.
  apply ruleProlog_ok in H. destruct H as [[-> ->]|(rc & _ & H)];
    [apply AccInv_nil|].
  eapply loop_check_spec; [|exact H].
  intros acc m I A. unfold NullAccessProtection.checkStep.
  assert (L : Regex.index m < String.length line)
    by (eapply masked_index_lt; [|exact I]; cbv; lia).
  cbv zeta.
  destruct (isInsideString line (Regex.index m)); [assumption|].
  destruct (String.eqb _ "("); [assumption|].
  destruct (_ && _); [|assumption].
  apply AccInv_push; [exact A|]. placed.
Qed.

Lemma math_spec : CheckSpec MathOperationsParens.rule.
Proof.
  intros lines i line context config c sugs c' _ H.
  cbn [check name MathOperationsParens.rule] in *.
  unfold MathOperationsParens.check in H.
  apply ruleProlog_ok in H. destruct H as [[-> ->]|(rc & _ & H)];
    [apply AccInv_nil|].
  eapply loop_check_spec; [|exact H].
  intros acc m I A. unfold MathOperationsParens.checkStep.
  assert (L : Regex.index m < String.length line)
    by (eapply masked_index_lt; [|exact I]; cbv; lia).
  cbv zeta.
  destruct (isInsideString line (Regex.index m)); [assumption|].
  destruct (negb _); [|assumption].
  apply AccInv_push; [exact A|]. placed.
Qed.

(** Every finding of the division rule is for an expression on which the
    wrap test answered false: an expression that follows a protector name
    and an opening parenthesis in the masked line is never reported. *)
Lemma division_findings_not_wrapped (line : string) (lineNumber : nat)
      (lines : list string) (context : Context.t) (config : Config.t)
      (c c' : nat) (sugs : list Suggestion.t) (rc : RuleConfig.t) :
  DivisionOperations.check line lineNumber lines context config c
  = (Ok sugs, c') ->
  Config.ruleEntry config DivisionOperations.name = Ok (Some rc) ->
  Forall (fun s =>
            exists e,
              Suggestion.original s = Some e
              /\ DivisionOperations._isAlreadyWrapped
                   (DSLRuleUtils.removeStringLiterals line)
                   (DSLRuleUtilsMore.AString e) rc = Ok false)
         sugs.
Proof.
  intros H RC. unfold DivisionOperations.check in H.
  apply ruleProlog_ok in H. destruct H as [[-> _]|(rc' & RC' & H)];
    [constructor|].
  rewrite RC in RC'. injection RC' as <-.
  destruct (Js.includes "/*" line && Js.includes "*/" line).
  { inversion H. constructor. }
  apply finish_ok in H. destruct H as [-> _].
  apply (fold_left_invariant
           (fun acc =>
              Forall (fun s =>
                        exists e,
                          Suggestion.original s = Some e
                          /\ DivisionOperations._isAlreadyWrapped
                               (DSLRuleUtils.removeStringLiterals line)
                               (DSLRuleUtilsMore.AString e) rc = Ok false)
                     (suggestions acc))); [|constructor].
  intros acc m _ A. unfold DivisionOperations.checkStep.
  destruct (thrown acc); [assumption|].
  destruct (DSLRuleUtils.isInsideString line (Regex.index m)); [assumption|].
  destruct (_ || _); [assumption|].
  destruct (existsb _ _); [assumption|].
  destruct (DivisionOperations._isAlreadyWrapped _ _ _) as [[|]|e] eqn:W;
    try exact A.
  unfold pushSuggestion. cbn [suggestions].
  apply Forall_app. split; [exact A|].
  constructor; [|constructor]. eexists. split; [reflexivity|exact W].
Qed.

End CheckInvariants.

(** ** The extraneous-blocks rule *)

Section BlockInvariants.

Import DSLRuleUtils ExtraneousBlocks.

Lemma startsWith_length (p s : string) :
  Js.startsWith p s = true -> String.length p <= String.length s.
Proof.
  revert s. induction p as [|a p IH]; intros [|b s]; cbn; try lia;
    try discriminate.
  intros H. apply andb_prop in H. destruct H as [_ H]. apply IH in H. lia.
Qed.

Lemma startsWith_app (p s t : string) :
  Js.startsWith p s = true -> Js.startsWith p (s ++ t) = true.
Proof.
  revert s. induction p as [|a p IH]; intros [|b s]; cbn; try reflexivity;
    try discriminate.
  intros H. apply andb_prop in H. destruct H as [-> H]. cbn. now apply IH.
Qed.

Lemma indexOfFrom_occurs (p s : string) :
  forall i k, Js.indexOfFrom i p s = Some k -> exists j, occursAt p s j.
Proof.
  induction s as [|c s IH]; intros i k H; cbn [Js.indexOfFrom] in H.
  - destruct (Js.startsWith p "") eqn:E; [|discriminate]. now exists 0.
  - destruct (Js.startsWith p (String c s)) eqn:E.
    + now exists 0.
    + apply IH in H. destruct H as (j & H). now exists (S j).
Qed.

Lemma includes_occurs (p s : string) :
  Js.includes p s = true -> exists j, occursAt p s j.
Proof.
  unfold Js.includes, Js.indexOf.
  destruct (Js.indexOfFrom 0 p s) eqn:E; [|discriminate].
  intros _. eapply indexOfFrom_occurs; eassumption.
Qed.

Lemma dropn_dropn (s : string) :
  forall a b, Js.dropn a (Js.dropn b s) = Js.dropn (b + a) s.
Proof.
  induction s as [|c s IH]; intros a [|b]; cbn; try reflexivity.
  - now destruct a.
  - apply IH.
Qed.

Lemma trimStart_suffix (s : string) :
  exists n, Js.trimStart s = Js.dropn n s.
Proof.
  induction s as [|c s [n IH]]; [now exists 0|].
  cbn. destruct (Js.isWhite c); [exists (S n); exact IH | now exists 0].
Qed.

Lemma trimEnd_prefix (s : string) :
  exists t, s = Js.trimEnd s ++ t.
Proof.
  induction s as [|c s [t IH]]; [now exists ""|].
  cbn [Js.trimEnd]. destruct (Js.allWhite (String c s)).
  - now exists (String c s).
  - exists t. cbn. now rewrite <- IH.
Qed.

Lemma occursAt_app (p s t : string) (j : nat) :
  p <> "" -> occursAt p s j -> occursAt p (s ++ t) j.
Proof.
  unfold occursAt. intros Hp. revert j.
  induction s as [|c s IH]; intros j H.
  - destruct j; cbn in H; destruct p; try congruence; discriminate.
  - destruct j as [|j]; cbn [Js.dropn append] in *.
    + change (String c (s ++ t)) with (String c s ++ t).
      now apply startsWith_app.
    + now apply IH.
Qed.

Lemma trim_occurs (p s : string) (j : nat) :
  p <> "" -> occursAt p (Js.trim s) j -> exists k, occursAt p s k.
Proof.
  intros Hp H. unfold Js.trim in H.
  destruct (trimEnd_prefix (Js.trimStart s)) as [t E].
  apply (occursAt_app _ _ t) in H; [|assumption].
  rewrite <- E in H. destruct (trimStart_suffix s) as [n En].
  unfold occursAt in H. rewrite En, dropn_dropn in H.
  now exists (n + j).
Qed.

Lemma scanChars_found (rest : string) :
  forall j skip st st' b,
    foundBlock st = true ->
    scanChars rest j skip st = (st', b) ->
    foundBlock st' = true /\ blockStartCol st' = blockStartCol st.
Proof.
  induction rest as [|c t IH]; intros j skip st st' b F H;
    cbn [scanChars] in H.
  - inversion H; subst. now split.
  - destruct skip as [|k]; [|eapply IH; eassumption].
    rewrite F in H. cbn [negb andb] in H.
    destruct (Ascii.eqb c "(").
    { apply IH in H; [exact H | reflexivity]. }
    destruct (Ascii.eqb c ")").
    { destruct (parenDepth st - 1 =? 0).
      - inversion H; subst. now split.
      - apply IH in H; [exact H | reflexivity]. }
    apply IH in H; [exact H | reflexivity].
Qed.

Lemma scanChars_finds (rest : string) :
  forall j k st st' b,
    foundBlock st = false ->
    occursAt "block(" rest k ->
    scanChars rest j 0 st = (st', b) ->
    foundBlock st' = true
    /\ j <= blockStartCol st' < j + String.length rest.
Proof.
  induction rest as [|c t IH]; intros j k st st' b F O H.
  - unfold occursAt in O. destruct k; discriminate O.
  - cbn [scanChars] in H. rewrite F in H. cbn [negb andb] in H.
    destruct (Js.startsWith "block(" (String c t)) eqn:E.
    + apply scanChars_found in H; [|reflexivity].
      destruct H as [H1 H2]. cbn in H2. cbn [String.length].
      split; [assumption | lia].
    + destruct k as [|k]; [unfold occursAt in O; cbn [Js.dropn] in O;
                           congruence|].
      eapply IH in H; [|assumption|exact O].
      cbn [String.length]. destruct H as [H1 H2]. split; [assumption|lia].
Qed.

Lemma scanLines_found (lines : list string) :
  forall st st',
    foundBlock st = true ->
    scanLines lines st = Some st' ->
    blockStartCol st' = blockStartCol st.
Proof.
  induction lines as [|line more IH]; intros st st' F H;
    cbn [scanLines] in H; [discriminate|].
  cbv zeta in H.
  destruct (scanChars (removeStringLiterals line) 0 0 st) as [st1 b] eqn:E.
  apply scanChars_found in E; [|assumption]. destruct E as [F1 C1].
  destruct b.
  - inversion H; subst. assumption.
  - rewrite F1 in H. cbn [andb] in H.
    destruct (0 <? parenDepth st1).
    + cbn [foundBlock parenDepth andb] in H.
      destruct (parenDepth st1 =? 0); [discriminate|].
      apply IH in H; [|reflexivity]. cbn in H. congruence.
    + rewrite F1 in H. cbn [andb] in H.
      destruct (parenDepth st1 =? 0); [discriminate|].
      apply IH in H; [|assumption]. congruence.
Qed.

Lemma nth_error_skipn {A : Type} (l : list A) :
  forall i x, nth_error l i = Some x -> exists more, skipn i l = x :: more.
Proof.
  induction l as [|a l IH]; intros [|i] x H; cbn in *; try discriminate.
  - inversion H. now exists l.
  - now apply IH.
Qed.

Lemma checkBlockFunction_spec (lines : list string) (i : nat) (line : string)
      (ruleConfig : RuleConfig.t) (c c' : nat) (s : Suggestion.t) :
  nth_error lines i = Some line ->
  Js.includes "block(" (Js.trim (removeStringLiterals line)) = true ->
  _checkBlockFunction (i + 1) lines ruleConfig c = (Some s, c') ->
  Placed (i + 1) name line s
  /\ Suggestion.instanceNumber s = c + 1 /\ c' = c + 1.
Proof.
  intros N I H. unfold _checkBlockFunction in H. cbv zeta in H.
  rewrite Nat.add_sub in H.
  destruct (nth_error_skipn _ _ _ N) as [more Sk]. rewrite Sk in H.
  destruct (scanLines (line :: more) (MkBlock "" 0 false 0)) as [st|] eqn:E;
    [|inversion H].
  destruct (_countStatements (blockContent st) =? 1); [|inversion H].
  inversion H; subst; clear H.
  split; [|split; reflexivity].
  split; [reflexivity|split; [reflexivity|split; [|split; [intros D; discriminate D|reflexivity]]]].
  cbn [Suggestion.column].
  apply includes_occurs in I. destruct I as [j I].
  apply trim_occurs in I; [|discriminate]. destruct I as [k I].
  cbn [scanLines] in E. cbv zeta in E.
  destruct (scanChars (removeStringLiterals line) 0 0 (MkBlock "" 0 false 0))
    as [st1 b] eqn:E1.
  eapply scanChars_finds in E1; [|reflexivity|exact I].
  rewrite removeStringLiterals_length in E1. destruct E1 as [F1 B1].
  destruct b.
  - inversion E; subst. lia.
  - rewrite F1 in E. cbn [andb] in E.
    destruct (0 <? parenDepth st1).
    + cbn [foundBlock parenDepth andb] in E.
      destruct (parenDepth st1 =? 0); [discriminate|].
      apply scanLines_found in E; [|reflexivity]. cbn in E. lia.
    + rewrite F1 in E. cbn [andb] in E.
      destruct (parenDepth st1 =? 0); [discriminate|].
      apply scanLines_found in E; [|assumption]. lia.
Qed.

Lemma checkBlockFunction_none (startLine : nat) (lines : list string)
      (ruleConfig : RuleConfig.t) (c c' : nat) :
  _checkBlockFunction startLine lines ruleConfig c = (None, c') -> c' = c.
Proof.
  unfold _checkBlockFunction. cbv zeta.
  destruct (scanLines _ _) as [st|]; [|intros H; now inversion H].
  destruct (_ =? 1); intros H; now inversion H.
Qed.

Lemma trim_nonempty (s t : string) :
  Js.trim s = t -> t <> "" -> 0 < String.length s.
Proof.
  intros <- H. destruct s; [now contradiction H | cbn; lia].
Qed.

Lemma blocks_spec : CheckSpec ExtraneousBlocks.rule.
Proof.
  intros lines i line context config c sugs c' N H.
  cbn [check nameOf ExtraneousBlocks.rule] in *.
  unfold ExtraneousBlocks.check in H.
  apply ruleProlog_ok in H. destruct H as [[-> ->]|(rc & _ & H)];
    [apply AccInv_nil|].
  cbv zeta in H. apply finish_ok in H. destruct H as [-> ->].
  set (c0 := resetAtLine1 (i + 1) c).
  set (trimmed := Js.trim (removeStringLiterals line)) in *.
  assert (Z : trimmed = "{" \/ trimmed = "{}" -> 0 < String.length line).
  { intros T. rewrite <- (removeStringLiterals_length line).
    apply (trim_nonempty _ trimmed); [reflexivity|].
    destruct T as [-> | ->]; discriminate. }
  (* the block() wrapper *)
  match goal with
  | |- AccInv _ _ _ _ (suggestions (if _ then _ else ?a2))
              (counter (if _ then _ else ?a2)) =>
      match a2 with
      | (if _ then _ else ?a1) =>
          assert (A1 : AccInv (i + 1) name line c0
                              (suggestions a1) (counter a1))
      end
  end.
  { destruct (Js.includes "block(" trimmed) eqn:I; [|apply AccInv_nil].
    destruct (_checkBlockFunction (i + 1) lines rc c0) as [[s|] c1] eqn:E.
    - eapply checkBlockFunction_spec in E; [|exact N|exact I].
      destruct E as (P & Num & ->). cbn [suggestions counter].
      split; [constructor; [exact P|constructor]|].
      split; [cbn; now rewrite Num | cbn; lia].
    - apply checkBlockFunction_none in E. subst c1. apply AccInv_nil. }
  match goal with
  | |- AccInv _ _ _ _ (suggestions (if _ then _ else ?a2))
              (counter (if _ then _ else ?a2)) =>
      assert (A2 : AccInv (i + 1) name line c0
                          (suggestions a2) (counter a2))
  end.
  { destruct (String.eqb trimmed "{") eqn:T; cbn [andb]; [|exact A1].
    apply String.eqb_eq in T.
    destruct (i + 1 <? List.length lines - 1); [|exact A1].
    destruct (_ && _); [|exact A1].
    apply AccInv_push; [exact A1|].
    intros n. split; [|reflexivity].
    split; [reflexivity|split; [reflexivity|split; [|split; [intros D; discriminate D|reflexivity]]]].
    cbn. apply Z. now left. }
  destruct (String.eqb trimmed "{}" || _) eqn:T; [|exact A2].
  apply AccInv_push; [exact A2|].
  intros n. split; [|reflexivity].
  split; [reflexivity|split; [reflexivity|split; [|split; [intros D; discriminate D|reflexivity]]]].
  cbn. apply Z.
  apply orb_prop in T. destruct T as [T|T].
  - right. now apply String.eqb_eq.
  - left. apply andb_prop in T. destruct T as [T _].
    apply andb_prop in T. destruct T as [T _]. now apply String.eqb_eq.
Qed.

End BlockInvariants.

(** ** The fuel of the remaining loops is never used up *)

Section Fuel.

Import Regex.

Lemma starLoop_ext
      (body : (mstate -> option mstate) -> mstate -> option mstate)
      (greedy : bool) (k1 k2 : mstate -> option mstate) :
  (forall k k' s, (forall x, k x = k' x) -> body k s = body k' s) ->
  (forall x, k1 x = k2 x) ->
  forall fuel s, starLoop body greedy k1 fuel s = starLoop body greedy k2 fuel s.
Proof.
  intros HB HK. induction fuel as [|fuel IH]; intros s; cbn [starLoop];
    [apply HK|].
  cbv zeta. rewrite (HK s).
  replace (body (fun s' => if String.length (rest s') <? String.length (rest s)
                           then starLoop body greedy k1 fuel s' else None) s)
    with (body (fun s' => if String.length (rest s') <? String.length (rest s)
                          then starLoop body greedy k2 fuel s' else None) s);
    [reflexivity|].
  apply HB. intros x. destruct (_ <? _); [now rewrite IH | reflexivity].
Qed.

(** The matcher depends on its continuation only through the values the
    continuation takes. *)
Lemma run_ext (r : regex) :
  forall k k' s, (forall x, k x = k' x) -> run r k s = run r k' s.
Proof.
  induction r as [ | c | f | r1 IH1 r2 IH2 | r1 IH1 r2 IH2 | g r0 IH
                   | n r0 IH | r0 IH | | | ]; intros k k' s H; cbn [run].
  - apply H.
  - destruct (rest s); [reflexivity|]. now rewrite H.
  - destruct (rest s); [reflexivity|]. now rewrite H.
  - apply IH1. intros x. now apply IH2.
  - now rewrite (IH1 k k' s H), (IH2 k k' s H).
  - apply starLoop_ext; assumption.
  - apply IH. intros x. apply H.
  - now rewrite H.
  - now rewrite H.
  - now rewrite H.
  - now rewrite H.
Qed.

(** A repetition gives the same result for every fuel above the length of
    the input ahead: the fuel [run] passes is enough. *)
Lemma starLoop_fuel (r0 : regex) (greedy : bool)
      (k : mstate -> option mstate) :
  forall fuel fuel' s,
    String.length (rest s) < fuel ->
    String.length (rest s) < fuel' ->
    starLoop (run r0) greedy k fuel s = starLoop (run r0) greedy k fuel' s.
Proof.
  induction fuel as [|fuel IH]; intros fuel' s F F'; [lia|].
  destruct fuel' as [|fuel']; [lia|]. cbn [starLoop]. cbv zeta.
  replace (run r0 (fun s' => if String.length (rest s') <? String.length (rest s)
                             then starLoop (run r0) greedy k fuel s'
                             else None) s)
    with (run r0 (fun s' => if String.length (rest s') <? String.length (rest s)
                            then starLoop (run r0) greedy k fuel' s'
                            else None) s);
    [reflexivity|].
  apply run_ext. intros x.
  destruct (String.length (rest x) <? String.length (rest s)) eqn:E;
    [|reflexivity].
  apply Nat.ltb_lt in E. symmetry. apply IH; lia.
Qed.

Lemma indexOfFrom_bound (p s : string) :
  forall i k,
    Js.indexOfFrom i p s = Some k ->
    i <= k /\ (k - i) + String.length p <= String.length s.
Proof.
  induction s as [|c s IH]; intros i k H; cbn [Js.indexOfFrom] in H.
  - destruct (Js.startsWith p "") eqn:E; [|discriminate].
    injection H as <-. apply startsWith_length in E. lia.
  - destruct (Js.startsWith p (String c s)) eqn:E.
    + injection H as <-. apply startsWith_length in E. lia.
    + apply IH in H. cbn [String.length]. lia.
Qed.

(** Splitting on a non-empty separator gives the same pieces for every
    fuel from the length of the string on. *)
Lemma splitStr_fuel (sep : string) :
  sep <> "" ->
  forall fuel fuel' s,
    String.length s <= fuel ->
    String.length s <= fuel' ->
    Js.splitStr sep fuel s = Js.splitStr sep fuel' s.
Proof.
  intros NE.
  assert (Z : forall s, String.length s = 0 -> Js.indexOf sep s = None).
  { intros [|c s] L; [|discriminate L]. destruct sep; [congruence|reflexivity]. }
  induction fuel as [|fuel IH]; intros fuel' s F F'.
  - destruct fuel'; cbn [Js.splitStr]; [reflexivity|].
    rewrite Z by lia. reflexivity.
  - destruct fuel' as [|fuel']; cbn [Js.splitStr].
    + rewrite Z by lia. reflexivity.
    + destruct (Js.indexOf sep s) as [i|] eqn:E; [|reflexivity].
      f_equal. unfold Js.indexOf in E. apply indexOfFrom_bound in E.
      assert (0 < String.length sep) by (destruct sep; [congruence|cbn; lia]).
      apply IH; rewrite dropn_length; lia.
Qed.

End Fuel.

(** ** The analysis loops *)

Section AnalysisLoops.

Import Engine.

Lemma all_rules_spec : Forall CheckSpec DSL_RULES.
Proof.
  unfold DSL_RULES.
  constructor; [apply division_spec|].
  constructor; [apply query_spec|].
  constructor; [apply uniqueKey_spec|].
  constructor; [apply naming_spec|].
  constructor; [apply nodeAccess_spec|].
  constructor; [apply nullAccess_spec|].
  constructor; [apply math_spec|].
  constructor; [apply blocks_spec|].
  constructor.
Qed.

Lemma ruleProlog_line1 (ruleName : string) (context : Context.t)
      (config : Config.t) (c1 c2 : nat)
      (body : RuleConfig.t -> nat -> Exc (list Suggestion.t) * nat) :
  ruleProlog ruleName 1 context config c1 body
  = ruleProlog ruleName 1 context config c2 body.
Proof. reflexivity. Qed.

Lemma all_rules_reset : Forall ResetsAtLine1 DSL_RULES.
Proof.
  unfold DSL_RULES.
  repeat (constructor;
          [intros line lines context config c1 c2; apply ruleProlog_line1|]).
  constructor.
Qed.

Lemma splitStr_nonempty (sep : string) (fuel : nat) (s : string) :
  Js.splitStr sep fuel s <> [].
Proof.
  destruct fuel; cbn; [discriminate|].
  destruct (Js.indexOf sep s); discriminate.
Qed.

Lemma split_nonempty (sep s : string) : Js.split sep s <> [].
Proof. apply splitStr_nonempty. Qed.

Lemma lineLoop_cons (r : Rule) (lines : list string) (context : Context.t)
      (config : Config.t) (line : string) (rest : list string)
      (lineNum c : nat) (acc res : list Suggestion.t) (c' : nat) :
  lineLoop r lines context config (line :: rest) lineNum c acc = (Ok res, c') ->
  exists ls c1,
    check r line (lineNum + 1) lines context config c = (Ok ls, c1)
    /\ lineLoop r lines context config rest (S lineNum) c1 (acc ++ ls)%list
       = (Ok res, c').
Proof.
  cbn [lineLoop].
  destruct (check r line (lineNum + 1) lines context config c) as [[ls|e] c1];
    [|discriminate].
  intros H. exists ls, c1. split; [reflexivity|].
  destruct ls; cbn [List.length Nat.ltb Nat.leb] in H.
  - now rewrite app_nil_r.
  - exact H.
Qed.

Lemma skipn_cons {A : Type} (l : list A) :
  forall n x rest,
    skipn n l = x :: rest ->
    nth_error l n = Some x /\ skipn (S n) l = rest /\ n < List.length l.
Proof.
  induction l as [|a l IH]; intros [|n] x rest H; cbn in *; try discriminate.
  - inversion H. repeat split. lia.
  - apply IH in H. destruct H as (H1 & H2 & H3). repeat split; try assumption.
    lia.
Qed.

Lemma ascending_app (a b : list nat) :
  ascending a -> ascending b ->
  (forall x y, In x a -> In y b -> x <= y) ->
  ascending (a ++ b).
Proof.
  induction a as [|x a IH]; intros Ha Hb H; cbn; [assumption|].
  destruct Ha as [F Ha]. split.
  - apply Forall_app. split; [assumption|].
    apply Forall_forall. intros y Iy. apply H; [now left|assumption].
  - apply IH; try assumption. intros x' y Ix Iy. apply H; [now right|assumption].
Qed.

Lemma ascending_const (n : nat) (l : list nat) :
  Forall (fun x => x = n) l -> ascending l.
Proof.
  induction 1 as [|x l E F IH]; cbn; [exact I|]. split; [|assumption].
  subst x. eapply Forall_impl; [|exact F]. cbn. intros; lia.
Qed.

(** The suggestions one line contributes, seen from the document. *)
Lemma placed_in_doc (r : Rule) (lines : list string) (lineNum : nat)
      (line : string) (ls : list Suggestion.t) :
  nth_error lines lineNum = Some line ->
  lineNum < List.length lines ->
  Forall (Placed (lineNum + 1) (name r) line) ls ->
  Forall (InDoc (name r) lines lineNum) ls
  /\ Forall (fun x => x = lineNum + 1) (map Suggestion.line ls).
Proof.
  intros N L F. split.
  - eapply Forall_impl; [|exact F]. intros s (P1 & P2 & P3 & P4 & P5).
    split; [assumption|]. rewrite P1. split; [lia|].
    exists line. rewrite Nat.add_sub.
    split; [assumption|split; [assumption|split; assumption]].
  - apply Forall_map. eapply Forall_impl; [|exact F].
    now intros s (P1 & _).
Qed.

Lemma InDoc_weaken (ruleName : string) (lines : list string) (lo lo' : nat)
      (s : Suggestion.t) :
  lo' <= lo -> InDoc ruleName lines lo s -> InDoc ruleName lines lo' s.
Proof.
  intros L (P1 & P2 & P3). split; [assumption|]. split; [lia|assumption].
Qed.

(** One rule over the lines after the first. *)
Lemma lineLoop_spec (r : Rule) (lines : list string) (context : Context.t)
      (config : Config.t) :
  CheckSpec r ->
  forall remaining lineNum c acc res c',
    1 <= lineNum ->
    skipn lineNum lines = remaining ->
    lineLoop r lines context config remaining lineNum c acc = (Ok res, c') ->
    exists block,
      res = (acc ++ block)%list
      /\ Forall (InDoc (name r) lines lineNum) block
      /\ ascending (map Suggestion.line block)
      /\ map Suggestion.instanceNumber block = seq (c + 1) (List.length block)
      /\ c' = c + List.length block.
Proof.
  intros HS. induction remaining as [|line rest IH];
    intros lineNum c acc res c' L Sk H.
  - cbn in H. inversion H; subst. exists []. rewrite app_nil_r.
    repeat split; [constructor | cbn; lia].
  - apply lineLoop_cons in H. destruct H as (ls & c1 & Hc & H).
    apply skipn_cons in Sk. destruct Sk as (N & Sk & Len).
    apply (HS _ _ _ _ _ _ _ _ N) in Hc. destruct Hc as (F & Num & C1).
    assert (R : resetAtLine1 (lineNum + 1) c = c).
    { unfold resetAtLine1. destruct (lineNum + 1 =? 1) eqn:E; [|reflexivity].
      apply Nat.eqb_eq in E. lia. }
    rewrite R in *.
    apply IH in H; [|lia|assumption].
    destruct H as (block & -> & FB & AB & NB & ->).
    destruct (placed_in_doc r lines lineNum line ls N Len F) as [FD FL].
    exists (ls ++ block)%list. rewrite app_assoc. split; [reflexivity|].
    split; [|split; [|split]].
    + apply Forall_app. split; [assumption|].
      eapply Forall_impl; [|exact FB]. intros s. apply InDoc_weaken. lia.
    + rewrite map_app. apply ascending_app; [|assumption|].
      * eapply ascending_const. exact FL.
      * intros x y Ix Iy.
        rewrite Forall_forall in FL. rewrite (FL _ Ix).
        apply in_map_iff in Iy. destruct Iy as (s & <- & Is).
        rewrite Forall_forall in FB. destruct (FB _ Is) as (_ & B & _). lia.
    + rewrite map_app, Num, NB, length_app, seq_app. do 2 f_equal. lia.
    + rewrite length_app. lia.
Qed.

(** One rule over a whole, non-empty document, whatever the counter it
    starts from. *)
Lemma lineLoop_full (r : Rule) (lines : list string) (context : Context.t)
      (config : Config.t) (c : nat) (acc res : list Suggestion.t) (c' : nat) :
  CheckSpec r ->
  lines <> [] ->
  lineLoop r lines context config lines 0 c acc = (Ok res, c') ->
  exists block, res = (acc ++ block)%list /\ BlockOf lines r block.
Proof.
  intros HS NE H. destruct lines as [|line rest] eqn:EL; [congruence|].
  rewrite <- EL in *. rewrite EL in H at 2.
  apply lineLoop_cons in H. destruct H as (ls & c1 & Hc & H).
  assert (N : nth_error lines 0 = Some line) by (now rewrite EL).
  assert (Len : 0 < List.length lines) by (rewrite EL; cbn; lia).
  apply (HS _ _ _ _ _ _ _ _ N) in Hc. destruct Hc as (F & Num & C1).
  change (resetAtLine1 (0 + 1) c) with 0 in *.
  eapply lineLoop_spec in H; [|exact HS|lia|now rewrite EL].
  destruct H as (block & -> & FB & AB & NB & ->).
  destruct (placed_in_doc r lines 0 line ls N Len F) as [FD FL].
  exists (ls ++ block)%list. rewrite app_assoc. split; [reflexivity|].
  split; [|split].
  - apply Forall_app. split; [assumption|].
    eapply Forall_impl; [|exact FB]. intros s. apply InDoc_weaken. lia.
  - rewrite map_app. apply ascending_app; [|assumption|].
    + eapply ascending_const. exact FL.
    + intros x y Ix Iy.
      rewrite Forall_forall in FL. rewrite (FL _ Ix).
      apply in_map_iff in Iy. destruct Iy as (s & <- & Is).
      rewrite Forall_forall in FB. destruct (FB _ Is) as (_ & B & _). lia.
  - rewrite map_app, Num, NB, length_app, seq_app. do 2 f_equal. lia.
Qed.

(** The result of the rule loop is the concatenation, in rule order, of
    one block per rule. *)
Lemma ruleLoop_spec (lines : list string) (context : Context.t)
      (config : Config.t) :
  lines <> [] ->
  forall rules counters acc res counters',
    Forall CheckSpec rules ->
    ruleLoop rules counters lines context config acc = (Ok res, counters') ->
    exists blocks,
      res = (acc ++ List.concat blocks)%list
      /\ Forall2 (BlockOf lines) rules blocks.
Proof.
  intros NE. induction rules as [|r more IH];
    intros counters acc res counters' HS H.
  - cbn in H. inversion H; subst. exists []. cbn. rewrite app_nil_r.
    split; [reflexivity | constructor].
  - cbn [ruleLoop] in H. inversion HS as [|? ? HS1 HS2]; subst.
    destruct (lineLoop r lines context config lines 0 (hd 0 counters) acc)
      as [[acc1|e] c1] eqn:E; [|discriminate].
    destruct (ruleLoop more (tl counters) lines context config acc1)
      as [r1 more'] eqn:E1.
    inversion H; subst; clear H.
    apply lineLoop_full in E; [|assumption|assumption].
    destruct E as (block & -> & B).
    apply IH in E1; [|assumption].
    destruct E1 as (blocks & -> & F2).
    exists (block :: blocks). cbn [List.concat]. rewrite app_assoc.
    split; [reflexivity|]. constructor; assumption.
Qed.

Lemma analyzeDSL_blocks (code : string) (options : Options) (w : Window.t)
      (counters : Counters) (r : AnalysisResult) (counters' : Counters) :
  analyzeDSL code options w counters = (Ok r, counters') ->
  exists blocks,
    suggestions r = List.concat blocks
    /\ Forall2 (BlockOf (Js.split NL code)) DSL_RULES blocks.
Proof.
  unfold analyzeDSL. cbv zeta.
  destruct (ruleLoop _ _ _ _ _ _) as [[sugs|e] st] eqn:E; [|discriminate].
  intros H. inversion H; subst; clear H. cbn [suggestions].
  apply ruleLoop_spec in E.
  - exact E.
  - apply split_nonempty.
  - apply all_rules_spec.
Qed.

(** *** Independence from the counters left by earlier runs *)

Lemma lineLoop_reset (r : Rule) (lines : list string) (context : Context.t)
      (config : Config.t) (c1 c2 : nat) (acc : list Suggestion.t) :
  ResetsAtLine1 r ->
  lines <> [] ->
  lineLoop r lines context config lines 0 c1 acc
  = lineLoop r lines context config lines 0 c2 acc.
Proof.
  intros HR NE. destruct lines as [|line rest] eqn:EL; [congruence|].
  rewrite <- EL. rewrite EL at 2 4. cbn [lineLoop].
  change (0 + 1) with 1. now rewrite (HR line lines context config c1 c2).
Qed.

Lemma ruleLoop_reset (lines : list string) (context : Context.t)
      (config : Config.t) (rules : list Rule) :
  Forall ResetsAtLine1 rules ->
  lines <> [] ->
  forall cs1 cs2 acc,
    fst (ruleLoop rules cs1 lines context config acc)
    = fst (ruleLoop rules cs2 lines context config acc).
Proof.
  intros HR NE. induction HR as [|r rules R HR IH]; intros cs1 cs2 acc.
  - reflexivity.
  - cbn [ruleLoop].
    rewrite (lineLoop_reset r lines context config (hd 0 cs1) (hd 0 cs2) acc R NE).
    destruct (lineLoop r lines context config lines 0 (hd 0 cs2) acc)
      as [[acc1|e] c1]; [|reflexivity].
    specialize (IH (tl cs1) (tl cs2) acc1).
    destruct (ruleLoop rules (tl cs1) lines context config acc1).
    destruct (ruleLoop rules (tl cs2) lines context config acc1).
    exact IH.
Qed.

Lemma analyzeDSL_reset (code : string) (options : Options) (w : Window.t)
      (cs1 cs2 : Counters) :
  fst (analyzeDSL code options w cs1) = fst (analyzeDSL code options w cs2).
Proof.
  unfold analyzeDSL. cbv zeta.
  pose proof (ruleLoop_reset (Js.split NL code)
                (Context.Make (Js.split NL code)
                              (List.length (Js.split NL code)) false)
                (configOf options w) DSL_RULES all_rules_reset
                (split_nonempty NL code) cs1 cs2 []) as H.
  destruct (ruleLoop DSL_RULES cs1 _ _ _ _) as [[s1|e1] st1];
    destruct (ruleLoop DSL_RULES cs2 _ _ _ _) as [[s2|e2] st2];
    cbn in H; try discriminate; inversion H; reflexivity.
Qed.

End AnalysisLoops.

(** ** The rules and the fix pass *)

Section RuleClaims.

Import Engine.


(** Given a string, the wrap test does not throw. *)
Lemma isAlreadyWrapped_string_total (line expression : string)
      (ruleConfig : RuleConfig.t) :
  exists b,
    DivisionOperations._isAlreadyWrapped
      line (DSLRuleUtilsMore.AString expression) ruleConfig = Ok b.
Proof.
  unfold DivisionOperations._isAlreadyWrapped.
  destruct (List.length _ =? 0); [now exists false|].
  induction (match RuleConfig.skipIfWrappedIn ruleConfig with
             | Some l => l
             | None => []
             end) as [|f skip IH]; cbn; [now exists false|].
  destruct (Regex.test _ line); [now exists true | exact IH].
Qed.

(** Given the array returned by [exec], as [fix] passes it, the wrap test
    throws as soon as a protector name is configured. *)
Lemma isAlreadyWrapped_array_throws (line : string) (m : Regex.MatchResult)
      (ruleConfig : RuleConfig.t) (f : string) (skip : list string) :
  RuleConfig.skipIfWrappedIn ruleConfig = Some (f :: skip) ->
  DivisionOperations._isAlreadyWrapped
    line (DSLRuleUtilsMore.AMatchArray m) ruleConfig
  = Throw (TypeError "str.replace is not a function").
Proof.
  intros S. unfold DivisionOperations._isAlreadyWrapped. rewrite S.
  reflexivity.
Qed.

(** No suggestion returned by an analysis carries a [fixed] key. *)
Lemma analysis_never_sets_fixed (code : string) (options : Options)
      (w : Window.t) (counters : Counters) (r : AnalysisResult)
      (counters' : Counters) :
  analyzeDSL code options w counters = (Ok r, counters') ->
  Forall (fun s => Suggestion.fixed s = None) (suggestions r).
Proof.
  intros H. apply analyzeDSL_blocks in H. destruct H as (blocks & -> & F2).
  apply Forall_concat.
  induction F2 as [|rule block rules blocks B F2 IH]; constructor;
    [|exact IH].
  destruct B as (F & _). eapply Forall_impl; [|exact F].
  now intros s (_ & _ & lineText & _ & _ & _ & X).
Qed.

(** Hence the two fixes that read [suggestion.fixed] never change the
    code of a finding that came from an analysis. *)
Lemma fixed_reading_fixes_are_noops (w : Window.t) (code : string)
      (s : Suggestion.t) (config : Config.t) :
  Suggestion.fixed s = None ->
  (VariableNaming.fix_ w code s config = Ok code
   \/ exists e, VariableNaming.fix_ w code s config = Throw e)
  /\ (MathOperationsParens.fix_ w code s config = Ok code
      \/ exists e, MathOperationsParens.fix_ w code s config = Throw e).
Proof.
  intros F.
  unfold VariableNaming.fix_, MathOperationsParens.fix_, fixProlog.
  rewrite F. cbn [Js.truthyStr negb]. rewrite !orb_true_r.
  split.
  - destruct (Config.ruleEntry config VariableNaming.name) as [[rc|]|e];
      [destruct (negb _); now left | now left | right; now exists e].
  - destruct (Config.ruleEntry config MathOperationsParens.name) as [[rc|]|e];
      [destruct (negb _); now left | now left | right; now exists e].
Qed.

(** With a configuration that has a rule table but no entry for a rule,
    the rule's [check] returns no suggestion and its [fix] returns the
    code. *)
Lemma absent_entry_disables_rule :
  Forall (fun r =>
            forall config rules line lineNumber lines context c w code s,
              Config.suggestionRules config = Some rules ->
              Config.lookup (name r) rules = None ->
              check r line lineNumber lines context config c
              = (Ok [], resetAtLine1 lineNumber c)
              /\ fix_ r w code s config = Ok code)
         DSL_RULES.
Proof.
  unfold DSL_RULES.
  repeat (constructor;
          [intros config rules line lineNumber lines context c w code s S L;
           cbn [check fix_ name DivisionOperations.rule QueryFunctions.rule
                UniqueKey.rule VariableNaming.rule NonOptimalNodeAccess.rule
                NullAccessProtection.rule MathOperationsParens.rule
                ExtraneousBlocks.rule] in *;
           split;
           [unfold DivisionOperations.check, QueryFunctions.check,
              UniqueKey.check, VariableNaming.check,
              NonOptimalNodeAccess.check, NullAccessProtection.check,
              MathOperationsParens.check, ExtraneousBlocks.check,
              ruleProlog, Config.ruleEntry;
            rewrite S, L; now destruct (Context.isInComment context)
           |try reflexivity;
            unfold DivisionOperations.fix_, VariableNaming.fix_,
              NullAccessProtection.fix_, MathOperationsParens.fix_,
              fixProlog, Config.ruleEntry;
            now rewrite S, L]
          |]).
  constructor.
Qed.

Lemma fixLoop_identity (r : Rule) (w : Window.t) (defaults : option RuleConfig.t)
      (rules : list (string * RuleConfig.t)) (libraries : option (list string))
      (sugs : list Suggestion.t) (code : string) :
  FixIsIdentity r ->
  Forall (fun s => Suggestion.fixed s = None) sugs ->
  fixLoop r w (Config.Make defaults (Some rules) libraries) sugs code = Ok code.
Proof.
  intros HF. induction 1 as [|s sugs F FS IH]; [reflexivity|].
  cbn [fixLoop]. rewrite (HF w code s defaults rules libraries F).
  now rewrite String.eqb_refl.
Qed.

Lemma fix_is_identity_except_wrapping :
  Forall (fun r =>
            nameOf r = DivisionOperations.name
            \/ nameOf r = NullAccessProtection.name
            \/ FixIsIdentity r)
         DSL_RULES.
Proof.
  unfold DSL_RULES.
  constructor; [now left|].
  constructor; [right; right; intros w code s d rules l F; reflexivity|].
  constructor; [right; right; intros w code s d rules l F; reflexivity|].
  constructor.
  { right; right. intros w code s d rules l F.
    cbn [fix_ VariableNaming.rule].
    unfold VariableNaming.fix_, fixProlog, Config.ruleEntry.
    cbn [Config.suggestionRules]. rewrite F.
    destruct (Config.lookup VariableNaming.name rules); [|reflexivity].
    cbn [Js.truthyStr negb]. rewrite orb_true_r.
    now destruct (negb _). }
  constructor; [right; right; intros w code s d rules l F; reflexivity|].
  constructor; [right; now left|].
  constructor.
  { right; right. intros w code s d rules l F.
    cbn [fix_ MathOperationsParens.rule].
    unfold MathOperationsParens.fix_, fixProlog, Config.ruleEntry.
    cbn [Config.suggestionRules]. rewrite F.
    destruct (Config.lookup MathOperationsParens.name rules); [|reflexivity].
    cbn [Js.truthyStr negb]. rewrite orb_true_r.
    now destruct (negb _). }
  constructor; [right; right; intros w code s d rules l F; reflexivity|].
  constructor.
Qed.

(** The fix loop over rules of which only the two wrapping rules could
    change the code, and these do not take part: the code comes back as it
    went in, unless the analysis throws. *)
Lemma applyLoop_identity (w : Window.t) (config : Config.t)
      (formSelection code : string) (rules : list Rule) :
  autoFixActive config DivisionOperations.name = false ->
  autoFixActive config NullAccessProtection.name = false ->
  Forall (fun r =>
            nameOf r = DivisionOperations.name
            \/ nameOf r = NullAccessProtection.name
            \/ FixIsIdentity r) rules ->
  forall counters,
    fst (applyLoop rules w config formSelection code counters) = Ok code
    \/ exists e,
        fst (applyLoop rules w config formSelection code counters) = Throw e.
Proof.
  intros AD AN. induction 1 as [|r rules Hr HF IH]; intros counters.
  - now left.
  - cbn [applyLoop].
    destruct (ruleConfigWithDefaults config (name r)) as [rc|] eqn:RC;
      [|apply IH].
    destruct (Js.truthyBool (RuleConfig.enabled rc)) eqn:En; cbn [negb];
      [|apply IH].
    destruct (Js.truthyBool (RuleConfig.autoFixEnabled rc)) eqn:Af; cbn [negb];
      [|apply IH].
    assert (Active : autoFixActive config (name r) = true)
      by (unfold autoFixActive; now rewrite RC, En, Af).
    destruct Hr as [N|[N|HI]];
      [rewrite N in Active; congruence | rewrite N in Active; congruence|].
    destruct (analyzeDSL code None w counters) as [[res|e] counters'] eqn:A;
      [|right; now exists e].
    apply analysis_never_sets_fixed in A.
    rewrite (fixLoop_identity r w None _ None _ code HI).
    + apply IH.
    + rewrite Forall_forall in *. intros s I. apply filter_In in I.
      apply A. apply I.
Qed.

(** X22: whatever the code and the configuration, a fix pass in which neither
    the division rule nor the null-access rule takes part returns its
    input: no other rule ever rewrites anything. *)
Theorem only_wrapping_rules_rewrite (code : string) (w : Window.t)
        (counters : Counters) :
  let config :=
    match Window.dslSuggestionsConfigData w with
    | Some c => c
    | None => Config.empty
    end in
  autoFixActive config DivisionOperations.name = false ->
  autoFixActive config NullAccessProtection.name = false ->
  fst (applyCodeSuggestions code w counters) = code.
Proof.
  intros config AD AN. unfold applyCodeSuggestions.
  destruct (String.eqb code "" || String.eqb (Js.trim code) "");
    [reflexivity|].
  unfold applyBody. fold config.
  destruct (applyLoop_identity w config (getCurrentFormSelection w) code
              DSL_RULES AD AN fix_is_identity_except_wrapping counters)
    as [H|[e H]];
    destruct (applyLoop DSL_RULES w config (getCurrentFormSelection w) code
                        counters) as [[c|e'] cs]; cbn in H;
    try discriminate; try reflexivity.
  now inversion H.
Qed.

(** The division [fix] hands the array returned by [exec] to the wrap
    test: with a protector name configured it throws at the first
    occurrence of the expression, and the handler of the fix pass returns
    the document as it was; without protector names it wraps. *)
Lemma division_fix_aborts_the_pass :
  DivisionOperations.fix_ Samples.bareWindow "x = a / b"
    (Suggestion.Make 1 6 "" "warning" "divisionOperations" "" true None
                     (Some "a / b") 1 None)
    Samples.divisionConfig
  = Throw (TypeError "str.replace is not a function")
  /\ fst (applyCodeSuggestions "x = a / b"
            (Samples.windowWith Samples.divisionConfig) freshCounters)
     = "x = a / b"
  /\ fst (applyCodeSuggestions "x = a / b"
            (Samples.windowWith
               (Samples.onlyRule "divisionOperations"
                  (Samples.fixable (Some Samples.divisionTemplates) None)))
            freshCounters)
     = "x = ifNaN(a / b, DEF_VAL_DIV_BY_ZERO_1)".
Proof. repeat split; vm_compute; reflexivity. Qed.

End RuleClaims.

(** C1 (evaluated at the failing input): with the null-access rule enabled
    for auto-fix, the first pass over [x = obj.prop] wraps the access and
    the second pass, run on the output of the first, wraps it again, in
    the traditional and in the method form. *)
Theorem C1_second_pass_wraps_again :
  (let w := Samples.windowWith Samples.nullAccessConfig in
   let first := Engine.applyCodeSuggestions "x = obj.prop" w
                  Engine.freshCounters in
   let second := Engine.applyCodeSuggestions (fst first) w (snd first) in
   fst first = "x = ifNull(obj.prop, DEF_VAL_NULL_SAFETY_1)"
   /\ fst second
      = "x = ifNull(ifNull(obj.prop, DEF_VAL_NULL_SAFETY_1), DEF_VAL_NULL_SAFETY_1)")
  /\ (let w := Samples.methodWindow Samples.nullAccessConfig in
      let first := Engine.applyCodeSuggestions "x = obj.prop" w
                     Engine.freshCounters in
      let second := Engine.applyCodeSuggestions (fst first) w (snd first) in
      fst first = "x = (obj.prop).ifNull(DEF_VAL_NULL_SAFETY_1)"
      /\ fst second
         = "x = ((obj.prop).ifNull(DEF_VAL_NULL_SAFETY_1)).ifNull(DEF_VAL_NULL_SAFETY_1)").
Proof.
  split; split; vm_compute; reflexivity.
Qed.

(** The idempotence property as the specification states it does not
    hold. *)
Lemma apply_twice_is_not_apply_once :
  ~ (forall code w counters,
        let first := Engine.applyCodeSuggestions code w counters in
        fst (Engine.applyCodeSuggestions (fst first) w (snd first))
        = fst first).
Proof.
  intros H.
  specialize (H "x = obj.prop" (Samples.windowWith Samples.nullAccessConfig)
                Engine.freshCounters).
  vm_compute in H. discriminate H.
Qed.

(** C2 (evaluated at the failing input): with [protect] as the only
    protector name, the line [result = protect(total / count, 0)] yields
    no division finding, while the method-chain line
    [result = (total / count).protect(0)] yields one, for the expression
    [total / count]: the wrap test knows the call form only. *)
Theorem C2_method_chain_form_not_recognised :
  (exists res,
      fst (Engine.analyzeDSL "result = protect(total / count, 0)"
             (Some Samples.protectConfig) Samples.bareWindow
             Engine.freshCounters) = Ok res
      /\ Engine.suggestions res = [])
  /\ (exists res,
         fst (Engine.analyzeDSL "result = (total / count).protect(0)"
                (Some Samples.protectConfig) Samples.bareWindow
                Engine.freshCounters) = Ok res
         /\ map (fun s => (Suggestion.rule s, Suggestion.column s,
                           Suggestion.original s))
                (Engine.suggestions res)
            = [("divisionOperations", 16, Some "total / count")]).
Proof.
  split; eexists; split; vm_compute; reflexivity.
Qed.

(** C3 (evaluated at the failing input): for [var my_variable = 1;] the
    naming rule reports [my_variable] without a [fixed] key, so that its
    [fix], and the whole fix pass, return the document unchanged; given
    the key, the same [fix] renames every whole-word occurrence to the
    camelCase name the rule computes for its message. *)
Theorem C3_naming_fix_leaves_code_unchanged :
  let code := "var my_variable = 1;" in
  let w := Samples.windowWith Samples.namingConfig in
  (exists res,
      fst (Engine.analyzeDSL code None w Engine.freshCounters) = Ok res
      /\ Engine.suggestions res = [Samples.namingFinding])
  /\ VariableNaming.fix_ w code Samples.namingFinding Samples.namingConfig
     = Ok code
  /\ fst (Engine.applyCodeSuggestions code w Engine.freshCounters) = code
  /\ VariableNaming.camelCase "my_variable" = "myVariable"
  /\ VariableNaming.fix_ w (code ++ NL ++ "x = my_variable + my_variable2")
                         Samples.namingFindingWithFixed Samples.namingConfig
     = Ok ("var myVariable = 1;" ++ NL ++ "x = myVariable + my_variable2").
Proof.
  cbv zeta. split; [eexists; split; vm_compute; reflexivity|].
  repeat split; vm_compute; reflexivity.
Qed.

(** C4 (evaluated at the failing input): when the configuration is missing
    altogether, so that the engine falls back to the empty object, the
    [check] of every rule throws a [TypeError] on its read of
    [config.suggestionRules.<name>], and so does [analyzeDSL] for every
    code; the four fixes that read the rule entry throw as well. *)
Theorem C4_missing_config_makes_check_throw :
  Forall (fun r =>
            forall line lineNumber lines c,
              check r line lineNumber lines
                    (Context.Make lines (List.length lines) false)
                    Config.empty c
              = (Throw (TypeError "Cannot read properties of undefined"),
                 resetAtLine1 lineNumber c))
         DSL_RULES
  /\ (forall code counters,
         fst (Engine.analyzeDSL code None Samples.bareWindow counters)
         = Throw (TypeError "Cannot read properties of undefined"))
  /\ (forall w code s,
         DivisionOperations.fix_ w code s Config.empty
         = Throw (TypeError "Cannot read properties of undefined")
         /\ VariableNaming.fix_ w code s Config.empty
            = Throw (TypeError "Cannot read properties of undefined")
         /\ NullAccessProtection.fix_ w code s Config.empty
            = Throw (TypeError "Cannot read properties of undefined")
         /\ MathOperationsParens.fix_ w code s Config.empty
            = Throw (TypeError "Cannot read properties of undefined")).
Proof.
  split; [|split].
  - unfold DSL_RULES.
    repeat (constructor; [intros line lineNumber lines c; reflexivity|]).
    constructor.
  - intros code counters. unfold Engine.analyzeDSL. cbv zeta.
    destruct (Js.split NL code) as [|line rest] eqn:E;
      [now apply split_nonempty in E|].
    reflexivity.
  - intros w code s. repeat split; reflexivity.
Qed.

(** ** The analysis orchestrator and the fix pass as a whole *)

Section AnalysisClaims.

Import Engine.

Lemma filter_all {A : Type} (f : A -> bool) (l : list A) :
  Forall (fun x => f x = true) l -> filter f l = l.
Proof.
  induction 1 as [|x l E F IH]; cbn; [reflexivity|]. now rewrite E, IH.
Qed.

Lemma filter_none {A : Type} (f : A -> bool) (l : list A) :
  Forall (fun x => f x = false) l -> filter f l = [].
Proof.
  induction 1 as [|x l E F IH]; cbn; [reflexivity|]. now rewrite E, IH.
Qed.



End AnalysisClaims.



(** C7 (as stated, refuted): for the line [result = total / count] the
    division finding has column 15, the offset of the operator, while its
    [original] is [total / count], which starts at column 9; the text at
    column 15 is not [original]. *)
Lemma C7_original_not_at_column :
  ~ (forall code options w counters r counters',
        Engine.analyzeDSL code options w counters
        = (Ok r, counters') ->
        Forall (fun s => PointsIntoSource (Js.split NL code) s
                         /\ OriginalAtColumn (Js.split NL code) s)
               (Engine.suggestions r)).
Proof.
  intros H.
  destruct (Engine.analyzeDSL "result = total / count"
              (Some Samples.divisionConfig) Samples.bareWindow
              []) as [[r|e] counters'] eqn:E.
  - specialize (H _ _ _ _ _ _ E). vm_compute in E.
    inversion E; subst; clear E. cbn [Engine.suggestions] in H.
    inversion H as [|s l [_ O] _]; subst.
    specialize (O "total / count" "result = total / count" eq_refl eq_refl).
    vm_compute in O. discriminate O.
  - vm_compute in E. discriminate E.
Qed.

(** C8: the list returned by [analyzeDSL] is the concatenation, in the
    registration order of the rules, of one block per rule; every
    suggestion of a block carries that rule's name and the lines of a
    block are in ascending order. The list is not sorted by line: with a
    null access on line 1 and a division on line 2, the division finding
    (rule 1, line 2) precedes the null-access finding (rule 6, line 1). *)
Theorem C8_rule_major_then_line_major :
  (forall code options w counters r counters',
      Engine.analyzeDSL code options w counters
      = (Ok r, counters') ->
      exists blocks,
        Engine.suggestions r = List.concat blocks
        /\ Forall2 (fun rule block =>
                      Forall (fun s => Suggestion.rule s = name rule) block
                      /\ ascending (map Suggestion.line block))
                   DSL_RULES blocks)
  /\ (exists res,
         fst (Engine.analyzeDSL Samples.accessThenDivision
                (Some Samples.twoRules) Samples.bareWindow
                Engine.freshCounters) = Ok res
         /\ map (fun s => (Suggestion.rule s, Suggestion.line s))
                (Engine.suggestions res)
            = [("divisionOperations", 2); ("nullAccessProtection", 1)]).
Proof.
  split.
  - intros code options w counters r counters' H.
    apply analyzeDSL_blocks in H. destruct H as (blocks & E & F2).
    exists blocks. split; [exact E|].
    clear E. induction F2 as [|rule block rules blocks B F2 IH];
      constructor; [|exact IH].
    destruct B as (F & A & _). split; [|exact A].
    eapply Forall_impl; [|exact F]. now intros s (R & _).
  - eexists. split; vm_compute; reflexivity.
Qed.

Lemma C8_rule_major_witness :
  exists r counters' blocks,
    Engine.analyzeDSL Samples.accessThenDivision (Some Samples.twoRules)
                      Samples.bareWindow []
    = (Ok r, counters')
    /\ Engine.suggestions r = List.concat blocks
    /\ Forall2 (fun rule block =>
                  Forall (fun s => Suggestion.rule s = name rule) block
                  /\ ascending (map Suggestion.line block))
               DSL_RULES blocks.
Proof.
  destruct (Engine.analyzeDSL Samples.accessThenDivision
              (Some Samples.twoRules) Samples.bareWindow
              []) as [[r|e] counters'] eqn:E.
  - destruct (proj1 C8_rule_major_then_line_major _ _ _ _ _ _ E)
      as (blocks & H1 & H2).
    exists r, counters', blocks. split; [reflexivity|]. now split.
  - exfalso. vm_compute in E. discriminate E.
Defined.

(** C9: for a fixed code and configuration the outcome of [analyzeDSL]
    (the suggestions with their instance numbers and the summary, or the
    exception) does not depend on the counters the rule objects hold when
    it starts; in particular a second invocation, started from the rule
    objects as the first one left them, returns the same outcome. *)
Theorem C9_analyze_deterministic :
  forall code options w counters,
    let first := Engine.analyzeDSL code options w
                   counters in
    fst (Engine.analyzeDSL code options w (snd first)) = fst first
    /\ forall counters',
        fst (Engine.analyzeDSL code options w
               counters') = fst first.
Proof.
  intros code options w counters first. split.
  - apply analyzeDSL_reset.
  - intros counters'. apply analyzeDSL_reset.
Qed.

(** C10: [applyCodeSuggestions] returns its input when the input is empty
    or only white space, and when the analysis or a fix throws the handler
    returns the original input, not the partially fixed code. *)
Theorem C10_apply_returns_input_on_blank_or_error :
  forall code w counters,
    (Js.trim code = "" ->
     Engine.applyCodeSuggestions code w counters = (code, counters))
    /\ (forall e counters',
           Engine.applyBody code w counters = (Throw e, counters') ->
           fst (Engine.applyCodeSuggestions code w counters) = code).
Proof.
  intros code w counters. split.
  - intros T. unfold Engine.applyCodeSuggestions. rewrite T.
    cbn. now rewrite orb_true_r.
  - intros e counters' H. unfold Engine.applyCodeSuggestions.
    destruct (String.eqb code "" || String.eqb (Js.trim code) "");
      [reflexivity|].
    now rewrite H.
Qed.

Lemma C10_apply_returns_input_witness :
  Engine.applyCodeSuggestions "   " Samples.bareWindow Engine.freshCounters
  = ("   ", Engine.freshCounters)
  /\ fst (Engine.applyCodeSuggestions "x = a / b"
            (Samples.windowWith Samples.divisionConfig) Engine.freshCounters)
     = "x = a / b".
Proof.
  split.
  - apply (proj1 (C10_apply_returns_input_on_blank_or_error
                    "   " Samples.bareWindow Engine.freshCounters)).
    reflexivity.
  - apply (proj2 (C10_apply_returns_input_on_blank_or_error
                    "x = a / b" (Samples.windowWith Samples.divisionConfig)
                    Engine.freshCounters)
                 (TypeError "str.replace is not a function")
                 (snd (Engine.applyBody "x = a / b"
                         (Samples.windowWith Samples.divisionConfig)
                         Engine.freshCounters))).
    vm_compute. reflexivity.
Defined.

(** ** Strings: prefixes, occurrences, split and join *)

Section StringFacts.

Lemma append_nil_r (s : string) : s ++ "" = s.
Proof. induction s as [|c s IH]; cbn; [reflexivity | now rewrite IH]. Qed.

Lemma append_assoc (a b c : string) : (a ++ b) ++ c = a ++ b ++ c.
Proof. induction a as [|x a IH]; cbn; [reflexivity | now rewrite IH]. Qed.

Lemma append_length (a b : string) :
  String.length (a ++ b) = String.length a + String.length b.
Proof. induction a as [|x a IH]; cbn; [reflexivity | now rewrite IH]. Qed.

Lemma taken_dropn (s : string) :
  forall n, Js.taken n s ++ Js.dropn n s = s.
Proof.
  induction s as [|c s IH]; intros [|n]; cbn; try reflexivity.
  now rewrite IH.
Qed.

Lemma taken_length (s : string) :
  forall n, String.length (Js.taken n s) = Nat.min n (String.length s).
Proof.
  induction s as [|c s IH]; intros [|n]; cbn; try reflexivity.
  now rewrite IH.
Qed.

Lemma taken_all (s : string) :
  forall n, String.length s <= n -> Js.taken n s = s.
Proof.
  induction s as [|c s IH]; intros [|n] L; cbn in *; try reflexivity; try lia.
  rewrite IH by lia. reflexivity.
Qed.

Lemma dropn_all (s : string) :
  forall n, String.length s <= n -> Js.dropn n s = "".
Proof.
  induction s as [|c s IH]; intros [|n] L; cbn in *; try reflexivity; try lia.
  apply IH. lia.
Qed.

Lemma dropn_app (a b : string) : Js.dropn (String.length a) (a ++ b) = b.
Proof. induction a as [|x a IH]; cbn; [reflexivity | exact IH]. Qed.

Lemma taken_app (a b : string) : Js.taken (String.length a) (a ++ b) = a.
Proof. induction a as [|x a IH]; cbn; [reflexivity | now rewrite IH]. Qed.

Lemma startsWith_self_app (p t : string) : Js.startsWith p (p ++ t) = true.
Proof.
  induction p as [|a p IH]; cbn; [reflexivity|].
  now rewrite Ascii.eqb_refl, IH.
Qed.

(** A string that starts with [p] is [p] followed by the rest. *)
Lemma startsWith_split (p s : string) :
  Js.startsWith p s = true -> s = p ++ Js.dropn (String.length p) s.
Proof.
  revert s. induction p as [|a p IH]; intros [|b s]; cbn; try reflexivity;
    try discriminate.
  intros H. apply andb_prop in H. destruct H as [E H].
  apply Ascii.eqb_eq in E. subst b. f_equal. now apply IH.
Qed.

(** [indexOf] returns the first occurrence. *)
Lemma indexOfFrom_first (p s : string) :
  forall i k,
    Js.indexOfFrom i p s = Some k ->
    i <= k /\ occursAt p s (k - i)
    /\ forall j, j < k - i -> ~ occursAt p s j.
Proof.
  unfold occursAt.
  induction s as [|c s IH]; intros i k H; cbn [Js.indexOfFrom] in H.
  - destruct (Js.startsWith p "") eqn:E; [|discriminate].
    injection H as <-. rewrite Nat.sub_diag. repeat split; [lia|exact E|].
    intros j L. lia.
  - destruct (Js.startsWith p (String c s)) eqn:E.
    + injection H as <-. rewrite Nat.sub_diag. repeat split; [lia|exact E|].
      intros j L. lia.
    + apply IH in H. destruct H as (L & O & F).
      replace (k - i) with (S (k - S i)) by lia.
      repeat split; [lia|exact O|].
      intros [|j] Lj; cbn [Js.dropn]; [congruence|].
      apply F. lia.
Qed.

Lemma indexOfFrom_none (p s : string) :
  forall i, Js.indexOfFrom i p s = None -> forall j, ~ occursAt p s j.
Proof.
  unfold occursAt.
  induction s as [|c s IH]; intros i H j; cbn [Js.indexOfFrom] in H.
  - destruct (Js.startsWith p "") eqn:E; [discriminate|].
    destruct j; cbn; congruence.
  - destruct (Js.startsWith p (String c s)) eqn:E; [discriminate|].
    destruct j as [|j]; cbn [Js.dropn]; [congruence|].
    eapply IH. exact H.
Qed.

Lemma indexOfFrom_some (p s : string) :
  forall i j, occursAt p s j -> Js.indexOfFrom i p s <> None.
Proof.
  unfold occursAt.
  induction s as [|c s IH]; intros i j H; cbn [Js.indexOfFrom].
  - destruct j; cbn in H; rewrite H; discriminate.
  - destruct (Js.startsWith p (String c s)) eqn:E; [discriminate|].
    destruct j as [|j]; cbn [Js.dropn] in H; [congruence|].
    eapply IH. exact H.
Qed.

Lemma includes_false_iff (p s : string) :
  Js.includes p s = false <-> forall j, ~ occursAt p s j.
Proof.
  unfold Js.includes, Js.indexOf. split.
  - destruct (Js.indexOfFrom 0 p s) eqn:E; [discriminate|].
    intros _. eapply indexOfFrom_none. exact E.
  - intros H. destruct (Js.indexOfFrom 0 p s) eqn:E; [|reflexivity].
    apply indexOfFrom_first in E. destruct E as (_ & O & _).
    now apply H in O.
Qed.

Lemma includes_true_iff (p s : string) :
  Js.includes p s = true <-> exists j, occursAt p s j.
Proof.
  split; [apply includes_occurs|].
  intros (j & O). unfold Js.includes, Js.indexOf.
  destruct (Js.indexOfFrom 0 p s) eqn:E; [reflexivity|].
  eapply indexOfFrom_none in E. now apply E in O.
Qed.

(** An occurrence inside a prefix is an occurrence in the string, and it
    ends inside the prefix. *)
Lemma occursAt_taken (p s : string) (i j : nat) :
  p <> "" ->
  occursAt p (Js.taken i s) j ->
  occursAt p s j /\ j + String.length p <= i.
Proof.
  intros NE O. split.
  - rewrite <- (taken_dropn s i). now apply occursAt_app.
  - unfold occursAt in O. apply startsWith_length in O.
    rewrite dropn_length, taken_length in O.
    assert (0 < String.length p) by (destruct p; [congruence|cbn; lia]).
    lia.
Qed.

(** The text before the first occurrence holds no occurrence. *)
Lemma indexOf_taken (p s : string) (i : nat) :
  p <> "" ->
  Js.indexOf p s = Some i ->
  Js.includes p (Js.taken i s) = false.
Proof.
  intros NE H. apply includes_false_iff. intros j O.
  apply occursAt_taken in O; [|assumption]. destruct O as [O L].
  unfold Js.indexOf in H. apply indexOfFrom_first in H.
  destruct H as (_ & _ & F).
  assert (0 < String.length p) by (destruct p; [congruence|cbn; lia]).
  apply (F j); [lia|exact O].
Qed.

Lemma concat_cons (sep x : string) (l : list string) :
  l <> [] -> String.concat sep (x :: l) = x ++ sep ++ String.concat sep l.
Proof. destruct l; [congruence | reflexivity]. Qed.

(** Joining the pieces of a split with the separator gives the string
    back. *)
Lemma join_splitStr (sep : string) :
  forall fuel s, Js.join sep (Js.splitStr sep fuel s) = s.
Proof.
  unfold Js.join.
  induction fuel as [|fuel IH]; intros s; cbn [Js.splitStr]; [reflexivity|].
  destruct (Js.indexOf sep s) as [i|] eqn:E; [|reflexivity].
  rewrite concat_cons by apply splitStr_nonempty.
  rewrite IH. unfold Js.indexOf in E. apply indexOfFrom_first in E.
  destruct E as (_ & O & _). rewrite Nat.sub_0_r in O.
  unfold occursAt in O. apply startsWith_split in O.
  rewrite dropn_dropn in O. rewrite <- O. apply taken_dropn.
Qed.

Lemma join_split (sep s : string) : Js.join sep (Js.split sep s) = s.
Proof. apply join_splitStr. Qed.

(** Without an occurrence of the separator, [split] returns the string as
    its only piece. *)
Lemma split_absent (sep s : string) :
  Js.includes sep s = false -> Js.split sep s = [s].
Proof.
  unfold Js.includes, Js.split. intros H.
  destruct (String.length s); cbn [Js.splitStr]; [reflexivity|].
  destruct (Js.indexOf sep s); [discriminate | reflexivity].
Qed.

End StringFacts.

(** ** The analysis as a whole: summary, counters, enabled rules *)

Section AnalysisFacts.

Import Engine.

(** Reading a key after one more suggestion was counted. *)
Lemma entryOf_increment (key k : string)
      (counts : list (string * CountValue)) :
  entryOf k (increment key counts)
  = if String.eqb key k then
      match entryOf k counts with
      | Some v => Some (plusOne v)
      | None =>
          if String.eqb k "__proto__" then None
          else if Js.isProtoKey k then Some Textual
          else Some (Count 1)
      end
    else entryOf k counts.
Proof.
  induction counts as [|[a v] r IH]; cbn [increment entryOf].
  - destruct (String.eqb key k) eqn:E.
    + apply String.eqb_eq in E. subst key.
      destruct (String.eqb k "__proto__"); [reflexivity|].
      destruct (Js.isProtoKey k); cbn [entryOf]; now rewrite String.eqb_refl.
    + destruct (String.eqb key "__proto__"); [reflexivity|].
      destruct (Js.isProtoKey key); cbn [entryOf]; now rewrite E.
  - destruct (String.eqb a key) eqn:E; cbn [entryOf].
    + apply String.eqb_eq in E. subst a.
      destruct (String.eqb key k); reflexivity.
    + destruct (String.eqb a k) eqn:E'; [|exact IH].
      apply String.eqb_eq in E'. subst a. now rewrite String.eqb_sym, E.
Qed.

Lemma expectedEntry_next (k : string) (n : nat) :
  match expectedEntry k n with
  | Some v => Some (plusOne v)
  | None =>
      if String.eqb k "__proto__" then None
      else if Js.isProtoKey k then Some Textual
      else Some (Count 1)
  end
  = expectedEntry k (n + 1).
Proof.
  unfold expectedEntry. rewrite Nat.add_1_r. cbn [Nat.eqb].
  destruct n as [|n]; cbn [Nat.eqb]; [reflexivity|].
  destruct (String.eqb k "__proto__"); [reflexivity|].
  destruct (Js.isProtoKey k); [reflexivity|].
  cbn [plusOne]. now rewrite Nat.add_1_r.
Qed.

(** A summary object built by the grouping loop holds a string exactly
    under inherited keys. *)
Lemma increment_wf (key : string) (counts : list (string * CountValue)) :
  Forall WellKeyed counts -> Forall WellKeyed (increment key counts).
Proof.
  induction 1 as [|[a v] r W F IH]; cbn [increment].
  - destruct (String.eqb key "__proto__"); [constructor|].
    destruct (Js.isProtoKey key) eqn:P; constructor; try constructor;
      unfold WellKeyed; cbn [fst snd]; exact P.
  - destruct (String.eqb a key); constructor; try assumption.
    unfold WellKeyed in *. cbn [fst snd] in *.
    destruct v; exact W.
Qed.

Lemma sumCounts_increment (key : string)
      (counts : list (string * CountValue)) :
  Forall WellKeyed counts ->
  sumCounts (increment key counts)
  = sumCounts counts + (if Js.isProtoKey key then 0 else 1).
Proof.
  induction 1 as [|[a v] r W F IH]; cbn [increment sumCounts].
  - destruct (String.eqb key "__proto__") eqn:E.
    + apply String.eqb_eq in E. subst key. reflexivity.
    + destruct (Js.isProtoKey key); reflexivity.
  - destruct (String.eqb a key) eqn:E; cbn [sumCounts].
    + apply String.eqb_eq in E. subst a. unfold WellKeyed in W.
      cbn [fst snd] in W. rewrite W.
      destruct v; cbn [plusOne]; lia.
    + destruct v; rewrite IH; lia.
Qed.

(** The grouping loop, started from any summary. *)
Lemma summarize_loop (l : list Suggestion.t) :
  forall s0 (sev typ : string -> nat),
    Forall WellKeyed (bySeverity s0) ->
    Forall WellKeyed (byType s0) ->
    (forall k, entryOf k (bySeverity s0) = expectedEntry k (sev k)) ->
    (forall k, entryOf k (byType s0) = expectedEntry k (typ k)) ->
    let s :=
      fold_left
        (fun s suggestion =>
           MkSummary (total s)
                     (increment (typeOf (Suggestion.message suggestion)) (byType s))
                     (increment (Suggestion.severity suggestion) (bySeverity s)))
        l s0 in
    total s = total s0
    /\ (forall k, entryOf k (bySeverity s)
                  = expectedEntry
                      k (sev k
                         + countIf (fun x => String.eqb (Suggestion.severity x) k) l))
    /\ (forall k, entryOf k (byType s)
                  = expectedEntry
                      k (typ k
                         + countIf (fun x => String.eqb (typeOf (Suggestion.message x)) k) l))
    /\ sumCounts (bySeverity s)
       = sumCounts (bySeverity s0)
         + countIf (fun x => negb (Js.isProtoKey (Suggestion.severity x))) l
    /\ sumCounts (byType s)
       = sumCounts (byType s0)
         + countIf (fun x => negb (Js.isProtoKey
                                     (typeOf (Suggestion.message x)))) l.
Proof.
  unfold countIf.
  induction l as [|x l IH]; intros s0 sev typ W1 W2 E1 E2; cbn [fold_left].
  - cbn [filter List.length]. repeat split; intros; rewrite ?Nat.add_0_r;
      auto.
  - cbv zeta in IH.
    destruct (IH (MkSummary (total s0)
                    (increment (typeOf (Suggestion.message x)) (byType s0))
                    (increment (Suggestion.severity x) (bySeverity s0)))
                 (fun k => sev k
                           + (if String.eqb (Suggestion.severity x) k
                              then 1 else 0))
                 (fun k => typ k
                           + (if String.eqb (typeOf (Suggestion.message x)) k
                              then 1 else 0)))
      as (T & S1 & S2 & S3 & S4); cbn [total byType bySeverity].
    + now apply increment_wf.
    + now apply increment_wf.
    + intros k. rewrite entryOf_increment, E1.
      destruct (String.eqb (Suggestion.severity x) k);
        [apply expectedEntry_next | now rewrite Nat.add_0_r].
    + intros k. rewrite entryOf_increment, E2.
      destruct (String.eqb (typeOf (Suggestion.message x)) k);
        [apply expectedEntry_next | now rewrite Nat.add_0_r].
    + cbn [total byType bySeverity] in *.
      split; [exact T|]. split; [|split; [|split]].
      * intros k. rewrite S1. f_equal. cbn [filter].
        destruct (String.eqb (Suggestion.severity x) k); cbn [List.length];
          lia.
      * intros k. rewrite S2. f_equal. cbn [filter].
        destruct (String.eqb (typeOf (Suggestion.message x)) k);
          cbn [List.length]; lia.
      * rewrite S3, sumCounts_increment by assumption. cbn [filter].
        destruct (Js.isProtoKey (Suggestion.severity x));
          cbn [negb List.length]; lia.
      * rewrite S4, sumCounts_increment by assumption. cbn [filter].
        destruct (Js.isProtoKey (typeOf (Suggestion.message x)));
          cbn [negb List.length]; lia.
Qed.

Lemma analyzeDSL_summary (code : string) (options : Options) (w : Window.t)
      (counters : Counters) (r : AnalysisResult) (counters' : Counters) :
  analyzeDSL code options w counters = (Ok r, counters') ->
  summary r = summarize (suggestions r).
Proof.
  unfold analyzeDSL. cbv zeta.
  destruct (ruleLoop _ _ _ _ _ _) as [[sugs|e] st]; [|discriminate].
  intros H. inversion H. reflexivity.
Qed.

(** One rule over a whole document: its block and the counter it leaves. *)
Lemma lineLoop_counter (r : Rule) (lines : list string) (context : Context.t)
      (config : Config.t) (c : nat) (acc res : list Suggestion.t) (c' : nat) :
  CheckSpec r ->
  lines <> [] ->
  lineLoop r lines context config lines 0 c acc = (Ok res, c') ->
  exists block,
    res = (acc ++ block)%list /\ BlockOf lines r block
    /\ c' = List.length block.
Proof.
  intros HS NE H. pose proof H as H0.
  apply lineLoop_full in H0; [|assumption|assumption].
  destruct H0 as (block & -> & B).
  exists block. split; [reflexivity|]. split; [assumption|].
  destruct lines as [|line rest] eqn:EL; [congruence|].
  rewrite <- EL in *. rewrite EL in H at 2.
  apply lineLoop_cons in H. destruct H as (ls & c1 & Hc & H).
  assert (N : nth_error lines 0 = Some line) by (now rewrite EL).
  apply (HS _ _ _ _ _ _ _ _ N) in Hc. destruct Hc as (F & Num & C1).
  change (resetAtLine1 (0 + 1) c) with 0 in *.
  eapply lineLoop_spec in H; [|exact HS|lia|now rewrite EL].
  destruct H as (block' & E & _ & _ & _ & ->).
  rewrite <- app_assoc in E. apply app_inv_head in E. subst block.
  rewrite length_app. lia.
Qed.

Lemma ruleLoop_counters (lines : list string) (context : Context.t)
      (config : Config.t) :
  lines <> [] ->
  forall rules counters acc res counters',
    Forall CheckSpec rules ->
    ruleLoop rules counters lines context config acc = (Ok res, counters') ->
    exists blocks,
      res = (acc ++ List.concat blocks)%list
      /\ Forall2 (BlockOf lines) rules blocks
      /\ counters' = map (@List.length _) blocks.
Proof.
  intros NE. induction rules as [|r more IH];
    intros counters acc res counters' HS H.
  - cbn in H. inversion H; subst. exists []. cbn. rewrite app_nil_r.
    split; [reflexivity | split; [constructor | reflexivity]].
  - cbn [ruleLoop] in H. inversion HS as [|? ? HS1 HS2]; subst.
    destruct (lineLoop r lines context config lines 0 (hd 0 counters) acc)
      as [[acc1|e] c1] eqn:E; [|discriminate].
    destruct (ruleLoop more (tl counters) lines context config acc1)
      as [r1 more'] eqn:E1.
    inversion H; subst; clear H.
    apply lineLoop_counter in E; [|assumption|assumption].
    destruct E as (block & -> & B & ->).
    apply IH in E1; [|assumption].
    destruct E1 as (blocks & -> & F2 & ->).
    exists (block :: blocks). cbn [List.concat map]. rewrite app_assoc.
    split; [reflexivity|]. split; [constructor; assumption | reflexivity].
Qed.

(** The findings of a rule inside a block of another or of the same rule. *)
Lemma findingsOf_block (lines : list string) (r r' : Rule)
      (block : list Suggestion.t) :
  BlockOf lines r' block ->
  findingsOf r block = if String.eqb (nameOf r') (nameOf r) then block else [].
Proof.
  intros (F & _). unfold findingsOf.
  destruct (String.eqb (nameOf r') (nameOf r)) eqn:E.
  - apply filter_all. eapply Forall_impl; [|exact F].
    intros s (R & _). cbn. now rewrite R.
  - apply filter_none. eapply Forall_impl; [|exact F].
    intros s (R & _). cbn. now rewrite R.
Qed.

Lemma findingsOf_app (r : Rule) (a b : list Suggestion.t) :
  findingsOf r (a ++ b) = (findingsOf r a ++ findingsOf r b)%list.
Proof. apply filter_app. Qed.

(** With the eight rules, the findings of each rule are its block. *)
Lemma findingsOf_blocks (lines : list string)
      (blocks : list (list Suggestion.t)) :
  Forall2 (BlockOf lines) DSL_RULES blocks ->
  Forall2 (fun r b => findingsOf r (List.concat blocks) = b) DSL_RULES blocks.
Proof.
  unfold DSL_RULES. intros F2.
  repeat match goal with
         | H : Forall2 _ (_ :: _) _ |- _ =>
             inversion H as [|? ? ? ? ? ? ]; subst; clear H
         | H : Forall2 _ [] _ |- _ => inversion H; subst; clear H
         end.
  cbn [List.concat].
  repeat (constructor;
          [rewrite !findingsOf_app;
           repeat match goal with
                  | B : BlockOf lines ?r' ?b |- context [findingsOf ?r ?b] =>
                      rewrite (findingsOf_block lines r r' b B)
                  end;
           cbn; rewrite ?app_nil_r; reflexivity|]).
  constructor.
Qed.

(** Lifting a property of the suggestions of every [check] to the result
    of the line loop, of the rule loop and of the analysis. *)
Lemma lineLoop_forall (P : Suggestion.t -> Prop) (r : Rule)
      (lines : list string) (context : Context.t) (config : Config.t) :
  (forall i line c sugs c',
      nth_error lines i = Some line ->
      check r line (i + 1) lines context config c = (Ok sugs, c') ->
      Forall P sugs) ->
  forall remaining lineNum c acc res c',
    skipn lineNum lines = remaining ->
    lineLoop r lines context config remaining lineNum c acc = (Ok res, c') ->
    Forall P acc -> Forall P res.
Proof.
  intros HC. induction remaining as [|line rest IH];
    intros lineNum c acc res c' Sk H A.
  - cbn in H. inversion H; subst. exact A.
  - apply lineLoop_cons in H. destruct H as (ls & c1 & Hc & H).
    apply skipn_cons in Sk. destruct Sk as (N & Sk & _).
    apply (HC _ _ _ _ _ N) in Hc.
    eapply IH; [exact Sk | exact H |].
    apply Forall_app. now split.
Qed.

Lemma ruleLoop_forall (P : Suggestion.t -> Prop) (lines : list string)
      (context : Context.t) (config : Config.t) :
  forall rules counters acc res counters',
    Forall (CheckGives P lines context config) rules ->
    ruleLoop rules counters lines context config acc = (Ok res, counters') ->
    Forall P acc -> Forall P res.
Proof.
  induction rules as [|r more IH]; intros counters acc res counters' HC H A.
  - cbn in H. inversion H; subst. exact A.
  - cbn [ruleLoop] in H. inversion HC as [|? ? HC1 HC2]; subst.
    destruct (lineLoop r lines context config lines 0 (hd 0 counters) acc)
      as [[acc1|e] c1] eqn:E; [|discriminate].
    destruct (ruleLoop more (tl counters) lines context config acc1)
      as [r1 more'] eqn:E1.
    inversion H; subst; clear H.
    eapply IH; [exact HC2 | exact E1 |].
    eapply lineLoop_forall; [exact HC1 | reflexivity | exact E | exact A].
Qed.

Lemma analyzeDSL_forall (P : Suggestion.t -> Prop) (code : string)
      (options : Options) (w : Window.t) (counters : Counters)
      (r : AnalysisResult) (counters' : Counters) :
  Forall (CheckGives P (Js.split NL code)
                     (Context.Make (Js.split NL code)
                                   (List.length (Js.split NL code)) false)
                     (configOf options w))
         DSL_RULES ->
  analyzeDSL code options w counters = (Ok r, counters') ->
  Forall P (suggestions r).
Proof.
  unfold analyzeDSL. cbv zeta. intros HC.
  destruct (ruleLoop _ _ _ _ _ _) as [[sugs|e] st] eqn:E; [|discriminate].
  intros H. inversion H; subst; clear H. cbn [suggestions].
  eapply ruleLoop_forall; [exact HC | exact E | constructor].
Qed.

(** A [check] that returns findings has read an enabled entry. *)
Lemma ruleProlog_enabled (ruleName : string) (lineNumber : nat)
      (context : Context.t) (config : Config.t) (counter0 : nat)
      (body : RuleConfig.t -> nat -> Exc (list Suggestion.t) * nat)
      (sugs : list Suggestion.t) (c' : nat) :
  ruleProlog ruleName lineNumber context config counter0 body = (Ok sugs, c') ->
  sugs = [] \/ enabledIn config ruleName = true.
Proof.
  unfold ruleProlog, enabledIn, Config.ruleEntry. cbv zeta.
  destruct (Context.isInComment context).
  { intros H; inversion H. now left. }
  destruct (Config.suggestionRules config) as [rules|]; [|discriminate].
  destruct (Config.lookup ruleName rules) as [rc|].
  - destruct (Js.truthyBool (RuleConfig.enabled rc)); cbn [negb].
    + intros _. now right.
    + intros H; inversion H. now left.
  - intros H; inversion H. now left.
Qed.

Lemma all_rules_enabled (lines : list string) (context : Context.t)
      (config : Config.t) :
  Forall (CheckGives (fun s => enabledIn config (Suggestion.rule s) = true)
                     lines context config)
         DSL_RULES.
Proof.
  pose proof all_rules_spec as HS. unfold DSL_RULES in *.
  repeat match goal with
         | H : Forall CheckSpec (_ :: _) |- _ =>
             inversion H as [|? ? ? ?]; subst; clear H
         end.
  repeat (constructor;
          [intros i line c sugs c' Nth Hchk;
           match goal with
           | S : CheckSpec ?r, Hc : check ?r _ _ _ _ _ _ = _ |- _ =>
               pose proof (S _ _ _ _ _ _ _ _ Nth Hc) as (Fp & _)
           end;
           unfold_check Hchk;
           apply ruleProlog_enabled in Hchk;
           destruct Hchk as [-> | En]; [constructor|];
           eapply Forall_impl; [|exact Fp];
           intros s (_ & R & _); rewrite R; exact En|]).
  constructor.
Qed.

(** A rule whose entry is missing or not enabled, in a configuration that
    has a rule table, reports nothing and does not throw. *)
Lemma ruleProlog_disabled (ruleName : string) (lineNumber : nat)
      (context : Context.t) (config : Config.t) (counter0 : nat)
      (body : RuleConfig.t -> nat -> Exc (list Suggestion.t) * nat) :
  Config.suggestionRules config <> None ->
  enabledIn config ruleName = false ->
  ruleProlog ruleName lineNumber context config counter0 body
  = (Ok [], resetAtLine1 lineNumber counter0).
Proof.
  unfold ruleProlog, enabledIn, Config.ruleEntry. cbv zeta. intros T.
  destruct (Context.isInComment context); [reflexivity|].
  destruct (Config.suggestionRules config) as [rules|]; [|congruence].
  destruct (Config.lookup ruleName rules) as [rc|]; [|reflexivity].
  intros ->. reflexivity.
Qed.

Lemma all_rules_silent (lines : list string) (context : Context.t)
      (config : Config.t) :
  Config.suggestionRules config <> None ->
  Forall (fun r => enabledIn config (nameOf r) = false) DSL_RULES ->
  Forall (Silent lines context config) DSL_RULES.
Proof.
  intros T HD. unfold DSL_RULES in *.
  repeat match goal with
         | H : Forall _ (_ :: _) |- _ =>
             inversion H as [|? ? ? ?]; subst; clear H
         end.
  repeat (constructor;
          [intros line n c; unfold_check_goal;
           apply ruleProlog_disabled; assumption|]).
  constructor.
Qed.

Lemma lineLoop_silent (r : Rule) (lines : list string) (context : Context.t)
      (config : Config.t) :
  Silent lines context config r ->
  forall remaining lineNum c acc,
    exists c',
      lineLoop r lines context config remaining lineNum c acc = (Ok acc, c').
Proof.
  intros HS. induction remaining as [|line rest IH]; intros lineNum c acc.
  - now exists c.
  - cbn [lineLoop]. rewrite HS. cbn [List.length Nat.ltb Nat.leb]. apply IH.
Qed.

Lemma ruleLoop_silent (lines : list string) (context : Context.t)
      (config : Config.t) :
  forall rules counters acc,
    Forall (Silent lines context config) rules ->
    exists counters',
      ruleLoop rules counters lines context config acc = (Ok acc, counters').
Proof.
  induction rules as [|r more IH]; intros counters acc HS.
  - now exists [].
  - inversion HS as [|? ? HS1 HS2]; subst. cbn [ruleLoop].
    destruct (lineLoop_silent r lines context config HS1 lines 0
                              (hd 0 counters) acc) as [c' ->].
    destruct (IH (tl counters) acc HS2) as [cs' ->].
    now exists (c' :: cs').
Qed.

Lemma analyzeDSL_silent (code : string) (options : Options) (w : Window.t)
      (counters : Counters) :
  Config.suggestionRules (configOf options w) <> None ->
  Forall (fun r => enabledIn (configOf options w) (nameOf r) = false)
         DSL_RULES ->
  exists counters',
    analyzeDSL code options w counters
    = (Ok (MkResult [] (MkSummary 0 [] [])), counters').
Proof.
  intros T HD. unfold analyzeDSL. cbv zeta.
  destruct (ruleLoop_silent (Js.split NL code)
              (Context.Make (Js.split NL code)
                            (List.length (Js.split NL code)) false)
              (configOf options w) DSL_RULES counters []
              (all_rules_silent _ _ _ T HD)) as [cs' ->].
  now exists cs'.
Qed.

(** Without a rule table the first [check] throws on the first line. *)
Lemma analyzeDSL_no_table (code : string) (options : Options) (w : Window.t)
      (counters : Counters) :
  Config.suggestionRules (configOf options w) = None ->
  fst (analyzeDSL code options w counters)
  = Throw (TypeError "Cannot read properties of undefined").
Proof.
  intros T. unfold analyzeDSL. cbv zeta.
  destruct (Js.split NL code) as [|line rest] eqn:E.
  { now apply split_nonempty in E. }
  unfold DSL_RULES. cbn [ruleLoop lineLoop].
  cbn [check DivisionOperations.rule]. unfold DivisionOperations.check.
  unfold ruleProlog. cbv zeta. cbn [Context.isInComment].
  unfold Config.ruleEntry. rewrite T. reflexivity.
Qed.

End AnalysisFacts.

(** ** What the analysis reads of the configuration *)

Section ConfigReads.

Import Engine.




End ConfigReads.

(** ** The scanners of dslRuleUtilities.js *)

Section ScannerFacts.

Import DSLRuleUtils DSLRuleUtilsRest.

Lemma isDelimiter_space (prev : option ascii) :
  isDelimiter prev Js.space = false.
Proof. reflexivity. Qed.

Lemma isDelimiter_quote (prev : option ascii) (c : ascii) :
  isDelimiter prev c = true -> Ascii.eqb c Js.backslash = false.
Proof.
  unfold isDelimiter. intros H. apply andb_prop in H. destruct H as [H _].
  apply orb_prop in H. destruct H as [H|H]; apply Ascii.eqb_eq in H; subst c;
    reflexivity.
Qed.

Lemma isDelimiter_prev (p p' : option ascii) (c : ascii) :
  Js.opt_ascii_eqb p Js.backslash = Js.opt_ascii_eqb p' Js.backslash ->
  isDelimiter p c = isDelimiter p' c.
Proof. unfold isDelimiter. now intros ->. Qed.

(** Masking a masked remainder again changes nothing: outside a literal the
    two scans see the same escapes, inside they see spaces. *)
Lemma removeLoop_masked (line : string) :
  forall inString stringChar prev prev',
    (inString = false ->
     Js.opt_ascii_eqb prev Js.backslash = Js.opt_ascii_eqb prev' Js.backslash) ->
    removeLoop false None prev' (removeLoop inString stringChar prev line)
    = removeLoop inString stringChar prev line.
Proof.
  induction line as [|c rest IH]; intros inS sc prev prev' R;
    cbn [removeLoop]; [reflexivity|].
  destruct (isDelimiter prev c) eqn:D.
  - pose proof (isDelimiter_quote _ _ D) as Q.
    destruct (negb inS);
      [|destruct (Js.opt_ascii_eqb sc c)];
      cbn [removeLoop]; rewrite isDelimiter_space; cbn [negb];
      f_equal; apply IH; intros _; cbn [Js.opt_ascii_eqb]; rewrite Q;
      reflexivity.
  - destruct inS.
    + cbn [removeLoop]. rewrite isDelimiter_space. f_equal.
      apply IH. intros E. discriminate E.
    + cbn [removeLoop].
      rewrite <- (isDelimiter_prev prev prev' c (R eq_refl)), D.
      f_equal. apply IH. reflexivity.
Qed.

(** A masked remainder holds no literal: the scanner of [isInsideString]
    never leaves the outside state on it. *)
Lemma insideLoop_masked (line : string) :
  forall inString stringChar prev prev' position,
    (inString = false ->
     Js.opt_ascii_eqb prev Js.backslash = Js.opt_ascii_eqb prev' Js.backslash) ->
    insideLoop false None prev' (removeLoop inString stringChar prev line)
               position = false.
Proof.
  induction line as [|c rest IH]; intros inS sc prev prev' position R;
    cbn [removeLoop]; [now destruct position|].
  destruct position as [|p].
  { destruct (isDelimiter prev c); [|destruct inS]; try reflexivity.
    destruct (negb inS); [|destruct (Js.opt_ascii_eqb sc c)]; reflexivity. }
  destruct (isDelimiter prev c) eqn:D.
  - pose proof (isDelimiter_quote _ _ D) as Q.
    destruct (negb inS);
      [|destruct (Js.opt_ascii_eqb sc c)];
      cbn [insideLoop]; rewrite isDelimiter_space;
      apply IH; intros _; cbn [Js.opt_ascii_eqb]; rewrite Q; reflexivity.
  - destruct inS.
    + cbn [insideLoop]. rewrite isDelimiter_space.
      apply IH. intros E. discriminate E.
    + cbn [insideLoop].
      rewrite <- (isDelimiter_prev prev prev' c (R eq_refl)), D.
      apply IH. reflexivity.
Qed.

Lemma dropn_app_le (a b : string) :
  forall n, n <= String.length a -> Js.dropn n (a ++ b) = Js.dropn n a ++ b.
Proof.
  induction a as [|x a IH]; intros [|n] L; cbn in *; try reflexivity; try lia.
  apply IH. lia.
Qed.

Lemma taken_app_le (a b : string) :
  forall n, n <= String.length a -> Js.taken n (a ++ b) = Js.taken n a.
Proof.
  induction a as [|x a IH]; intros [|n] L; cbn in *; try reflexivity; try lia.
  rewrite IH by lia. reflexivity.
Qed.

Lemma taken_app_S (a b : string) (c : ascii) :
  Js.taken (S (String.length a)) (a ++ String c b) = a ++ String c "".
Proof.
  induction a as [|x a IH]; [reflexivity|].
  change (Js.taken (S (String.length (String x a))) (String x a ++ String c b))
    with (String x (Js.taken (S (String.length a)) (a ++ String c b))).
  now rewrite IH.
Qed.

(** The portion being collected grows by the character just read. *)
Lemma substr_extend (pre rest cur : string) (c : ascii) (off : nat) :
  Js.substr off (String.length cur) (pre ++ String c rest) = cur ->
  off + String.length cur = String.length pre ->
  Js.substr off (String.length (cur ++ String c ""))
            (pre ++ String c rest) = cur ++ String c "".
Proof.
  unfold Js.substr. intros E L.
  rewrite dropn_app_le in * by lia.
  assert (LD : String.length (Js.dropn off pre) = String.length cur)
    by (rewrite dropn_length; lia).
  rewrite taken_app_le in E by lia. rewrite taken_all in E by lia.
  rewrite append_length. cbn [String.length]. rewrite Nat.add_1_r.
  rewrite <- LD, taken_app_S. now rewrite E.
Qed.

Lemma portionsLoop_spec (L : string) (rest : string) :
  forall pre portions cur off inString stringChar prev,
    L = pre ++ rest ->
    Forall (PortionOf L) portions ->
    (inString = false ->
     Js.substr off (String.length cur) L = cur
     /\ off + String.length cur = String.length pre) ->
    (inString = true -> cur = "") ->
    Forall (PortionOf L)
           (portionsLoop portions cur off inString stringChar prev
                         (String.length pre) rest).
Proof.
  assert (Push : forall portions cur off,
             Forall (PortionOf L) portions ->
             (cur = "" \/ Js.substr off (String.length cur) L = cur) ->
             Forall (PortionOf L) (pushPortion portions cur off)).
  { intros portions cur off F H. unfold pushPortion.
    destruct cur as [|x cur]; [exact F|]. cbn [String.length Nat.ltb Nat.leb].
    apply Forall_app. split; [exact F|]. constructor; [|constructor].
    destruct H as [H|H]; [discriminate H|]. split; [discriminate | exact H]. }
  induction rest as [|c rest IH];
    intros pre portions cur off inS sc prev EL F Out In_;
    cbn [portionsLoop].
  - apply Push; [exact F|]. destruct inS.
    + left. now apply In_.
    + right. now apply Out.
  - assert (EL' : L = (pre ++ String c "") ++ rest)
      by (now rewrite append_assoc).
    assert (LP : String.length (pre ++ String c "") = S (String.length pre))
      by (rewrite append_length; cbn; lia).
    destruct (isDelimiter prev c).
    + destruct inS; cbn [negb].
      * destruct (Js.opt_ascii_eqb sc c); rewrite <- LP.
        -- rewrite (In_ eq_refl). apply IH; try assumption.
           ++ intros _. cbn [String.length]. split; [reflexivity | lia].
           ++ intros E. discriminate E.
        -- apply IH; try assumption. intros E. discriminate E.
      * rewrite <- LP. apply IH; try assumption.
        -- apply Push; [exact F|]. right. now apply Out.
        -- intros E. discriminate E.
        -- reflexivity.
    + destruct inS; cbn [negb]; rewrite <- LP.
      * apply IH; try assumption. intros E. discriminate E.
      * apply IH; try assumption; [|intros E; discriminate E].
        intros _. destruct (Out eq_refl) as [S1 S2]. split.
        -- rewrite EL in *. now apply substr_extend.
        -- rewrite append_length, LP. cbn [String.length]. lia.
Qed.

End ScannerFacts.

(** ** The matcher on literals and on runs of a character class *)

Section MatcherFacts.

Import Regex.

Lemma consume_app (a : string) :
  forall s b,
    rest s = a ++ b ->
    rest (consume a s) = b
    /\ pos (consume a s) = pos s + String.length a
    /\ caps (consume a s) = caps s.
Proof.
  induction a as [|c a IH]; intros s b E; cbn [consume].
  - cbn in E. repeat split; [exact E | cbn; lia].
  - rewrite E. cbn [append].
    destruct (IH (advance c (a ++ b) s) b eq_refl) as (R & P & C).
    rewrite R, P, C. cbn [pos caps advance String.length].
    repeat split. lia.
Qed.

Lemma run_class_step (f : ascii -> bool) (k : mstate -> option mstate)
      (s : mstate) :
  run (Cls f) k s
  = match rest s with
    | String d t => if f d then k (advance d t s) else None
    | EmptyString => None
    end.
Proof. reflexivity. Qed.

(** A greedy repetition of a character class, followed by a continuation
    that accepts the state after the longest run, takes the longest run. *)
Lemma starLoop_class_run (f : ascii -> bool) (k : mstate -> option mstate)
      (x : mstate) (a : string) :
  forall s b fuel,
    rest s = a ++ b ->
    allChars f a = true ->
    headPasses f b = false ->
    String.length a < fuel ->
    k (consume a s) = Some x ->
    starLoop (run (Cls f)) true k fuel s = Some x.
Proof.
  induction a as [|c a IH]; intros s b fuel E A Hb L K;
    (destruct fuel as [|fuel]; [cbn in L; lia|]); cbn [starLoop];
    rewrite run_class_step.
  - cbn in E. rewrite E. cbn [consume] in K.
    destruct b as [|d t]; cbn [headPasses] in Hb; [exact K|].
    rewrite Hb. exact K.
  - cbn [allChars] in A. apply andb_prop in A. destruct A as [Fc A].
    rewrite E. cbn [append]. rewrite Fc.
    cbn [consume] in K. rewrite E in K. cbn [append] in K.
    cbn [rest advance String.length].
    assert (Lt : (String.length (a ++ b) <? S (String.length (a ++ b))) = true)
      by (apply Nat.ltb_lt; lia).
    rewrite Lt.
    rewrite (IH (advance c (a ++ b) s) b fuel eq_refl A Hb); try exact K.
    + reflexivity.
    + cbn [String.length] in L. lia.
Qed.

Lemma run_class_run (f : ascii -> bool) (k : mstate -> option mstate)
      (x : mstate) (a b : string) (s : mstate) :
  rest s = a ++ b ->
  allChars f a = true ->
  headPasses f b = false ->
  k (consume a s) = Some x ->
  run (Star true (Cls f)) k s = Some x.
Proof.
  intros E A Hb K. cbn [run]. eapply starLoop_class_run; try eassumption.
  rewrite E, append_length. lia.
Qed.

(** A literal matches exactly where the input ahead starts with it. *)
Lemma run_lit_match (o : string) (k : mstate -> option mstate) :
  forall s, Js.startsWith o (rest s) = true ->
            run (lit o) k s = k (consume o s).
Proof.
  induction o as [|c o IH]; intros s H; cbn [lit run consume];
    [reflexivity|].
  destruct (rest s) as [|d t] eqn:E; cbn [Js.startsWith] in H;
    [discriminate|].
  apply andb_prop in H. destruct H as [Ec H]. rewrite Ec.
  apply IH. exact H.
Qed.

Lemma run_lit_fail (o : string) (k : mstate -> option mstate) :
  forall s, Js.startsWith o (rest s) = false -> run (lit o) k s = None.
Proof.
  induction o as [|c o IH]; intros s H; cbn [lit run].
  - discriminate H.
  - destruct (rest s) as [|d t] eqn:E; [reflexivity|].
    cbn [Js.startsWith] in H. destruct (Ascii.eqb c d); [|reflexivity].
    apply IH. exact H.
Qed.

Lemma searchFrom_lit_none (o : string) (rest0 : string) :
  forall prev0 i,
    (forall j, ~ occursAt o rest0 j) ->
    searchFrom (lit o) prev0 rest0 i = None.
Proof.
  induction rest0 as [|c t IH]; intros prev0 i H; cbn [searchFrom].
  - rewrite run_lit_fail; [reflexivity|]. cbn [rest].
    specialize (H 0). unfold occursAt in H. cbn in H.
    now destruct (Js.startsWith o "").
  - rewrite run_lit_fail.
    + apply IH. intros j O. apply (H (S j)). exact O.
    + cbn [rest]. specialize (H 0). unfold occursAt in H. cbn in H.
      now destruct (Js.startsWith o (String c t)).
Qed.

Lemma searchFrom_lit_some (o : string) (rest0 : string) :
  forall prev0 i j,
    occursAt o rest0 j ->
    searchFrom (lit o) prev0 rest0 i <> None.
Proof.
  unfold occursAt.
  induction rest0 as [|c t IH]; intros prev0 i j H; cbn [searchFrom].
  - assert (H0 : Js.startsWith o "" = true) by (now destruct j).
    rewrite run_lit_match by exact H0. discriminate.
  - destruct (Js.startsWith o (String c t)) eqn:E.
    + rewrite run_lit_match by exact E. discriminate.
    + rewrite run_lit_fail by exact E.
      destruct j as [|j]; cbn [Js.dropn] in H; [congruence|].
      eapply IH. exact H.
Qed.

(** The matches of an escaped string in a line: none exactly when the
    string does not occur. *)
Lemma execAll_lit_nil (o line : string) :
  execAll (lit o) line = [] <-> Js.includes o line = false.
Proof.
  unfold execAll. cbn [execLoop]. unfold exec.
  cbn [Nat.ltb Nat.leb charBefore Js.dropn].
  assert (D : Js.dropn 0 line = line) by (now destruct line).
  rewrite includes_false_iff. split.
  - intros H j O.
    apply (searchFrom_lit_some o line None 0 j) in O.
    destruct (searchFrom (lit o) None line 0); [discriminate H | congruence].
  - intros H. now rewrite searchFrom_lit_none.
Qed.

End MatcherFacts.

(** ** Indentation, message types and the annotated listing *)

Section OutputFacts.

Import Regex Engine EngineOutput.

Lemma searchFrom_hit (r : regex) (prev0 : option ascii) (rest0 : string)
      (i : nat) (s : mstate) :
  run r Some (MState i prev0 rest0 []) = Some s ->
  searchFrom r prev0 rest0 i = Some (Match i (pos s) (caps s)).
Proof. intros H. destruct rest0; cbn [searchFrom]; now rewrite H. Qed.

Lemma exec_at_start (r : regex) (input : string) (s : mstate) :
  run r Some (MState 0 None input []) = Some s ->
  exec r input 0 = Some (Match 0 (pos s) (caps s)).
Proof.
  intros H. unfold exec. cbn [Nat.ltb Nat.leb charBefore].
  replace (Js.dropn 0 input) with input by (now destruct input).
  now apply searchFrom_hit.
Qed.

(** A line is its white-space prefix followed by [trimStart] of it. *)
Lemma trimStart_split (line : string) :
  exists a,
    line = a ++ Js.trimStart line
    /\ allChars Js.isWhite a = true
    /\ headPasses Js.isWhite (Js.trimStart line) = false.
Proof.
  induction line as [|c line (a & E & A & H)].
  - exists "". repeat split.
  - cbn [Js.trimStart]. destruct (Js.isWhite c) eqn:W.
    + exists (String c a). cbn [append allChars]. rewrite W, <- E.
      repeat split; assumption.
    + exists "". cbn [append allChars headPasses]. repeat split. exact W.
Qed.

Lemma getIndent_prefix (a b : string) :
  allChars Js.isWhite a = true ->
  headPasses Js.isWhite b = false ->
  getIndent (a ++ b) = a.
Proof.
  intros A H. unfold getIndent.
  pose (s0 := MState 0 None (a ++ b) []).
  destruct (consume_app a s0 b eq_refl) as (R & P & C).
  rewrite (exec_at_start indentPattern (a ++ b)
             (setCap 1 0 (pos (consume a s0)) (consume a s0))).
  - unfold group. cbn [captures setCap caps lookupCap Nat.eqb].
    rewrite P. cbn [pos s0]. unfold Js.substring.
    cbn [Nat.min Nat.max Nat.add]. rewrite Nat.sub_0_r.
    replace (Js.dropn 0 (a ++ b)) with (a ++ b) by (now destruct (a ++ b)).
    apply taken_app.
  - unfold indentPattern. cbn [run pos Nat.eqb].
    eapply (run_class_run Js.isWhite _ _ a b); try eassumption; reflexivity.
Qed.

Lemma indexOfFrom_char (c : ascii) (s : string) :
  forall i,
    match Js.indexOfFrom i (String c "") s with
    | Some _ => allChars (fun d => negb (Ascii.eqb d c)) s = false
    | None => allChars (fun d => negb (Ascii.eqb d c)) s = true
    end.
Proof.
  induction s as [|d r IH]; intros i; cbn [Js.indexOfFrom Js.startsWith allChars].
  - reflexivity.
  - rewrite (Ascii.eqb_sym c d).
    destruct (Ascii.eqb d c); cbn [andb negb]; [reflexivity|]. apply IH.
Qed.

(** A string without a given character, in the two ways of saying it. *)
Lemma includes_char (c : ascii) (s : string) :
  Js.includes (String c "") s
  = negb (allChars (fun d => negb (Ascii.eqb d c)) s).
Proof.
  unfold Js.includes, Js.indexOf.
  pose proof (indexOfFrom_char c s 0) as H.
  destruct (Js.indexOfFrom 0 (String c "") s); now rewrite H.
Qed.

Lemma run_chr_hit (c : ascii) (t : string) (k : mstate -> option mstate)
      (s : mstate) :
  rest s = String c t -> run (Chr c) k s = k (advance c t s).
Proof. intros E. cbn [run]. now rewrite E, Ascii.eqb_refl. Qed.

Lemma run_cls_hit (f : ascii -> bool) (c : ascii) (t : string)
      (k : mstate -> option mstate) (s : mstate) :
  rest s = String c t -> f c = true -> run (Cls f) k s = k (advance c t s).
Proof. intros E F. cbn [run]. now rewrite E, F. Qed.

Lemma run_seq (r1 r2 : regex) (k : mstate -> option mstate) (s : mstate) :
  run (Seq r1 r2) k s = run r1 (run r2 k) s.
Proof. reflexivity. Qed.

Lemma run_group (n : nat) (r : regex) (k : mstate -> option mstate)
      (s : mstate) :
  run (Group n r) k s = run r (fun s' => k (setCap n (pos s) (pos s') s')) s.
Proof. reflexivity. Qed.

Lemma typeOf_bracketed (v rest0 : string) :
  v <> "" ->
  allChars (fun d => negb (Ascii.eqb d "]"%char)) v = true ->
  typeOf ("[" ++ v ++ String "]"%char rest0) = v.
Proof.
  intros NE A. destruct v as [|c v]; [congruence|].
  cbn [allChars] in A. apply andb_prop in A. destruct A as [Fc A].
  unfold typeOf. cbn [append].
  set (b := String "]"%char rest0).
  set (s0 := MState 0 None (String "["%char (String c (v ++ b))) []).
  set (s1 := advance "["%char (String c (v ++ b)) s0).
  set (s2 := advance c (v ++ b) s1).
  destruct (consume_app v s2 b eq_refl) as (R & P & C).
  rewrite (exec_at_start typePattern _
             (advance "]"%char rest0
                (setCap 1 1 (pos (consume v s2)) (consume v s2)))).
  - unfold group. cbn [captures advance setCap caps lookupCap Nat.eqb].
    rewrite P. cbn [pos s2 s1 s0 advance]. unfold Js.substring.
    replace (Nat.min 1 (2 + String.length v)) with 1 by lia.
    replace (Nat.max 1 (2 + String.length v) - 1)
      with (String.length (String c v)) by (cbn [String.length]; lia).
    cbn [Js.dropn].
    change (String c (v ++ b)) with (String c v ++ b).
    apply taken_app.
  - fold s0. unfold typePattern, Plus.
    rewrite run_seq, (run_chr_hit "["%char (String c (v ++ b))) by reflexivity.
    fold s1. rewrite run_seq, run_group, run_seq.
    rewrite (run_cls_hit _ c (v ++ b)) by (reflexivity || exact Fc).
    fold s2.
    eapply (run_class_run _ _ _ v b); try eassumption; try reflexivity.
    cbv beta. rewrite (run_chr_hit "]"%char rest0); [reflexivity|].
    cbn [setCap rest]. exact R.
Qed.

Lemma filter_filter_implied {A : Type} (f g : A -> bool) (l : list A) :
  (forall x, f x = true -> g x = true) ->
  filter f (filter g l) = filter f l.
Proof.
  intros H. induction l as [|x l IH]; cbn [filter]; [reflexivity|].
  destruct (g x) eqn:G; cbn [filter].
  - now rewrite IH.
  - destruct (f x) eqn:F; [|exact IH]. apply H in F. congruence.
Qed.

(** Only the suggestions of the lines [1..n] reach the listing. *)
Lemma formatLoop_inRange (style : string) (sugs : list Suggestion.t) :
  forall lines i n,
    n = i + List.length lines ->
    formatLoop style (filter (inRange n) sugs) lines i
    = formatLoop style sugs lines i.
Proof.
  induction lines as [|line rest IH]; intros i n E; cbn [formatLoop];
    [reflexivity|].
  cbn [List.length] in E. f_equal. f_equal.
  - f_equal. apply filter_filter_implied. intros s H.
    apply Nat.eqb_eq in H. unfold inRange. rewrite H.
    apply andb_true_intro. split; [apply Nat.leb_le | apply Nat.leb_le]; lia.
  - apply IH. lia.
Qed.

Lemma formatLoop_nil (style : string) :
  forall lines i, formatLoop style [] lines i = lines.
Proof.
  induction lines as [|line rest IH]; intros i; cbn [formatLoop filter flat_map app];
    [reflexivity|].
  now rewrite IH.
Qed.

(** The number of lines of the listing when every message is on one line:
    one line per line of the code and one per suggestion in range. *)
Lemma formatLoop_length (style : string) (sugs : list Suggestion.t) :
  Forall (fun s => Js.includes NL (Suggestion.message s) = false) sugs ->
  forall lines i,
    List.length (formatLoop style sugs lines i)
    = List.length lines
      + countIf (fun s => (i + 1 <=? Suggestion.line s)
                          && (Suggestion.line s <=? i + List.length lines))
                sugs.
Proof.
  intros One.
  assert (Flat : forall indent l,
             Forall (fun s => Js.includes NL (Suggestion.message s) = false) l ->
             List.length (flat_map (suggestionLines style indent) l)
             = List.length l).
  { intros indent l F. induction F as [|s l E F IH]; [reflexivity|].
    cbn [flat_map]. rewrite length_app, IH. unfold suggestionLines.
    cbv zeta. rewrite E. reflexivity. }
  assert (Sub : forall f,
             Forall (fun s => Js.includes NL (Suggestion.message s) = false)
                    (filter f sugs)).
  { intros f. apply Forall_forall. intros s I. apply filter_In in I.
    rewrite Forall_forall in One. now apply One. }
  unfold countIf.
  induction lines as [|line rest IH]; intros i; cbn [formatLoop List.length].
  - rewrite Nat.add_0_r. symmetry. cbn [Nat.add]. apply length_zero_iff_nil.
    apply filter_none. apply Forall_forall. intros s _.
    destruct (i + 1 <=? Suggestion.line s) eqn:A;
      destruct (Suggestion.line s <=? i) eqn:B; try reflexivity.
    apply Nat.leb_le in A. apply Nat.leb_le in B. lia.
  - rewrite length_app, Flat by apply Sub. rewrite IH.
    assert (Split : forall l : list Suggestion.t,
               List.length (filter (fun s => Suggestion.line s =? i + 1) l)
               + List.length
                   (filter (fun s => (S i + 1 <=? Suggestion.line s)
                                     && (Suggestion.line s
                                         <=? S i + List.length rest)) l)
               = List.length
                   (filter (fun s => (i + 1 <=? Suggestion.line s)
                                     && (Suggestion.line s
                                         <=? i + S (List.length rest))) l)).
    { induction l as [|s l IHl]; [reflexivity|]. cbn [filter].
      destruct (Suggestion.line s =? i + 1) eqn:A;
        destruct (S i + 1 <=? Suggestion.line s) eqn:B;
        destruct (Suggestion.line s <=? S i + List.length rest) eqn:C;
        destruct (i + 1 <=? Suggestion.line s) eqn:D;
        destruct (Suggestion.line s <=? i + S (List.length rest)) eqn:E;
        cbn [andb List.length]; try (rewrite <- IHl; lia);
        exfalso;
        repeat match goal with
               | H : (_ =? _) = true |- _ => apply Nat.eqb_eq in H
               | H : (_ =? _) = false |- _ => apply Nat.eqb_neq in H
               | H : (_ <=? _) = true |- _ => apply Nat.leb_le in H
               | H : (_ <=? _) = false |- _ => apply Nat.leb_gt in H
               end; lia. }
    rewrite <- Split. lia.
Qed.

End OutputFacts.

(** ** The fixes of the two wrapping rules *)

Section FixFacts.

Import Regex.

Lemma dropn_0 (s : string) : Js.dropn 0 s = s.
Proof. now destruct s. Qed.

(** An occurrence inside a piece of a split is an occurrence in the
    string. *)
Lemma splitStr_occurs (o sep : string) :
  o <> "" ->
  forall fuel s piece j,
    In piece (Js.splitStr sep fuel s) ->
    occursAt o piece j ->
    exists k, occursAt o s k.
Proof.
  intros NE. induction fuel as [|fuel IH]; intros s piece j I O;
    cbn [Js.splitStr] in I.
  - destruct I as [<-|[]]. now exists j.
  - destruct (Js.indexOf sep s) as [i|].
    + destruct I as [<-|I].
      * exists j. now apply (occursAt_taken o s i j NE).
      * destruct (IH _ _ _ I O) as (k & K). unfold occursAt in K.
        rewrite dropn_dropn in K. now exists (i + String.length sep + k).
    + destruct I as [<-|[]]. now exists j.
Qed.

Lemma lines_without (o code : string) :
  o <> "" ->
  Js.includes o code = false ->
  existsb (Js.includes o) (Js.split NL code) = false.
Proof.
  intros NE H. destruct (existsb _ _) eqn:E; [|reflexivity].
  apply existsb_exists in E. destruct E as (piece & I & O).
  apply includes_true_iff in O. destruct O as (j & O).
  destruct (splitStr_occurs o NL NE _ _ _ _ I O) as (k & K).
  rewrite includes_false_iff in H. now apply H in K.
Qed.

Lemma fixStep_thrown (line fixedCode : string) (rc : RuleConfig.t)
      (ms : list MatchResult) :
  forall acc e,
    DivisionOperations.fixThrown acc = Some e ->
    fold_left (DivisionOperations.fixStep line fixedCode rc) ms acc = acc.
Proof.
  induction ms as [|m ms IH]; intros acc e T; cbn [fold_left];
    [reflexivity|].
  unfold DivisionOperations.fixStep at 2. rewrite T. now apply (IH acc e).
Qed.

(** A line without an occurrence of the expression is left as it is. *)
Lemma fixLine_absent (o fixedCode : string) (rc : RuleConfig.t)
      (line : string) :
  Js.includes o line = false ->
  DivisionOperations.fixLine o fixedCode rc line = Ok line.
Proof.
  intros H. unfold DivisionOperations.fixLine.
  rewrite (proj2 (execAll_lit_nil o line) H).
  cbn [fold_left DivisionOperations.fixThrown DivisionOperations.newLine
       DivisionOperations.lastIndex append].
  unfold Js.sliceFrom. now rewrite dropn_0.
Qed.

(** With a protector name configured, a line with an occurrence makes the
    fix throw. *)
Lemma fixLine_protected (o fixedCode : string) (rc : RuleConfig.t)
      (f : string) (skip : list string) (line : string) :
  RuleConfig.skipIfWrappedIn rc = Some (f :: skip) ->
  Js.includes o line = true ->
  DivisionOperations.fixLine o fixedCode rc line
  = Throw (TypeError "str.replace is not a function").
Proof.
  intros S H. unfold DivisionOperations.fixLine.
  destruct (execAll (lit o) line) as [|m ms] eqn:E.
  { apply execAll_lit_nil in E. congruence. }
  cbn [fold_left]. unfold DivisionOperations.fixStep at 2.
  cbn [DivisionOperations.fixThrown].
  rewrite (isAlreadyWrapped_array_throws line m rc f skip S).
  erewrite fixStep_thrown; reflexivity.
Qed.

Lemma fixLines_absent (o fixedCode : string) (rc : RuleConfig.t)
      (lines : list string) :
  existsb (Js.includes o) lines = false ->
  DivisionOperations.fixLines o fixedCode rc lines = Ok lines.
Proof.
  induction lines as [|line rest IH]; intros H; [reflexivity|].
  cbn [existsb] in H. apply orb_false_elim in H. destruct H as [H1 H2].
  cbn [DivisionOperations.fixLines].
  now rewrite (fixLine_absent o fixedCode rc line H1), (IH H2).
Qed.

Lemma fixLines_protected (o fixedCode : string) (rc : RuleConfig.t)
      (f : string) (skip : list string) (lines : list string) :
  RuleConfig.skipIfWrappedIn rc = Some (f :: skip) ->
  existsb (Js.includes o) lines = true ->
  DivisionOperations.fixLines o fixedCode rc lines
  = Throw (TypeError "str.replace is not a function").
Proof.
  intros S. induction lines as [|line rest IH]; intros H; [discriminate H|].
  cbn [existsb] in H. cbn [DivisionOperations.fixLines].
  destruct (Js.includes o line) eqn:I.
  - now rewrite (fixLine_protected o fixedCode rc f skip line S I).
  - rewrite (fixLine_absent o fixedCode rc line I).
    cbn [orb] in H. now rewrite (IH H).
Qed.

(** Which styles read a template that is not a string. *)
Lemma templateOr_none (rc : RuleConfig.t) (style fallback : string) :
  RuleConfig.templateOr (RuleConfig.templateFor rc style) fallback = None
  <-> Js.isProtoKey style && hasTemplates rc = true.
Proof.
  unfold RuleConfig.templateFor, hasTemplates.
  destruct (RuleConfig.fixTemplates rc) as [ft|];
    [|cbn; rewrite andb_false_r; split; discriminate].
  rewrite andb_true_r.
  destruct (String.eqb style "traditional") eqn:E1.
  { apply String.eqb_eq in E1. subst style.
    destruct (FixTemplates.traditional ft) as [[|c t]|]; cbn;
      split; discriminate. }
  destruct (String.eqb style "method") eqn:E2.
  { apply String.eqb_eq in E2. subst style.
    destruct (FixTemplates.method ft) as [[|c t]|]; cbn; split; discriminate. }
  destruct (Js.isProtoKey style); cbn; split; try discriminate; reflexivity.
Qed.

Lemma templateOr_own (rc : RuleConfig.t) (style fallback : string) :
  Js.isProtoKey style = false ->
  exists template,
    RuleConfig.templateOr (RuleConfig.templateFor rc style) fallback
    = Some template.
Proof.
  intros P.
  destruct (RuleConfig.templateOr (RuleConfig.templateFor rc style) fallback)
    as [t|] eqn:E; [now exists t|].
  apply templateOr_none in E. rewrite P in E. discriminate E.
Qed.

Lemma lookup_forallb (f : RuleConfig.t -> bool) (name : string)
      (rules : list (string * RuleConfig.t)) (rc : RuleConfig.t) :
  forallb (fun kv => f (snd kv)) rules = true ->
  Config.lookup name rules = Some rc ->
  f rc = true.
Proof.
  induction rules as [|[k v] r IH]; cbn [forallb Config.lookup snd];
    [discriminate|].
  intros H L. apply andb_prop in H. destruct H as [H1 H2].
  destruct (String.eqb k name); [now injection L as <- | now apply IH].
Qed.

(** The two wrapping fixes on a finding whose expression is not in the
    code, for fix styles that are not inherited keys. *)
Lemma wrapping_fixes_absent (w : Window.t) (code o : string)
      (s : Suggestion.t) (config : Config.t)
      (rules : list (string * RuleConfig.t)) :
  Config.suggestionRules config = Some rules ->
  forallb (fun kv => ownStyles w (snd kv)) rules = true ->
  Suggestion.original s = Some o ->
  Js.includes o code = false ->
  DivisionOperations.fix_ w code s config = Ok code
  /\ NullAccessProtection.fix_ w code s config = Ok code.
Proof.
  intros T Own O H.
  unfold DivisionOperations.fix_, NullAccessProtection.fix_, fixProlog,
    Config.ruleEntry.
  rewrite T, O. split.
  - destruct (Config.lookup DivisionOperations.name rules) as [rc|] eqn:L;
      [|reflexivity].
    destruct (negb (Js.truthyBool (RuleConfig.autoFixEnabled rc)));
      [reflexivity|].
    destruct o as [|c o]; [reflexivity|].
    cbn [Js.truthyStr negb Js.orStr].
    pose proof (lookup_forallb (ownStyles w) _ _ _ Own L) as S.
    unfold ownStyles in S. apply andb_prop in S. destruct S as [S _].
    apply negb_true_iff in S.
    destruct (templateOr_own rc _ "ifNaN({expression}, {defaultAltValue})" S)
      as [template ->].
    rewrite fixLines_absent by (apply lines_without; [discriminate|exact H]).
    now rewrite join_split.
  - destruct (Config.lookup NullAccessProtection.name rules) as [rc|] eqn:L;
      [|reflexivity].
    destruct (negb (Js.truthyBool (RuleConfig.autoFixEnabled rc)));
      [reflexivity|].
    destruct o as [|c o]; [reflexivity|].
    cbn [Js.truthyStr negb Js.orStr].
    pose proof (lookup_forallb (ownStyles w) _ _ _ Own L) as S.
    unfold ownStyles in S. apply andb_prop in S. destruct S as [_ S].
    apply negb_true_iff in S.
    destruct (templateOr_own rc _ "ifNull({expression})" S) as [template ->].
    destruct (Js.split "." (String c o)) as [|a [|b [|x l]]]; try reflexivity.
    unfold replaceAll. rewrite (proj2 (execAll_lit_nil _ code) H).
    cbn [replaceLoop]. now rewrite dropn_0.
Qed.

End FixFacts.

(** ** The division rule: what it reports *)

Section DivisionFacts.

Import DSLRuleUtils.

Lemma get_taken (s : string) :
  forall n k, k < n -> String.get k (Js.taken n s) = String.get k s.
Proof.
  induction s as [|c s IH]; intros [|n] [|k] L; cbn; try reflexivity; try lia.
  apply IH. lia.
Qed.

Lemma get_allChars (f : ascii -> bool) (s : string) :
  forall k c, String.get k s = Some c -> f c = false -> allChars f s = false.
Proof.
  induction s as [|d s IH]; intros [|k] c G F; cbn in *; try discriminate.
  - injection G as ->. now rewrite F.
  - rewrite (IH k c G F). apply andb_false_r.
Qed.

Lemma get_includes (s : string) (k : nat) (c : ascii) :
  String.get k s = Some c -> Js.includes (String c "") s = true.
Proof.
  intros G. rewrite includes_char.
  rewrite (get_allChars _ s k c G); [reflexivity|].
  now rewrite Ascii.eqb_refl.
Qed.

Lemma trimStart_get (s : string) :
  forall k c,
    String.get k s = Some c -> Js.isWhite c = false ->
    exists k', String.get k' (Js.trimStart s) = Some c.
Proof.
  induction s as [|d s IH]; intros k c G W; [discriminate G|].
  cbn [Js.trimStart]. destruct (Js.isWhite d) eqn:Wd.
  - destruct k as [|k]; cbn in G.
    + injection G as ->. congruence.
    + eapply IH; eassumption.
  - now exists k.
Qed.

Lemma allWhite_get (s : string) :
  forall k c,
    String.get k s = Some c -> Js.isWhite c = false -> Js.allWhite s = false.
Proof.
  induction s as [|d s IH]; intros [|k] c G W; cbn in *; try discriminate.
  - injection G as ->. now rewrite W.
  - rewrite (IH k c G W). apply andb_false_r.
Qed.

Lemma trimEnd_get (s : string) :
  forall k c,
    String.get k s = Some c -> Js.isWhite c = false ->
    String.get k (Js.trimEnd s) = Some c.
Proof.
  induction s as [|d s IH]; intros k c G W; [discriminate G|].
  cbn [Js.trimEnd]. rewrite (allWhite_get _ k c G W).
  destruct k as [|k]; cbn in *; [exact G|]. now apply IH.
Qed.

Lemma allWhite_trimEnd (s : string) :
  Js.allWhite s = false -> Js.allWhite (Js.trimEnd s) = false.
Proof.
  induction s as [|d s IH]; intros H; [discriminate H|].
  cbn [Js.trimEnd]. rewrite H. cbn [Js.allWhite] in *.
  destruct (Js.isWhite d); [|reflexivity]. cbn [andb] in *. now apply IH.
Qed.

Lemma trimEnd_idem (s : string) : Js.trimEnd (Js.trimEnd s) = Js.trimEnd s.
Proof.
  induction s as [|d s IH]; [reflexivity|].
  cbn [Js.trimEnd]. destruct (Js.allWhite (String d s)) eqn:A; [reflexivity|].
  cbn [Js.trimEnd].
  assert (A' : Js.allWhite (String d (Js.trimEnd s)) = false).
  { cbn [Js.allWhite] in *. destruct (Js.isWhite d); [|reflexivity].
    cbn [andb] in *. now apply allWhite_trimEnd. }
  now rewrite A', IH.
Qed.

(** Trimming twice is trimming once. *)
Lemma trim_idem (s : string) : Js.trim (Js.trim s) = Js.trim s.
Proof.
  unfold Js.trim.
  assert (H : forall u, headPasses Js.isWhite u = false ->
                        Js.trimStart (Js.trimEnd u) = Js.trimEnd u).
  { intros [|c u] Hu; [reflexivity|]. cbn [headPasses] in Hu.
    cbn [Js.trimEnd]. destruct (Js.allWhite (String c u)); [reflexivity|].
    cbn [Js.trimStart]. now rewrite Hu. }
  destruct (trimStart_split s) as (a & _ & _ & Hs).
  rewrite (H _ Hs). apply trimEnd_idem.
Qed.

Lemma scanBack_le (line : string) (n : nat) :
  DivisionOperations.scanBack line n <= n.
Proof.
  induction n as [|i IH]; cbn [DivisionOperations.scanBack]; [lia|].
  destruct (String.get i line) as [c|]; [|lia].
  destruct (DivisionOperations.isStartDelimiter c); lia.
Qed.

Lemma scanForward_ge (rest : string) :
  forall i, i <= DivisionOperations.scanForward rest i.
Proof.
  induction rest as [|c t IH]; intros i; cbn [DivisionOperations.scanForward];
    [lia|].
  destruct (DivisionOperations.isEndDelimiter c); [lia|].
  specialize (IH (S i)). lia.
Qed.

(** The expression extracted around an operator holds the operator and is
    trimmed. *)
Lemma extract_has_operator (line : string) (p : nat) :
  String.get p line = Some "/"%char ->
  Js.includes "/" (DivisionOperations._extractExpression line p) = true
  /\ Js.trim (DivisionOperations._extractExpression line p)
     = DivisionOperations._extractExpression line p.
Proof.
  intros G. unfold DivisionOperations._extractExpression. cbv zeta.
  split; [|apply trim_idem].
  pose proof (scanBack_le line p) as B.
  pose proof (scanForward_ge (Js.dropn (p + 1) line) (p + 1)) as F.
  set (start := DivisionOperations.scanBack line p) in *.
  set (end_ := DivisionOperations.scanForward _ _) in *.
  assert (G1 : String.get (p - start) (Js.substring start end_ line)
               = Some "/"%char).
  { unfold Js.substring.
    replace (Nat.min start end_) with start by lia.
    replace (Nat.max start end_) with end_ by lia.
    rewrite get_taken by lia. rewrite get_dropn.
    now replace (start + (p - start)) with p by lia. }
  unfold Js.trim.
  destruct (trimStart_get _ _ _ G1 eq_refl) as (k' & G2).
  apply (trimEnd_get _ _ _) in G2; [|reflexivity].
  eapply get_includes. exact G2.
Qed.

Lemma blocks_anchor (lines : list string) (rules : list Rule)
      (blocks : list (list Suggestion.t)) :
  Forall2 (BlockOf lines) rules blocks ->
  Forall (fun s => exists lineText, DivisionAnchor lineText s)
         (List.concat blocks).
Proof.
  induction 1 as [|r b rules blocks B F2 IH]; [constructor|].
  cbn [List.concat]. apply Forall_app. split; [|exact IH].
  destruct B as (F & _). eapply Forall_impl; [|exact F].
  intros s (_ & _ & lineText & _ & _ & A & _). now exists lineText.
Qed.

End DivisionFacts.

(** ** Findings that quote the text they point at; corrected names *)

Section QuotedText.

Import DSLRuleUtils.

Lemma taken_min (s : string) :
  forall n, Js.taken (Nat.min n (String.length s)) s = Js.taken n s.
Proof.
  induction s as [|c s IH]; intros [|n]; cbn; try reflexivity.
  now rewrite IH.
Qed.

(** The text of a match is what the input holds at the index of the
    match. *)
Lemma matched_at (input : string) (m : Regex.MatchResult) :
  Regex.index m <= Regex.mend m ->
  Js.substr (Regex.index m) (String.length (Regex.matched input m)) input
  = Regex.matched input m.
Proof.
  intros L. unfold Regex.matched, Js.substring, Js.substr.
  replace (Nat.min (Regex.index m) (Regex.mend m)) with (Regex.index m) by lia.
  replace (Nat.max (Regex.index m) (Regex.mend m)) with (Regex.mend m) by lia.
  rewrite taken_length. apply taken_min.
Qed.

Lemma execAll_ordered (r : Regex.regex) (input : string)
      (m : Regex.MatchResult) :
  In m (Regex.execAll r input) -> Regex.index m <= Regex.mend m.
Proof. intros H. apply execLoop_bounds in H. lia. Qed.

(** What the suggestions pushed by a loop over matches look like when each
    quotes its match. *)
Lemma quoting_suggestions (lineNumber : nat) (masked : string)
      (lines : list string) (i : nat) (line : string)
      (sugs : list Suggestion.t) :
  nth_error lines i = Some line ->
  masked = removeStringLiterals line ->
  lineNumber = i + 1 ->
  Forall (fun s =>
            Suggestion.line s = lineNumber
            /\ exists m,
                Regex.index m <= Regex.mend m
                /\ Suggestion.column s = Regex.index m
                /\ Suggestion.original s = Some (Regex.matched masked m))
         sugs ->
  Forall (OriginalAtColumn lines) sugs.
Proof.
  intros N -> -> F. eapply Forall_impl; [|exact F].
  intros s (L & m & B & C & O) o lineText Ho Hl.
  rewrite L, Nat.add_sub, N in Hl. injection Hl as <-.
  rewrite O in Ho. injection Ho as <-. rewrite C. now apply matched_at.
Qed.

Lemma math_quotes (lines : list string) (context : Context.t)
      (config : Config.t) :
  CheckGives (OriginalAtColumn lines) lines context config
             MathOperationsParens.rule.
Proof.
  intros i line c sugs c' N H.
  cbn [check MathOperationsParens.rule] in H.
  unfold MathOperationsParens.check in H.
  apply ruleProlog_ok in H. destruct H as [[-> _]|(rc & _ & H)];
    [constructor|].
  apply finish_ok in H. destruct H as [-> _].
  eapply (quoting_suggestions (i + 1) _ lines i line); try reflexivity;
    [exact N|].
  apply fold_left_invariant; [|constructor].
  intros acc m I A. unfold MathOperationsParens.checkStep. cbv zeta.
  destruct (isInsideString line (Regex.index m)); [assumption|].
  destruct (negb _); [|assumption].
  unfold pushSuggestion. cbn [suggestions].
  apply Forall_app. split; [exact A|]. constructor; [|constructor].
  split; [reflexivity|]. exists m.
  split; [eapply execAll_ordered; exact I|]. split; reflexivity.
Qed.

Lemma nodeAccess_quotes (lines : list string) (context : Context.t)
      (config : Config.t) :
  CheckGives (OriginalAtColumn lines) lines context config
             NonOptimalNodeAccess.rule.
Proof.
  intros i line c sugs c' N H.
  cbn [check NonOptimalNodeAccess.rule] in H.
  unfold NonOptimalNodeAccess.check in H.
  apply ruleProlog_ok in H. destruct H as [[-> _]|(rc & _ & H)];
    [constructor|].
  apply finish_ok in H. destruct H as [-> _].
  eapply (quoting_suggestions (i + 1) _ lines i line); try reflexivity;
    [exact N|].
  apply fold_left_invariant; [|constructor].
  intros acc node I A. unfold NonOptimalNodeAccess.checkStep. cbv zeta.
  unfold pushSuggestion. cbn [suggestions].
  apply Forall_app. split; [exact A|]. constructor; [|constructor].
  split; [reflexivity|].
  unfold NonOptimalNodeAccess._findNodeAccess in I.
  apply in_flat_map in I. destruct I as (library & _ & I).
  apply in_map_iff in I. destruct I as (m & <- & I).
  exists m. split; [eapply execAll_ordered; exact I|]. split; reflexivity.
Qed.

(** The other rules, seen through the name their findings carry. *)
Lemma named_findings (P : Suggestion.t -> Prop) (r : Rule)
      (lines : list string) (context : Context.t) (config : Config.t) :
  CheckSpec r ->
  (forall s, Suggestion.rule s = nameOf r -> P s) ->
  CheckGives P lines context config r.
Proof.
  intros HS HP i line c sugs c' N H.
  destruct (HS _ _ _ _ _ _ _ _ N H) as (F & _).
  eapply Forall_impl; [|exact F]. intros s (_ & R & _). now apply HP.
Qed.

Lemma quoting_rules (lines : list string) (context : Context.t)
      (config : Config.t) :
  Forall (CheckGives
            (fun s =>
               Suggestion.rule s = MathOperationsParens.name
               \/ Suggestion.rule s = NonOptimalNodeAccess.name ->
               OriginalAtColumn lines s)
            lines context config)
         DSL_RULES.
Proof.
  pose proof all_rules_spec as HS. unfold DSL_RULES in *.
  repeat match goal with
         | X : Forall CheckSpec (_ :: _) |- _ =>
             inversion X as [|? ? ? ?]; subst; clear X
         end.
  assert (Other : forall r,
             CheckSpec r ->
             nameOf r <> MathOperationsParens.name ->
             nameOf r <> NonOptimalNodeAccess.name ->
             CheckGives
               (fun s =>
                  Suggestion.rule s = MathOperationsParens.name
                  \/ Suggestion.rule s = NonOptimalNodeAccess.name ->
                  OriginalAtColumn lines s)
               lines context config r).
  { intros r Sr N1 N2. apply named_findings; [exact Sr|].
    intros s R [E|E]; congruence. }
  assert (Quote : forall r,
             CheckGives (OriginalAtColumn lines) lines context config r ->
             CheckGives
               (fun s =>
                  Suggestion.rule s = MathOperationsParens.name
                  \/ Suggestion.rule s = NonOptimalNodeAccess.name ->
                  OriginalAtColumn lines s)
               lines context config r).
  { intros r G i line c sugs c' Nth Hchk.
    eapply Forall_impl; [|exact (G i line c sugs c' Nth Hchk)].
    now intros s Q _. }
  constructor; [apply Other; [assumption|discriminate|discriminate]|].
  constructor; [apply Other; [assumption|discriminate|discriminate]|].
  constructor; [apply Other; [assumption|discriminate|discriminate]|].
  constructor; [apply Other; [assumption|discriminate|discriminate]|].
  constructor; [apply Quote, nodeAccess_quotes|].
  constructor; [apply Other; [assumption|discriminate|discriminate]|].
  constructor; [apply Quote, math_quotes|].
  constructor; [apply Other; [assumption|discriminate|discriminate]|].
  constructor.
Qed.

End QuotedText.

Section CorrectedNames.

Import Regex VariableNaming.

Lemma allChars_app (f : ascii -> bool) (a b : string) :
  allChars f (a ++ b) = allChars f a && allChars f b.
Proof.
  induction a as [|c a IH]; cbn [append allChars]; [reflexivity|].
  now rewrite IH, andb_assoc.
Qed.

Lemma allChars_taken (f : ascii -> bool) (s : string) :
  forall n, allChars f s = true -> allChars f (Js.taken n s) = true.
Proof.
  induction s as [|c s IH]; intros [|n] H; cbn in *; try reflexivity.
  apply andb_prop in H. destruct H as [-> H]. now apply IH.
Qed.

Lemma allChars_dropn (f : ascii -> bool) (s : string) :
  forall n, allChars f s = true -> allChars f (Js.dropn n s) = true.
Proof.
  induction s as [|c s IH]; intros [|n] H; cbn in *; try reflexivity;
    try assumption.
  apply andb_prop in H. destruct H as [_ H]. now apply IH.
Qed.

Lemma allChars_map (f : ascii -> bool) (g : ascii -> ascii) (s : string) :
  (forall c, f c = true -> f (g c) = true) ->
  allChars f s = true -> allChars f (Js.mapString g s) = true.
Proof.
  intros Hg. induction s as [|c s IH]; intros H; cbn in *; [reflexivity|].
  apply andb_prop in H. destruct H as [Hc H]. now rewrite (Hg c Hc), IH.
Qed.

Lemma lower_keeps_non_underscore (c : ascii) :
  negb (Ascii.eqb c "_"%char) = true ->
  negb (Ascii.eqb (Js.toLowerChar c) "_"%char) = true.
Proof.
  destruct c as [[] [] [] [] [] [] [] []]; intros H; vm_compute;
    try reflexivity; exact H.
Qed.

Lemma upper_keeps_non_underscore (c : ascii) :
  negb (Ascii.eqb c "_"%char) = true ->
  negb (Ascii.eqb (Js.toUpperChar c) "_"%char) = true.
Proof.
  destruct c as [[] [] [] [] [] [] [] []]; intros H; vm_compute;
    try reflexivity; exact H.
Qed.

Lemma lower_changes_upper (c : ascii) :
  Js.isUpper c = true -> Js.toLowerChar c <> c.
Proof.
  destruct c as [[] [] [] [] [] [] [] []]; intros H; vm_compute in H;
    try discriminate H; vm_compute; discriminate.
Qed.

(** No piece of a split on the underscore holds an underscore. *)
Lemma split_underscore (fuel : nat) :
  forall s,
    String.length s <= fuel ->
    Forall (fun p => allChars (fun d => negb (Ascii.eqb d "_"%char)) p = true)
           (Js.splitStr "_" fuel s).
Proof.
  induction fuel as [|fuel IH]; intros s L; cbn [Js.splitStr].
  - destruct s; [|cbn in L; lia]. repeat constructor.
  - destruct (Js.indexOf "_" s) as [i|] eqn:E.
    + constructor.
      * pose proof (indexOf_taken "_" s i) as T.
        rewrite includes_char in T. apply negb_false_iff.
        apply T; [discriminate | exact E].
      * apply IH. unfold Js.indexOf in E. apply indexOfFrom_bound in E.
        rewrite dropn_length. cbn [String.length] in *. lia.
    + constructor; [|constructor].
      pose proof (includes_char "_"%char s) as T. unfold Js.includes in T.
      rewrite E in T. symmetry in T. now apply negb_false_iff in T.
Qed.

Lemma camelPart_clean (i : nat) (part : string) :
  allChars (fun d => negb (Ascii.eqb d "_"%char)) part = true ->
  allChars (fun d => negb (Ascii.eqb d "_"%char)) (camelPart i part) = true.
Proof.
  intros H. unfold camelPart, Js.charAt, Js.substr, Js.sliceFrom,
              Js.toLowerCase, Js.toUpperCase.
  destruct (i =? 0); rewrite allChars_app; apply andb_true_intro; split.
  - apply allChars_map; [exact lower_keeps_non_underscore|].
    now apply allChars_taken, allChars_dropn.
  - now apply allChars_dropn.
  - apply allChars_map; [exact upper_keeps_non_underscore|].
    now apply allChars_taken, allChars_dropn.
  - apply allChars_map; [exact lower_keeps_non_underscore|].
    now apply allChars_dropn.
Qed.

Lemma mapIndexed_clean (l : list string) :
  forall i,
    Forall (fun p => allChars (fun d => negb (Ascii.eqb d "_"%char)) p = true) l ->
    Forall (fun p => allChars (fun d => negb (Ascii.eqb d "_"%char)) p = true)
           (mapIndexed camelPart i l).
Proof.
  induction l as [|x l IH]; intros i F; cbn [mapIndexed]; [constructor|].
  inversion F; subst. constructor; [now apply camelPart_clean | now apply IH].
Qed.

Lemma concat_clean (f : ascii -> bool) (l : list string) :
  Forall (fun p => allChars f p = true) l ->
  allChars f (String.concat "" l) = true.
Proof.
  induction 1 as [|x l Hx F IH]; [reflexivity|].
  destruct l as [|y l]; [exact Hx|].
  rewrite concat_cons by discriminate. cbn [append].
  rewrite allChars_app, Hx. exact IH.
Qed.

Lemma camelCase_clean (v : string) :
  Js.includes "_" (camelCase v) = false.
Proof.
  rewrite includes_char. apply negb_false_iff.
  unfold camelCase, Js.join, Js.split.
  apply concat_clean, mapIndexed_clean, split_underscore. lia.
Qed.

Lemma searchFrom_bol_later (r : regex) (rest0 : string) :
  forall prev0 i, 1 <= i -> searchFrom (Seq Bol r) prev0 rest0 i = None.
Proof.
  induction rest0 as [|c t IH]; intros prev0 i L; cbn [searchFrom run pos].
  - destruct i; [lia | reflexivity].
  - destruct i; [lia|]. cbn [Nat.eqb]. apply IH. lia.
Qed.

(** A name that passes the upper-case test starts with an upper-case
    letter. *)
Lemma startsUpper_head (v : string) :
  startsUpper v = true ->
  exists c r, v = String c r /\ Js.isUpper c = true.
Proof.
  unfold startsUpper, test, exec. cbn [Nat.ltb Nat.leb charBefore].
  rewrite dropn_0. destruct v as [|c r]; cbn [searchFrom run pos rest Nat.eqb].
  - discriminate.
  - destruct (Js.isUpper c) eqn:U; [intros _; now exists c, r|].
    rewrite searchFrom_bol_later by lia. discriminate.
Qed.

Lemma camelCase_no_underscore (c : ascii) (r : string) :
  Js.includes "_" (String c r) = false ->
  camelCase (String c r) = String (Js.toLowerChar c) r.
Proof.
  intros H. unfold camelCase. rewrite (split_absent "_" _ H).
  reflexivity.
Qed.

End CorrectedNames.

Section FixPassFacts.

Import Engine.

(** A fix pass in which no rule takes part runs no analysis: the code
    and the counters come back untouched. *)
Lemma applyLoop_inactive (w : Window.t) (config : Config.t)
      (formSelection code : string) (counters : Counters) :
  forall rules,
    Forall (fun r => autoFixActive config (nameOf r) = false) rules ->
    applyLoop rules w config formSelection code counters = (Ok code, counters).
Proof.
  induction rules as [|r rules IH]; intros F; [reflexivity|].
  inversion F as [|? ? A F']; subst. cbn [applyLoop].
  unfold autoFixActive in A.
  destruct (ruleConfigWithDefaults config (name r)) as [rc|]; [|now apply IH].
  destruct (Js.truthyBool (RuleConfig.enabled rc)); cbn [negb];
    [|now apply IH].
  destruct (Js.truthyBool (RuleConfig.autoFixEnabled rc)); cbn [negb];
    [discriminate A | now apply IH].
Qed.

End FixPassFacts.

(** ** When the analysis throws *)

Section Totality.

Import Engine.

Lemma finish_total (acc : LoopAcc) :
  thrown acc = None -> exists sugs c', finish acc = (Ok sugs, c').
Proof. intros T. unfold finish. rewrite T. now eexists; eexists. Qed.

(** The common prologue with a rule table never throws by itself. *)
Lemma ruleProlog_total (ruleName : string) (lineNumber : nat)
      (context : Context.t) (config : Config.t) (counter0 : nat)
      (body : RuleConfig.t -> nat -> Exc (list Suggestion.t) * nat) :
  Config.suggestionRules config <> None ->
  (forall rc c, exists sugs c', body rc c = (Ok sugs, c')) ->
  exists sugs c',
    ruleProlog ruleName lineNumber context config counter0 body
    = (Ok sugs, c').
Proof.
  intros T B. unfold ruleProlog, Config.ruleEntry. cbv zeta.
  destruct (Context.isInComment context); [now eexists; eexists|].
  destruct (Config.suggestionRules config) as [rules|]; [|congruence].
  destruct (Config.lookup ruleName rules) as [rc|]; [|now eexists; eexists].
  destruct (negb _); [now eexists; eexists | apply B].
Qed.

Lemma loop_total {M : Type} (step : LoopAcc -> M -> LoopAcc) (ms : list M)
      (c : nat) :
  (forall acc m, In m ms -> thrown acc = None -> thrown (step acc m) = None) ->
  exists sugs c', finish (fold_left step ms (MkAcc [] c [] None)) = (Ok sugs, c').
Proof.
  intros H. apply finish_total.
  apply (fold_left_invariant (fun acc => thrown acc = None)); [exact H|].
  reflexivity.
Qed.

Lemma all_rules_return (lines : list string) (context : Context.t)
      (config : Config.t) :
  Config.suggestionRules config <> None ->
  Forall (Returns lines context config) DSL_RULES.
Proof.
  intros T. unfold DSL_RULES.
  constructor.
  { intros line n c. cbn [check DivisionOperations.rule].
    unfold DivisionOperations.check. apply ruleProlog_total; [exact T|].
    intros rc c0. destruct (_ && _); [now eexists; eexists|].
    apply loop_total. intros acc m _ A.
    unfold DivisionOperations.checkStep. rewrite A.
    cbv zeta.
    destruct (DSLRuleUtils.isInsideString line (Regex.index m));
      [assumption|].
    destruct (_ || _); [assumption|].
    destruct (existsb _ _); [assumption|].
    destruct (isAlreadyWrapped_string_total
                (DSLRuleUtils.removeStringLiterals line)
                (DivisionOperations._extractExpression
                   (DSLRuleUtils.removeStringLiterals line) (Regex.index m))
                rc) as [b ->].
    destruct b; reflexivity. }
  constructor.
  { intros line n c. cbn [check QueryFunctions.rule].
    unfold QueryFunctions.check. apply ruleProlog_total; [exact T|].
    intros rc c0. cbv zeta. destruct (0 <? _); [|now eexists; eexists].
    apply loop_total. intros acc m _ A.
    unfold QueryFunctions.checkStep. keeps_thrown. }
  constructor.
  { intros line n c. cbn [check UniqueKey.rule].
    unfold UniqueKey.check. apply ruleProlog_total; [exact T|].
    intros rc c0. apply loop_total. intros acc m _ A.
    unfold UniqueKey.checkStep. keeps_thrown. }
  constructor.
  { intros line n c. cbn [check VariableNaming.rule].
    unfold VariableNaming.check. apply ruleProlog_total; [exact T|].
    intros rc c0. apply loop_total. intros acc m _ A.
    unfold VariableNaming.checkStep. keeps_thrown. }
  constructor.
  { intros line n c. cbn [check NonOptimalNodeAccess.rule].
    unfold NonOptimalNodeAccess.check. apply ruleProlog_total; [exact T|].
    intros rc c0. apply loop_total. intros acc m _ A.
    unfold NonOptimalNodeAccess.checkStep. keeps_thrown. }
  constructor.
  { intros line n c. cbn [check NullAccessProtection.rule].
    unfold NullAccessProtection.check. apply ruleProlog_total; [exact T|].
    intros rc c0. apply loop_total. intros acc m _ A.
    unfold NullAccessProtection.checkStep. keeps_thrown. }
  constructor.
  { intros line n c. cbn [check MathOperationsParens.rule].
    unfold MathOperationsParens.check. apply ruleProlog_total; [exact T|].
    intros rc c0. apply loop_total. intros acc m _ A.
    unfold MathOperationsParens.checkStep. keeps_thrown. }
  constructor; [|constructor].
  intros line n c. cbn [check ExtraneousBlocks.rule].
  unfold ExtraneousBlocks.check. apply ruleProlog_total; [exact T|].
  intros rc c0. cbv zeta. apply finish_total.
  destruct (ExtraneousBlocks._checkBlockFunction n lines rc c0) as [[b|] c1];
    repeat match goal with
           | |- context [if ?b then _ else _] => destruct b
           end;
    reflexivity.
Qed.

Lemma lineLoop_total (r : Rule) (lines : list string) (context : Context.t)
      (config : Config.t) :
  Returns lines context config r ->
  forall remaining lineNum c acc,
    exists res c',
      lineLoop r lines context config remaining lineNum c acc = (Ok res, c').
Proof.
  intros HR. induction remaining as [|line rest IH]; intros lineNum c acc.
  - now exists acc, c.
  - cbn [lineLoop]. destruct (HR line (lineNum + 1) c) as (sugs & c1 & ->).
    apply IH.
Qed.

Lemma ruleLoop_total (lines : list string) (context : Context.t)
      (config : Config.t) :
  forall rules counters acc,
    Forall (Returns lines context config) rules ->
    exists res counters',
      ruleLoop rules counters lines context config acc = (Ok res, counters').
Proof.
  induction rules as [|r more IH]; intros counters acc HR.
  - now exists acc, [].
  - inversion HR as [|? ? HR1 HR2]; subst. cbn [ruleLoop].
    destruct (lineLoop_total r lines context config HR1 lines 0
                             (hd 0 counters) acc) as (acc1 & c1 & ->).
    destruct (IH (tl counters) acc1 HR2) as (res & cs & ->).
    now exists res, (c1 :: cs).
Qed.

Lemma analyzeDSL_total (code : string) (options : Options) (w : Window.t)
      (counters : Counters) :
  Config.suggestionRules (configOf options w) <> None ->
  exists r counters',
    analyzeDSL code options w counters = (Ok r, counters').
Proof.
  intros T. unfold analyzeDSL. cbv zeta.
  destruct (ruleLoop_total (Js.split NL code)
              (Context.Make (Js.split NL code)
                            (List.length (Js.split NL code)) false)
              (configOf options w) DSL_RULES counters []
              (all_rules_return _ _ _ T)) as (res & cs & ->).
  now eexists; eexists.
Qed.

End Totality.

(** ** Counting the statements of a block *)

Section StatementCount.

Import Regex ExtraneousBlocks.

Lemma expand_empty (whole before after : string) :
  expand "" whole before after = "".
Proof. reflexivity. Qed.

(** Removing matches keeps only characters of the input. *)
Lemma replaceLoop_clean (f : ascii -> bool) (input : string)
      (ms : list MatchResult) :
  allChars f input = true ->
  forall last, allChars f (replaceLoop input "" ms last) = true.
Proof.
  intros H. induction ms as [|m ms IH]; intros last; cbn [replaceLoop].
  - now apply allChars_dropn.
  - rewrite expand_empty. cbn [append]. rewrite allChars_app, IH.
    unfold Js.substring. rewrite allChars_taken; [reflexivity|].
    now apply allChars_dropn.
Qed.

Lemma trim_clean (f : ascii -> bool) (s : string) :
  allChars f s = true -> allChars f (Js.trim s) = true.
Proof.
  intros H. unfold Js.trim.
  destruct (trimStart_suffix s) as [n E].
  destruct (trimEnd_prefix (Js.trimStart s)) as [t P].
  assert (A : allChars f (Js.trimStart s) = true)
    by (rewrite E; now apply allChars_dropn).
  rewrite P, allChars_app in A. now apply andb_prop in A.
Qed.

Lemma countCommas_none (s : string) :
  allChars (fun d => negb (Ascii.eqb d ","%char)) s = true ->
  forall depth commaCount, countCommas s depth commaCount = commaCount.
Proof.
  induction s as [|c s IH]; intros H depth commaCount; [reflexivity|].
  cbn [allChars] in H. apply andb_prop in H. destruct H as [Hc H].
  apply negb_true_iff in Hc. cbn [countCommas]. rewrite Hc. cbn [andb].
  destruct (_ || _); [now apply IH|].
  destruct (_ || _); now apply IH.
Qed.

Lemma countStatements_without_comma (content : string) :
  Js.includes "," content = false ->
  _countStatements content
  = if String.eqb
         (Js.trim (replaceAll lineComment ""
                              (replaceAll blockComment "" content))) ""
    then 0 else 1.
Proof.
  intros H. rewrite includes_char in H. apply negb_false_iff in H.
  unfold _countStatements. cbv zeta.
  set (trimmed := Js.trim _).
  assert (C : allChars (fun d => negb (Ascii.eqb d ","%char)) trimmed = true).
  { apply trim_clean. unfold replaceAll.
    apply replaceLoop_clean. now apply replaceLoop_clean. }
  destruct (String.eqb trimmed "") eqn:E; [reflexivity|].
  rewrite (countCommas_none trimmed C).
  destruct trimmed; [discriminate E | reflexivity].
Qed.

End StatementCount.

(** ** What a match and its groups hold *)

Section Captures.

Import Regex.

Lemma follows_refl (s : mstate) : follows "" s s.
Proof. split; [reflexivity | cbn; lia]. Qed.

Lemma follows_trans (a b : string) (s1 s2 s3 : mstate) :
  follows a s1 s2 -> follows b s2 s3 -> follows (a ++ b) s1 s3.
Proof.
  intros [R1 P1] [R2 P2]. split.
  - now rewrite R1, R2, append_assoc.
  - rewrite append_length. lia.
Qed.

Lemma starLoop_follows
      (body : (mstate -> option mstate) -> mstate -> option mstate)
      (gf : bool) (greedy : bool) (k : mstate -> option mstate) :
  (forall k s x, body k s = Some x ->
                 exists a s', follows a s s'
                              /\ (gf = true -> caps s' = caps s)
                              /\ k s' = Some x) ->
  forall fuel s x,
    starLoop body greedy k fuel s = Some x ->
    exists a s', follows a s s'
                 /\ (gf = true -> caps s' = caps s)
                 /\ k s' = Some x.
Proof.
  intros Hbody.
  assert (Stay : forall s x, k s = Some x ->
                             exists a s', follows a s s'
                                          /\ (gf = true -> caps s' = caps s)
                                          /\ k s' = Some x).
  { intros s x H. exists "", s. split; [apply follows_refl|]. now split. }
  induction fuel as [|fuel IHf]; intros s x H; cbn [starLoop] in H;
    [now apply Stay|].
  assert (A : forall y,
             body (fun s' =>
                     if String.length (rest s') <? String.length (rest s)
                     then starLoop body greedy k fuel s' else None) s
             = Some y ->
             exists a s', follows a s s'
                          /\ (gf = true -> caps s' = caps s)
                          /\ k s' = Some y).
  { intros y Hy. apply Hbody in Hy. destruct Hy as (a1 & s1 & F1 & C1 & Hy).
    destruct (String.length (rest s1) <? String.length (rest s));
      [|discriminate].
    apply IHf in Hy. destruct Hy as (a2 & s2 & F2 & C2 & Hy).
    exists (a1 ++ a2), s2. split; [eapply follows_trans; eassumption|].
    split; [|assumption]. intros G. rewrite (C2 G). now apply C1. }
  cbv zeta in H. destruct greedy; apply orElse_some in H;
    destruct H as [H|H]; solve [now apply A | now apply Stay].
Qed.

(** Whatever the continuation accepts was reached by consuming a piece of
    the input ahead; a pattern without group leaves the captures alone. *)
Lemma run_follows (r : regex) :
  forall k s x,
    run r k s = Some x ->
    exists a s', follows a s s'
                 /\ (groupFree r = true -> caps s' = caps s)
                 /\ k s' = Some x.
Proof.
  assert (Stay : forall (k : mstate -> option mstate) s x (b : bool),
             k s = Some x ->
             exists a s', follows a s s'
                          /\ (b = true -> caps s' = caps s)
                          /\ k s' = Some x).
  { intros k s x b H. exists "", s. split; [apply follows_refl|]. now split. }
  assert (Step : forall (k : mstate -> option mstate) s x d t (b : bool),
             rest s = String d t ->
             k (advance d t s) = Some x ->
             exists a s', follows a s s'
                          /\ (b = true -> caps s' = caps s)
                          /\ k s' = Some x).
  { intros k s x d t b E H. exists (String d ""), (advance d t s).
    split; [|now split].
    split; [now rewrite E | cbn; lia]. }
  induction r as [ | c | f | r1 IH1 r2 IH2 | r1 IH1 r2 IH2 | g r0 IH
                   | n r0 IH | r0 IH | | | ]; intros k s x H;
    cbn [run groupFree] in *.
  - now apply Stay.
  - destruct (rest s) as [|d t] eqn:E; [discriminate|].
    destruct (Ascii.eqb c d); [|discriminate]. eapply Step; eassumption.
  - destruct (rest s) as [|d t] eqn:E; [discriminate|].
    destruct (f d); [|discriminate]. eapply Step; eassumption.
  - apply IH1 in H. destruct H as (a1 & s1 & F1 & C1 & H).
    apply IH2 in H. destruct H as (a2 & s2 & F2 & C2 & H).
    exists (a1 ++ a2), s2. split; [eapply follows_trans; eassumption|].
    split; [|assumption]. intros G. apply andb_prop in G.
    destruct G as [G1 G2]. rewrite (C2 G2). now apply C1.
  - apply orElse_some in H. destruct H as [H|H].
    + apply IH1 in H. destruct H as (a1 & s1 & F1 & C1 & H).
      exists a1, s1. split; [assumption|]. split; [|assumption].
      intros G. apply andb_prop in G. now apply C1.
    + apply IH2 in H. destruct H as (a1 & s1 & F1 & C1 & H).
      exists a1, s1. split; [assumption|]. split; [|assumption].
      intros G. apply andb_prop in G. now apply C1.
  - eapply (starLoop_follows (run r0) (groupFree r0)); eassumption.
  - apply IH in H. destruct H as (a1 & s1 & F1 & _ & H).
    exists a1, (setCap n (pos s) (pos s1) s1).
    split; [exact F1|]. split; [discriminate | exact H].
  - destruct (run r0 Some s); [discriminate|]. now apply Stay.
  - destruct (xorb _ _); [|discriminate]. now apply Stay.
  - destruct (pos s =? 0); [|discriminate]. now apply Stay.
  - destruct (rest s); [|discriminate]. now apply Stay.
Qed.

(** A match reported by a search was found by the matcher, started at the
    index of the match on the input from there on. *)
Lemma searchFrom_run (r : regex) (rest0 : string) :
  forall prev0 i m,
    searchFrom r prev0 rest0 i = Some m ->
    i <= index m
    /\ exists p x,
        run r Some (MState (index m) p (Js.dropn (index m - i) rest0) [])
        = Some x
        /\ mend m = pos x /\ captures m = caps x.
Proof.
  induction rest0 as [|c t IH]; intros prev0 i m H; cbn [searchFrom] in H.
  - destruct (run r Some (MState i prev0 "" [])) as [x|] eqn:E;
      [|discriminate].
    injection H as <-. cbn [index mend captures]. rewrite Nat.sub_diag.
    split; [lia|]. exists prev0, x. now repeat split.
  - destruct (run r Some (MState i prev0 (String c t) [])) as [x|] eqn:E.
    + injection H as <-. cbn [index mend captures]. rewrite Nat.sub_diag.
      split; [lia|]. exists prev0, x. now repeat split.
    + apply IH in H. destruct H as (L & p & x & R & M & C).
      split; [lia|]. exists p, x.
      replace (index m - i) with (S (index m - S i)) by lia.
      now repeat split.
Qed.

Lemma execLoop_run (r : regex) (input : string) (fuel : nat) :
  forall lastIndex m,
    In m (execLoop fuel r input lastIndex) ->
    exists p x,
      run r Some (MState (index m) p (Js.dropn (index m) input) []) = Some x
      /\ mend m = pos x /\ captures m = caps x.
Proof.
  induction fuel as [|fuel IH]; intros lastIndex m H; cbn [execLoop] in H.
  - destruct H.
  - destruct (exec r input lastIndex) as [m0|] eqn:E; [|destruct H].
    destruct H as [<-|H].
    + unfold exec in E. destruct (String.length input <? lastIndex);
        [discriminate|].
      apply searchFrom_run in E. destruct E as (L & p & x & R & M & C).
      rewrite dropn_dropn in R.
      replace (lastIndex + (index m0 - lastIndex)) with (index m0) in R by lia.
      now exists p, x.
    + destruct (mend m0 <=? lastIndex); [destruct H|].
      eapply IH; eassumption.
Qed.

Lemma substring_ordered (a b : nat) (s : string) :
  a <= b -> Js.substring a b s = Js.taken (b - a) (Js.dropn a s).
Proof.
  intros L. unfold Js.substring.
  replace (Nat.min a b) with a by lia.
  now replace (Nat.max a b) with b by lia.
Qed.

(** For a match of the property-access pattern, group 1, a dot and group 2
    make up the whole match. *)
Lemma propertyAccess_parts (input : string) (m : MatchResult) :
  In m (execAll NullAccessProtection.propertyAccessPattern input) ->
  group input m 1 ++ "." ++ group input m 2 = matched input m.
Proof.
  intros H. apply execLoop_run in H. destruct H as (p & x & R & M & C).
  unfold NullAccessProtection.propertyAccessPattern in R.
  rewrite run_seq, run_group in R.
  apply run_follows in R. destruct R as (a1 & s1 & [R1 P1] & C1 & R).
  specialize (C1 eq_refl). cbn [rest pos caps] in R1, P1, C1.
  rewrite run_seq in R. cbn [run setCap rest] in R.
  destruct (rest s1) as [|d t] eqn:E1; [discriminate|].
  destruct (Ascii.eqb "." d) eqn:Ed; [|discriminate].
  apply Ascii.eqb_eq in Ed. subst d.
  apply run_follows in R. destruct R as (a2 & s3 & [R2 P2] & C2 & R).
  specialize (C2 eq_refl).
  cbn [rest pos caps advance setCap] in R2, P2, C2, R.
  injection R as <-.
  unfold group, matched. rewrite C, M.
  cbn [caps setCap lookupCap Nat.eqb pos]. rewrite C2.
  cbn [lookupCap Nat.eqb]. rewrite P2, P1.
  rewrite !substring_ordered by lia. subst t.
  assert (T1 : Js.taken (String.length a1) (Js.dropn (index m) input) = a1)
    by (rewrite R1; apply taken_app).
  assert (T2 : Js.taken (String.length a2)
                        (Js.dropn (S (index m + String.length a1)) input)
               = a2).
  { replace (S (index m + String.length a1))
      with (index m + String.length (a1 ++ "."))
      by (rewrite append_length; cbn [String.length]; lia).
    rewrite <- dropn_dropn, R1.
    replace (a1 ++ String "."%char (a2 ++ rest s3))
      with ((a1 ++ ".") ++ a2 ++ rest s3) by (now rewrite append_assoc).
    rewrite dropn_app. apply taken_app. }
  assert (T3 : Js.taken (String.length ((a1 ++ ".") ++ a2))
                        (Js.dropn (index m) input)
               = (a1 ++ ".") ++ a2).
  { rewrite R1.
    replace (a1 ++ String "."%char (a2 ++ rest s3))
      with (((a1 ++ ".") ++ a2) ++ rest s3) by (now rewrite !append_assoc).
    apply taken_app. }
  replace (index m + String.length a1 - index m) with (String.length a1)
    by lia.
  replace (S (index m + String.length a1) + String.length a2
           - S (index m + String.length a1)) with (String.length a2) by lia.
  replace (S (index m + String.length a1) + String.length a2 - index m)
    with (String.length ((a1 ++ ".") ++ a2))
    by (rewrite !append_length; cbn [String.length]; lia).
  rewrite T1, T2, T3. now rewrite append_assoc.
Qed.

End Captures.

(** ** Where [original] lies in the masked line *)

Section Positions.

Import DSLRuleUtils.

Lemma nullAccess_quotes (lines : list string) (context : Context.t)
      (config : Config.t) :
  CheckGives (OriginalAtColumn lines) lines context config
             NullAccessProtection.rule.
Proof.
  intros i line c sugs c' N H.
  cbn [check NullAccessProtection.rule] in H.
  unfold NullAccessProtection.check in H.
  apply ruleProlog_ok in H. destruct H as [[-> _]|(rc & _ & H)];
    [constructor|].
  apply finish_ok in H. destruct H as [-> _].
  eapply (quoting_suggestions (i + 1) _ lines i line); try reflexivity;
    [exact N|].
  apply fold_left_invariant; [|constructor].
  intros acc m I A. unfold NullAccessProtection.checkStep. cbv zeta.
  destruct (isInsideString line (Regex.index m)); [assumption|].
  destruct (String.eqb _ "("); [assumption|].
  destruct (_ && _); [|assumption].
  unfold pushSuggestion. cbn [suggestions].
  apply Forall_app. split; [exact A|]. constructor; [|constructor].
  split; [reflexivity|]. exists m.
  split; [eapply execAll_ordered; exact I|]. split; [reflexivity|].
  cbn [Suggestion.original]. f_equal. now apply propertyAccess_parts.
Qed.

Lemma quoting_rules3 (lines : list string) (context : Context.t)
      (config : Config.t) :
  Forall (CheckGives
            (fun s => quotesAtColumn s = true -> OriginalAtColumn lines s)
            lines context config)
         DSL_RULES.
Proof.
  pose proof all_rules_spec as HS. unfold DSL_RULES in *.
  repeat match goal with
         | X : Forall CheckSpec (_ :: _) |- _ =>
             inversion X as [|? ? ? ?]; subst; clear X
         end.
  assert (Other : forall r,
             CheckSpec r ->
             quotingRule (nameOf r) = false ->
             CheckGives
               (fun s => quotesAtColumn s = true -> OriginalAtColumn lines s)
               lines context config r).
  { intros r Sr Nq. apply named_findings; [exact Sr|].
    intros s R Q. unfold quotesAtColumn in Q. rewrite R in Q. congruence. }
  assert (Quote : forall r,
             CheckGives (OriginalAtColumn lines) lines context config r ->
             CheckGives
               (fun s => quotesAtColumn s = true -> OriginalAtColumn lines s)
               lines context config r).
  { intros r G i line c sugs c' Nth Hchk.
    eapply Forall_impl; [|exact (G i line c sugs c' Nth Hchk)].
    now intros s Q _. }
  constructor; [apply Other; [assumption|reflexivity]|].
  constructor; [apply Other; [assumption|reflexivity]|].
  constructor; [apply Other; [assumption|reflexivity]|].
  constructor; [apply Other; [assumption|reflexivity]|].
  constructor; [apply Quote, nodeAccess_quotes|].
  constructor; [apply Quote, nullAccess_quotes|].
  constructor; [apply Quote, math_quotes|].
  constructor; [apply Other; [assumption|reflexivity]|].
  constructor.
Qed.

Lemma allChars_white (s : string) : allChars Js.isWhite s = Js.allWhite s.
Proof. induction s as [|c s IH]; cbn; [reflexivity | now rewrite IH]. Qed.

Lemma trimEnd_split (s : string) :
  exists w, s = Js.trimEnd s ++ w /\ allChars Js.isWhite w = true.
Proof.
  induction s as [|c s (w & E & W)]; [now exists ""|].
  cbn [Js.trimEnd]. destruct (Js.allWhite (String c s)) eqn:A.
  - exists (String c s). split; [reflexivity|]. now rewrite allChars_white.
  - exists w. cbn [append]. now rewrite <- E.
Qed.

(** A string is white space, its trimmed text, and white space. *)
Lemma trim_split (s : string) :
  exists w1 w2,
    s = w1 ++ Js.trim s ++ w2
    /\ allChars Js.isWhite w1 = true /\ allChars Js.isWhite w2 = true.
Proof.
  destruct (trimStart_split s) as (w1 & E1 & W1 & _).
  destruct (trimEnd_split (Js.trimStart s)) as (w2 & E2 & W2).
  exists w1, w2. unfold Js.trim. rewrite <- E2. now repeat split.
Qed.

Lemma allChars_get (f : ascii -> bool) (s : string) :
  forall k c, allChars f s = true -> String.get k s = Some c -> f c = true.
Proof.
  induction s as [|d s IH]; intros [|k] c A G; cbn in *; try discriminate;
    apply andb_prop in A; destruct A as [A1 A2].
  - now injection G as <-.
  - eapply IH; eassumption.
Qed.

Lemma get_length (s : string) :
  forall k c, String.get k s = Some c -> k < String.length s.
Proof.
  induction s as [|d s IH]; intros [|k] c G; cbn in *; try discriminate;
    [lia|].
  apply IH in G. lia.
Qed.

(** A character that is not white space lies inside the trimmed text. *)
Lemma trim_keeps (s w1 w2 : string) (k : nat) (c : ascii) :
  s = w1 ++ Js.trim s ++ w2 ->
  allChars Js.isWhite w1 = true ->
  allChars Js.isWhite w2 = true ->
  String.get k s = Some c ->
  Js.isWhite c = false ->
  String.length w1 <= k < String.length w1 + String.length (Js.trim s).
Proof.
  intros E W1 W2 G Wc. rewrite E in G.
  destruct (Nat.lt_ge_cases k (String.length w1)) as [L|L].
  { rewrite <- append_correct1 in G by exact L.
    rewrite (allChars_get _ _ _ _ W1 G) in Wc. discriminate. }
  split; [exact L|].
  destruct (Nat.lt_ge_cases k (String.length w1 + String.length (Js.trim s)))
    as [L2|L2]; [exact L2|].
  exfalso.
  replace k with (k - String.length w1 + String.length w1) in G by lia.
  rewrite <- append_correct2 in G.
  replace (k - String.length w1)
    with (k - String.length w1 - String.length (Js.trim s)
          + String.length (Js.trim s)) in G by lia.
  rewrite <- append_correct2 in G.
  rewrite (allChars_get _ _ _ _ W2 G) in Wc. discriminate.
Qed.

(** The expression extracted around an operator is a piece of the line
    that starts at or before the operator and ends after it. *)
Lemma extract_spans (line : string) (p : nat) :
  String.get p line = Some "/"%char ->
  exists start,
    start <= p
    < start + String.length (DivisionOperations._extractExpression line p)
    /\ Js.substr start
                 (String.length (DivisionOperations._extractExpression line p))
                 line
       = DivisionOperations._extractExpression line p.
Proof.
  intros G. unfold DivisionOperations._extractExpression. cbv zeta.
  pose proof (scanBack_le line p) as B.
  pose proof (scanForward_ge (Js.dropn (p + 1) line) (p + 1)) as F.
  set (st := DivisionOperations.scanBack line p) in *.
  set (en := DivisionOperations.scanForward _ _) in *.
  set (s0 := Js.substring st en line).
  assert (S0 : s0 = Js.taken (en - st) (Js.dropn st line))
    by (apply substring_ordered; lia).
  assert (G1 : String.get (p - st) s0 = Some "/"%char).
  { rewrite S0, get_taken by lia. rewrite get_dropn.
    now replace (st + (p - st)) with p by lia. }
  destruct (trim_split s0) as (w1 & w2 & E & W1 & W2).
  pose proof (trim_keeps s0 w1 w2 _ _ E W1 W2 G1 eq_refl) as K.
  exists (st + String.length w1). split; [lia|].
  unfold Js.substr. rewrite <- dropn_dropn.
  rewrite <- (taken_dropn (Js.dropn st line) (en - st)), <- S0.
  rewrite E at 2. rewrite append_assoc, dropn_app, append_assoc.
  apply taken_app.
Qed.

(** The division findings of a block, seen from the masked lines. *)
Lemma block_spans (lines : list string) (r : Rule)
      (block : list Suggestion.t) :
  BlockOf lines r block ->
  Forall (fun s =>
            Suggestion.rule s = DivisionOperations.name ->
            OriginalSpansColumn lines s)
         block.
Proof.
  intros (F & _). eapply Forall_impl; [|exact F].
  intros s (_ & _ & lineText & N & _ & A & _) R.
  destruct (A R) as (G & O).
  destruct (extract_spans _ _ G) as (start & L & E).
  exists lineText,
    (DivisionOperations._extractExpression (removeStringLiterals lineText)
                                           (Suggestion.column s)),
    start.
  split; [exact N|]. split; [exact O|]. split; [exact G|].
  split; [exact L | exact E].
Qed.

Lemma blocks_span (lines : list string) (rules : list Rule)
      (blocks : list (list Suggestion.t)) :
  Forall2 (BlockOf lines) rules blocks ->
  Forall (fun s =>
            Suggestion.rule s = DivisionOperations.name ->
            OriginalSpansColumn lines s)
         (List.concat blocks).
Proof.
  induction 1 as [|r b rules blocks B F2 IH]; [constructor|].
  cbn [List.concat]. apply Forall_app. split; [|exact IH].
  eapply block_spans. exact B.
Qed.

Lemma blocks_point (lines : list string) (rules : list Rule)
      (blocks : list (list Suggestion.t)) :
  Forall2 (BlockOf lines) rules blocks ->
  Forall (PointsIntoSource lines) (List.concat blocks).
Proof.
  induction 1 as [|r b rules blocks B F2 IH]; [constructor|].
  cbn [List.concat]. apply Forall_app. split; [|exact IH].
  destruct B as (F & _). eapply Forall_impl; [|exact F].
  intros s (_ & L & lineText & N & C & _). split; [lia|].
  exists lineText. now split.
Qed.

Lemma Forall_and3 {A : Type} (P Q R : A -> Prop) (l : list A) :
  Forall P l -> Forall Q l -> Forall R l ->
  Forall (fun x => P x /\ Q x /\ R x) l.
Proof.
  intros HP HQ HR. rewrite Forall_forall in *. intros x I.
  repeat split; auto.
Qed.

End Positions.

(** ** Expressions that already stand inside a protector call *)

Section Wrapped.

Import Regex DSLRuleUtils.











End Wrapped.

(** ** Where the suggestions point *)

(** The rules this does not hold for: queryFunctions drops the white space
    between the name and the parenthesis, uniqueKey always quotes
    [uniqueKey] whatever the case in the line, and variableNaming quotes
    the name while the column may be that of [var]. *)
Lemma other_rules_do_not_quote_at_column :
  (exists r,
      fst (Engine.analyzeDSL
             "r = query (x)"
             (Some (Samples.onlyRule "queryFunctions"
                      (RuleConfig.Make (Some true) None None None None None
                                       None None (Some ["query"]))))
             Samples.bareWindow Engine.freshCounters) = Ok r
      /\ map (fun s => (Suggestion.column s, Suggestion.original s))
             (Engine.suggestions r) = [(4, Some "query(")]
      /\ Js.substr 4 6 "r = query (x)" = "query ")
  /\ (exists r,
         fst (Engine.analyzeDSL
                "k = UNIQUEKEY(a)"
                (Some (Samples.onlyRule "uniqueKey"
                                        (Samples.fixable None None)))
                Samples.bareWindow Engine.freshCounters) = Ok r
         /\ map (fun s => (Suggestion.column s, Suggestion.original s))
                (Engine.suggestions r) = [(4, Some "uniqueKey")])
  /\ (exists r,
         fst (Engine.analyzeDSL
                "var my_x = 1" (Some Samples.namingConfig)
                Samples.bareWindow Engine.freshCounters) = Ok r
         /\ map (fun s => (Suggestion.column s, Suggestion.original s))
                (Engine.suggestions r) = [(0, Some "my_x")]).
Proof.
  split; [|split]; eexists; repeat split; vm_compute; reflexivity.
Qed.

(** C7 (amended): every suggestion returned by [analyzeDSL] has a line
    between 1 and the number of lines and a column inside that line. For
    a finding of nullAccessProtection, mathOperationsParens or
    nonOptimalNodeAccess, [original] is exactly the text that the masked
    line holds at the column. For a finding of the division rule the
    column holds the operator [/] in the masked line and [original] is a
    piece of the masked line that starts at or before the column and ends
    after it. *)
Theorem C7_suggestions_point_into_source :
  forall code options w counters r counters',
    Engine.analyzeDSL code options w counters
    = (Ok r, counters') ->
    Forall (fun s =>
              PointsIntoSource (Js.split NL code) s
              /\ (quotesAtColumn s = true ->
                  OriginalAtColumn (Js.split NL code) s)
              /\ (Suggestion.rule s = DivisionOperations.name ->
                  OriginalSpansColumn (Js.split NL code) s))
           (Engine.suggestions r).
Proof.
  intros code options w counters r counters' H.
  apply Forall_and3.
  - apply analyzeDSL_blocks in H. destruct H as (blocks & -> & F2).
    eapply blocks_point. exact F2.
  - revert H. apply analyzeDSL_forall. apply quoting_rules3.
  - apply analyzeDSL_blocks in H. destruct H as (blocks & -> & F2).
    eapply blocks_span. exact F2.
Qed.

Lemma C7_suggestions_point_into_source_witness :
  exists r counters',
    Engine.analyzeDSL Samples.accessThenDivision (Some Samples.twoRules)
                      Samples.bareWindow []
    = (Ok r, counters')
    /\ map (fun s => (Suggestion.column s, Suggestion.original s))
           (Engine.suggestions r)
       = [(6, Some "a / b"); (4, Some "obj.prop")]
    /\ Forall (fun s =>
                 PointsIntoSource (Js.split NL Samples.accessThenDivision) s
                 /\ (quotesAtColumn s = true ->
                     OriginalAtColumn (Js.split NL Samples.accessThenDivision)
                                      s)
                 /\ (Suggestion.rule s = DivisionOperations.name ->
                     OriginalSpansColumn
                       (Js.split NL Samples.accessThenDivision) s))
              (Engine.suggestions r).
Proof.
  destruct (Engine.analyzeDSL Samples.accessThenDivision
              (Some Samples.twoRules) Samples.bareWindow [])
    as [[r|e] counters'] eqn:E.
  - exists r, counters'. split; [reflexivity|]. split.
    + vm_compute in E. injection E as <- _. reflexivity.
    + exact (C7_suggestions_point_into_source _ _ _ _ _ _ E).
  - exfalso. vm_compute in E. discriminate E.
Defined.

(** ** Further properties of the engine, the rules and the utilities *)

(** X1: the summary of a successful analysis counts the suggestions:
    [total] is their number, and under a severity (under a type) that is
    not a key inherited from [Object.prototype] the summary holds the
    number of suggestions of that severity (whose message carries that
    type), nothing when there is none. [byType] and [bySeverity] being
    plain objects, an inherited key that occurs holds a string instead of
    a number, and [__proto__] holds nothing; the numbers of either
    grouping add up to the number of suggestions filed under keys that
    are not inherited. *)
Theorem summary_counts_the_suggestions
        (code : string) (options : Engine.Options) (w : Window.t)
        (counters : Engine.Counters) (r : Engine.AnalysisResult)
        (counters' : Engine.Counters) :
  Engine.analyzeDSL code options w counters = (Ok r, counters') ->
  let s := Engine.summary r in
  Engine.total s = List.length (Engine.suggestions r)
  /\ (forall k,
         entryOf k (Engine.bySeverity s)
         = expectedEntry
             k (countIf (fun x => String.eqb (Suggestion.severity x) k)
                        (Engine.suggestions r)))
  /\ (forall k,
         entryOf k (Engine.byType s)
         = expectedEntry
             k (countIf (fun x => String.eqb
                                    (Engine.typeOf (Suggestion.message x)) k)
                        (Engine.suggestions r)))
  /\ sumCounts (Engine.bySeverity s)
     = countIf (fun x => negb (Js.isProtoKey (Suggestion.severity x)))
               (Engine.suggestions r)
  /\ sumCounts (Engine.byType s)
     = countIf (fun x => negb (Js.isProtoKey
                                 (Engine.typeOf (Suggestion.message x))))
               (Engine.suggestions r).
Proof.
  intros H. apply analyzeDSL_summary in H. cbv zeta. rewrite H.
  unfold Engine.summarize.
  pose proof (summarize_loop (Engine.suggestions r)
                (Engine.MkSummary (List.length (Engine.suggestions r)) [] [])
                (fun _ => 0) (fun _ => 0)
                (Forall_nil _) (Forall_nil _)
                (fun k => eq_refl) (fun k => eq_refl)) as L.
  cbv zeta in L. destruct L as (T & S1 & S2 & S3 & S4).
  cbn [Engine.total Engine.byType Engine.bySeverity sumCounts Nat.add] in *.
  repeat split; assumption.
Qed.

Lemma summary_counts_the_suggestions_witness :
  exists r counters',
    Engine.analyzeDSL "x = a[constructor] / b"
                      (Some (Samples.onlyRule "divisionOperations"
                               (Samples.fixable None None)))
                      Samples.bareWindow Engine.freshCounters
    = (Ok r, counters')
    /\ Engine.total (Engine.summary r) = 1
    /\ entryOf "constructor" (Engine.byType (Engine.summary r))
       = Some Engine.Textual
    /\ entryOf "warning" (Engine.bySeverity (Engine.summary r))
       = Some (Engine.Count 1).
Proof.
  destruct (Engine.analyzeDSL "x = a[constructor] / b"
              (Some (Samples.onlyRule "divisionOperations"
                       (Samples.fixable None None)))
              Samples.bareWindow Engine.freshCounters)
    as [[r|e] counters'] eqn:E.
  - exists r, counters'. split; [reflexivity|].
    destruct (summary_counts_the_suggestions _ _ _ _ _ _ E)
      as (T & S1 & S2 & _).
    rewrite T, (S1 "warning"), (S2 "constructor").
    vm_compute in E. injection E as <- _. repeat split.
  - exfalso. vm_compute in E. discriminate E.
Defined.

(** X2: after a successful analysis, for each of the eight rules, the
    findings of the rule are numbered 1, 2, ..., k in the order of the
    list, and the rule's counter is left at k, whatever the counters were
    before. *)
Theorem every_rule_numbers_its_findings
        (code : string) (options : Engine.Options) (w : Window.t)
        (counters : Engine.Counters) (r : Engine.AnalysisResult)
        (counters' : Engine.Counters) :
  Engine.analyzeDSL code options w counters = (Ok r, counters') ->
  counters'
  = map (fun rule => List.length (findingsOf rule (Engine.suggestions r)))
        DSL_RULES
  /\ Forall (fun rule =>
               map Suggestion.instanceNumber
                   (findingsOf rule (Engine.suggestions r))
               = seq 1 (List.length (findingsOf rule (Engine.suggestions r))))
            DSL_RULES.
Proof.
  unfold Engine.analyzeDSL. cbv zeta.
  destruct (Engine.ruleLoop _ _ _ _ _ _) as [[sugs|e] st] eqn:E;
    [|discriminate].
  intros H. inversion H; subst; clear H. cbn [Engine.suggestions].
  apply ruleLoop_counters in E;
    [|apply split_nonempty|apply all_rules_spec].
  destruct E as (blocks & -> & F2 & ->). cbn [app].
  pose proof (findingsOf_blocks _ _ F2) as FB.
  revert FB F2. generalize (List.concat blocks) as all.
  generalize DSL_RULES as rules. intros rules all FB.
  induction FB as [|rule b rules bs E FB IH]; intros F2.
  - split; constructor.
  - inversion F2 as [|? ? ? ? B F2']; subst.
    destruct (IH F2') as (C & N). cbn [map]. split.
    + now rewrite C.
    + constructor; [|exact N]. destruct B as (_ & _ & Num). exact Num.
Qed.

Lemma every_rule_numbers_its_findings_witness :
  exists r counters',
    Engine.analyzeDSL Samples.threeDivisions (Some Samples.divisionConfig)
                      Samples.bareWindow Samples.staleCounters
    = (Ok r, counters')
    /\ counters'
       = map (fun rule => List.length (findingsOf rule (Engine.suggestions r)))
             DSL_RULES.
Proof.
  destruct (Engine.analyzeDSL Samples.threeDivisions
              (Some Samples.divisionConfig) Samples.bareWindow
              Samples.staleCounters)
    as [[r|e] counters'] eqn:E.
  - exists r, counters'. split; [reflexivity|].
    exact (proj1 (every_rule_numbers_its_findings _ _ _ _ _ _ E)).
  - exfalso. vm_compute in E. discriminate E.
Defined.

(** X3: every suggestion of a successful analysis comes from a rule whose
    own entry in [config.suggestionRules] exists and has a truthy
    [enabled]; a rule without an entry, with [enabled] false or enabled
    only through [config.defaults] reports nothing. *)
Theorem only_enabled_rules_report
        (code : string) (options : Engine.Options) (w : Window.t)
        (counters : Engine.Counters) (r : Engine.AnalysisResult)
        (counters' : Engine.Counters) :
  Engine.analyzeDSL code options w counters = (Ok r, counters') ->
  Forall (fun s =>
            enabledIn (Engine.configOf options w) (Suggestion.rule s) = true)
         (Engine.suggestions r).
Proof.
  apply analyzeDSL_forall. apply all_rules_enabled.
Qed.

Lemma only_enabled_rules_report_witness :
  exists r counters',
    Engine.analyzeDSL Samples.accessThenDivision (Some Samples.twoRules)
                      Samples.bareWindow Engine.freshCounters
    = (Ok r, counters')
    /\ Forall (fun s =>
                 enabledIn Samples.twoRules (Suggestion.rule s) = true)
              (Engine.suggestions r).
Proof.
  destruct (Engine.analyzeDSL Samples.accessThenDivision
              (Some Samples.twoRules) Samples.bareWindow Engine.freshCounters)
    as [[r|e] counters'] eqn:E.
  - exists r, counters'. split; [reflexivity|].
    exact (only_enabled_rules_report _ _ _ _ _ _ E).
  - exfalso. vm_compute in E. discriminate E.
Defined.


(** X5: [generateCodeSuggestions] on a configuration without a rule table
    (in particular with no configuration loaded) answers every non-blank
    code with the error text, never with suggestions. *)
Theorem generate_reports_error_without_rule_table
        (code : string) (w : Window.t) (styling : option Styling.t)
        (counters : Engine.Counters) :
  String.eqb code "" || String.eqb (Js.trim code) "" = false ->
  Config.suggestionRules (Engine.configOf None w) = None ->
  Js.startsWith "Error analyzing code: "
                (fst (EngineOutput.generateCodeSuggestions
                        code w styling counters)) = true.
Proof.
  intros NB T. unfold EngineOutput.generateCodeSuggestions. rewrite NB.
  pose proof (analyzeDSL_no_table code None w counters T) as H.
  destruct (Engine.analyzeDSL code None w counters) as [[r|e] cs];
    cbn [fst] in *; [discriminate|].
  apply startsWith_self_app.
Qed.

Lemma generate_reports_error_without_rule_table_witness :
  Js.startsWith "Error analyzing code: "
                (fst (EngineOutput.generateCodeSuggestions
                        "x = a / b" Samples.bareWindow None
                        Engine.freshCounters)) = true.
Proof.
  apply generate_reports_error_without_rule_table; reflexivity.
Defined.

(** X6: with a rule table in which no rule is enabled,
    [generateCodeSuggestions] answers every non-blank code with the
    no-suggestions text; the analysis does not throw. *)
Theorem generate_finds_nothing_when_all_disabled
        (code : string) (w : Window.t) (styling : option Styling.t)
        (counters : Engine.Counters) :
  String.eqb code "" || String.eqb (Js.trim code) "" = false ->
  Config.suggestionRules (Engine.configOf None w) <> None ->
  Forall (fun r => enabledIn (Engine.configOf None w) (nameOf r) = false)
         DSL_RULES ->
  fst (EngineOutput.generateCodeSuggestions code w styling counters)
  = "No suggestions found. Code looks good!".
Proof.
  intros NB T HD. unfold EngineOutput.generateCodeSuggestions. rewrite NB.
  destruct (analyzeDSL_silent code None w counters T HD) as [cs ->].
  reflexivity.
Qed.

Lemma generate_finds_nothing_when_all_disabled_witness :
  fst (EngineOutput.generateCodeSuggestions
         "x = a / b"
         (Samples.windowWith
            (Samples.onlyRule "divisionOperations" RuleConfig.empty))
         None Engine.freshCounters)
  = "No suggestions found. Code looks good!".
Proof.
  apply generate_finds_nothing_when_all_disabled.
  - reflexivity.
  - discriminate.
  - repeat constructor.
Defined.

(** X7: masking is idempotent, and a masked line holds no string literal:
    [removeStringLiterals] applied to its own output changes nothing, and
    [isInsideString] is false at every position of a masked line. *)
Theorem masking_is_idempotent (L : string) :
  DSLRuleUtils.removeStringLiterals (DSLRuleUtils.removeStringLiterals L)
  = DSLRuleUtils.removeStringLiterals L
  /\ forall p,
      DSLRuleUtils.isInsideString (DSLRuleUtils.removeStringLiterals L) p
      = false.
Proof.
  split.
  - apply removeLoop_masked. reflexivity.
  - intros p. apply insideLoop_masked. reflexivity.
Qed.

(** X8: [removeComments] returns a prefix of the line and is idempotent;
    [isInsideComment] holds at a position exactly when [removeComments]
    cut the line strictly before it, so the first slash of the comment,
    which is removed, is not reported as inside the comment. *)
Theorem removeComments_cuts_at_first_marker (line : string) :
  (exists t, line = DSLRuleUtilsRest.removeComments line ++ t)
  /\ DSLRuleUtilsRest.removeComments (DSLRuleUtilsRest.removeComments line)
     = DSLRuleUtilsRest.removeComments line
  /\ forall p,
      DSLRuleUtilsRest.isInsideComment line p = true
      <-> (DSLRuleUtilsRest.removeComments line <> line
           /\ String.length (DSLRuleUtilsRest.removeComments line) < p).
Proof.
  unfold DSLRuleUtilsRest.removeComments, DSLRuleUtilsRest.isInsideComment.
  destruct (Js.indexOf "//" line) as [i|] eqn:E.
  - destruct (DSLRuleUtils.isInsideString line i) eqn:S; cbn [negb].
    + split; [exists ""; now rewrite append_nil_r|].
      split; [now rewrite E, S|].
      intros p. destruct (i <? p); split; try discriminate;
        intros [N _]; congruence.
    + assert (Sub : Js.substring 0 i line = Js.taken i line).
      { unfold Js.substring. cbn [Nat.min Nat.max]. rewrite Nat.sub_0_r.
        now destruct line. }
      rewrite Sub.
      pose proof E as B. unfold Js.indexOf in B.
      apply indexOfFrom_bound in B. cbn [String.length] in B.
      assert (Len : String.length (Js.taken i line) = i)
        by (rewrite taken_length; lia).
      split; [exists (Js.dropn i line); now rewrite taken_dropn|].
      split.
      * pose proof (indexOf_taken "//" line i) as T.
        unfold Js.includes in T.
        destruct (Js.indexOf "//" (Js.taken i line)); [|reflexivity].
        discriminate T; [discriminate | exact E].
      * intros p. rewrite Len. split.
        -- intros H. destruct (i <? p) eqn:L; [|discriminate].
           apply Nat.ltb_lt in L. split; [|exact L].
           intros X. rewrite X in Len. lia.
        -- intros [_ L]. apply Nat.ltb_lt in L. now rewrite L.
  - split; [exists ""; now rewrite append_nil_r|].
    split; [now rewrite E|].
    intros p. split; [discriminate | intros [N _]; congruence].
Qed.

(** X9: every portion returned by [extractNonStringPortions] is a
    non-empty piece of the line, found in the line at the portion's
    offset. *)
Theorem portions_are_pieces_of_the_line (line : string) :
  Forall (PortionOf line) (DSLRuleUtilsRest.extractNonStringPortions line).
Proof.
  unfold DSLRuleUtilsRest.extractNonStringPortions.
  apply (portionsLoop_spec line line "" [] "" 0 false None None).
  - reflexivity.
  - constructor.
  - intros _. split; reflexivity.
  - discriminate.
Qed.

(** X10: [getIndent] returns the leading white space of the line: it
    consists of white space only, and followed by the line without its
    leading white space it gives the line back. *)
Theorem getIndent_is_the_leading_white_space (line : string) :
  EngineOutput.getIndent line ++ Js.trimStart line = line
  /\ Js.allWhite (EngineOutput.getIndent line) = true.
Proof.
  destruct (trimStart_split line) as (a & E & A & H).
  assert (G : EngineOutput.getIndent line = a).
  { rewrite E at 1. now apply getIndent_prefix. }
  rewrite G. split; [now symmetry|].
  clear - A. induction a as [|c a IH]; [reflexivity|].
  cbn [allChars Js.allWhite] in *. apply andb_prop in A.
  destruct A as [-> A]. now apply IH.
Qed.

(** X11: the type that the summary of [analyzeDSL] files a message under
    is the version that [Message.formatVersioned] put in front of it, for
    every non-empty version without a closing bracket. *)
Theorem typeOf_reads_the_version (version message : string) :
  version <> "" ->
  Js.includes "]" version = false ->
  Engine.typeOf (DSLRuleUtilsRest.formatVersioned version message) = version.
Proof.
  intros NE H. unfold DSLRuleUtilsRest.formatVersioned.
  change ("] " ++ message) with (String "]"%char (String " "%char message)).
  apply typeOf_bracketed; [exact NE|].
  rewrite includes_char in H. now apply negb_false_iff in H.
Qed.

Lemma typeOf_reads_the_version_witness :
  Engine.typeOf (DSLRuleUtilsRest.formatVersioned "v1.14" "Division found")
  = "v1.14".
Proof.
  apply typeOf_reads_the_version; [discriminate | reflexivity].
Defined.

(** X12: the annotated listing shows only the suggestions of the lines
    1..n of the code, the others are dropped without notice; without
    suggestions the listing is the code itself. *)
Theorem listing_keeps_suggestions_in_range
        (code : string) (w : Window.t) (styling : option Styling.t) :
  (forall sugs,
      EngineOutput.formatSuggestionsOutput code sugs w styling
      = EngineOutput.formatSuggestionsOutput
          code
          (filter (inRange (List.length (Js.split NL code))) sugs)
          w styling)
  /\ EngineOutput.formatSuggestionsOutput code [] w styling = code.
Proof.
  unfold EngineOutput.formatSuggestionsOutput. cbv zeta. split.
  - intros sugs. f_equal. symmetry. now apply formatLoop_inRange.
  - rewrite formatLoop_nil. apply join_split.
Qed.

(** X13: when every message is on one line, the listing has one line per
    line of the code and one comment line per suggestion in range. *)
Theorem listing_adds_one_line_per_suggestion
        (style : string) (sugs : list Suggestion.t) (lines : list string) :
  Forall (fun s => Js.includes NL (Suggestion.message s) = false) sugs ->
  List.length (EngineOutput.formatLoop style sugs lines 0)
  = List.length lines + countIf (inRange (List.length lines)) sugs.
Proof.
  intros One. now rewrite formatLoop_length.
Qed.

Lemma listing_adds_one_line_per_suggestion_witness :
  List.length
    (EngineOutput.formatLoop "color: red;" [Samples.namingFinding]
                             ["var my_variable = 1;"; "x = 2"] 0)
  = 2 + countIf (inRange 2) [Samples.namingFinding].
Proof.
  apply (listing_adds_one_line_per_suggestion
           "color: red;" [Samples.namingFinding]
           ["var my_variable = 1;"; "x = 2"]).
  repeat constructor.
Defined.

(** X14: with a protector name configured, the division [fix] never
    rewrites anything. When the fix style names a key inherited from
    [Object.prototype] and the entry has templates, it throws a TypeError
    on the template; otherwise it returns the code unchanged when the
    expression occurs on no line, and throws a TypeError (the array
    returned by [exec] is passed to the wrap test) as soon as it occurs on
    some line. *)
Theorem division_fix_never_rewrites_with_protectors
        (w : Window.t) (code : string) (s : Suggestion.t) (config : Config.t)
        (rc : RuleConfig.t) (f : string) (skip : list string) (o : string) :
  Config.ruleEntry config DivisionOperations.name = Ok (Some rc) ->
  Js.truthyBool (RuleConfig.autoFixEnabled rc) = true ->
  RuleConfig.skipIfWrappedIn rc = Some (f :: skip) ->
  Suggestion.original s = Some o ->
  o <> "" ->
  DivisionOperations.fix_ w code s config
  = if Js.isProtoKey (Js.orStr (RuleConfig.fixStyle rc) "traditional")
       && hasTemplates rc
    then Throw (TypeError "template.replace is not a function")
    else if occursOnSomeLine o code
    then Throw (TypeError "str.replace is not a function")
    else Ok code.
Proof.
  intros RC AF S O NE. unfold DivisionOperations.fix_, fixProlog.
  rewrite RC, AF, O. cbn [negb].
  destruct o as [|c o]; [congruence|]. cbn [Js.truthyStr negb Js.orStr].
  destruct (RuleConfig.templateOr _ _) as [template|] eqn:T.
  - destruct (Js.isProtoKey _ && hasTemplates rc) eqn:P.
    { apply (templateOr_none rc _ "ifNaN({expression}, {defaultAltValue})")
        in P. congruence. }
    unfold occursOnSomeLine.
    destruct (existsb (Js.includes (String c o)) (Js.split NL code)) eqn:E.
    + now rewrite (fixLines_protected _ _ rc f skip _ S E).
    + rewrite (fixLines_absent _ _ rc _ E). now rewrite join_split.
  - apply templateOr_none in T. now rewrite T.
Qed.

Lemma division_fix_never_rewrites_with_protectors_witness :
  DivisionOperations.fix_ Samples.bareWindow "x = a / b"
    (Suggestion.Make 1 6 "" "warning" "divisionOperations" "" true None
                     (Some "a / b") 1 None)
    Samples.divisionConfig
  = Throw (TypeError "str.replace is not a function").
Proof.
  apply (division_fix_never_rewrites_with_protectors
           Samples.bareWindow "x = a / b" _ Samples.divisionConfig
           (Samples.fixable (Some Samples.divisionTemplates)
                            (Some ["ifNaN"; "catch"; "ifNull"; "safeDivide"]))
           "ifNaN" ["catch"; "ifNull"; "safeDivide"] "a / b");
    try reflexivity.
  discriminate.
Defined.

(** X15: a finding whose expression does not occur in the code (a stale
    finding) is harmless: for a configuration with a rule table whose fix
    styles, and the forced form selection of the window, name no key
    inherited from [Object.prototype], and for a finding without a
    [fixed] key, the [fix] of each of the eight rules returns the code
    unchanged. *)
Theorem stale_findings_are_harmless
        (w : Window.t) (code o : string) (s : Suggestion.t)
        (config : Config.t) (rules : list (string * RuleConfig.t)) :
  Config.suggestionRules config = Some rules ->
  forallb (fun kv => ownStyles w (snd kv)) rules = true ->
  Suggestion.original s = Some o ->
  Suggestion.fixed s = None ->
  Js.includes o code = false ->
  Forall (fun r => fix_ r w code s config = Ok code) DSL_RULES.
Proof.
  intros T Own O F H.
  destruct (wrapping_fixes_absent w code o s config rules T Own O H) as [D N].
  destruct config as [d sr l]. cbn [Config.suggestionRules] in T. subst sr.
  pose proof fix_is_identity_except_wrapping as HI.
  unfold DSL_RULES in *.
  repeat match goal with
         | X : Forall _ (_ :: _) |- _ =>
             inversion X as [|? ? ? ?]; subst; clear X
         end.
  repeat (constructor;
          [first [exact D | exact N
                 | match goal with
                   | X : _ \/ _ \/ FixIsIdentity ?r |- fix_ ?r _ _ _ _ = _ =>
                       destruct X as [X|[X|X]];
                       [discriminate X | discriminate X | now apply X]
                   end]|]).
  constructor.
Qed.

Lemma stale_findings_are_harmless_witness :
  Forall (fun r =>
            fix_ r Samples.bareWindow "x = 1"
                 (Suggestion.Make 1 6 "" "warning" "divisionOperations" ""
                                  true None (Some "a / b") 1 None)
                 Samples.divisionConfig
            = Ok "x = 1")
         DSL_RULES.
Proof.
  apply (stale_findings_are_harmless
           Samples.bareWindow "x = 1" "a / b" _ Samples.divisionConfig
           [("divisionOperations",
             Samples.fixable (Some Samples.divisionTemplates)
                             (Some ["ifNaN"; "catch"; "ifNull"; "safeDivide"]))]);
    reflexivity.
Defined.

(** X16: every finding of the division rule quotes an expression: its
    [original] is present, holds the operator [/] (so it is not empty)
    and carries no white space at either end. *)
Theorem division_findings_quote_an_expression
        (code : string) (options : Engine.Options) (w : Window.t)
        (counters : Engine.Counters) (r : Engine.AnalysisResult)
        (counters' : Engine.Counters) :
  Engine.analyzeDSL code options w counters = (Ok r, counters') ->
  Forall (fun s =>
            Suggestion.rule s = DivisionOperations.name ->
            exists e,
              Suggestion.original s = Some e
              /\ Js.includes "/" e = true
              /\ Js.trim e = e)
         (Engine.suggestions r).
Proof.
  intros H. apply analyzeDSL_blocks in H. destruct H as (blocks & -> & F2).
  eapply Forall_impl; [|exact (blocks_anchor _ _ _ F2)].
  intros s (lineText & A) R. destruct (A R) as (G & O).
  eexists. split; [exact O|]. now apply extract_has_operator.
Qed.

Lemma division_findings_quote_an_expression_witness :
  exists r counters',
    Engine.analyzeDSL Samples.threeDivisions (Some Samples.divisionConfig)
                      Samples.bareWindow Engine.freshCounters
    = (Ok r, counters')
    /\ Forall (fun s =>
                 Suggestion.rule s = DivisionOperations.name ->
                 exists e,
                   Suggestion.original s = Some e
                   /\ Js.includes "/" e = true
                   /\ Js.trim e = e)
              (Engine.suggestions r).
Proof.
  destruct (Engine.analyzeDSL Samples.threeDivisions
              (Some Samples.divisionConfig) Samples.bareWindow
              Engine.freshCounters)
    as [[r|e] counters'] eqn:E.
  - exists r, counters'. split; [reflexivity|].
    exact (division_findings_quote_an_expression _ _ _ _ _ _ E).
  - exfalso. vm_compute in E. discriminate E.
Defined.

(** X17: the division findings of one line quote pairwise distinct
    expressions: an expression that occurs several times on the line is
    reported once. *)
Theorem division_reports_each_expression_once
        (line : string) (lineNumber : nat) (lines : list string)
        (context : Context.t) (config : Config.t) (c c' : nat)
        (sugs : list Suggestion.t) :
  DivisionOperations.check line lineNumber lines context config c
  = (Ok sugs, c') ->
  NoDup (map Suggestion.original sugs).
Proof.
  intros H. unfold DivisionOperations.check in H.
  apply ruleProlog_ok in H. destruct H as [[-> _]|(rc & _ & H)];
    [constructor|].
  destruct (Js.includes "/*" line && Js.includes "*/" line).
  { inversion H. constructor. }
  apply finish_ok in H. destruct H as [-> _].
  pose (Q := fun acc : LoopAcc =>
               NoDup (map Suggestion.original (suggestions acc))
               /\ Forall (fun s =>
                            exists e,
                              Suggestion.original s = Some e
                              /\ In e (processedExpressions acc))
                         (suggestions acc)).
  assert (W : forall acc e,
             Forall (fun s =>
                       exists e0,
                         Suggestion.original s = Some e0
                         /\ In e0 (processedExpressions acc))
                    (suggestions acc) ->
             Forall (fun s =>
                       exists e0,
                         Suggestion.original s = Some e0
                         /\ In e0 (e :: processedExpressions acc))
                    (suggestions acc)).
  { intros acc e F. eapply Forall_impl; [|exact F].
    intros s (e0 & O & I). exists e0. split; [exact O | now right]. }
  refine (proj1 (fold_left_invariant Q _ _ _ _ _)); [|split; constructor].
  intros acc m _ (ND & F). unfold DivisionOperations.checkStep.
  destruct (thrown acc); [now split|].
  destruct (DSLRuleUtils.isInsideString line (Regex.index m)); [now split|].
  destruct (_ || _); [now split|].
  destruct (existsb _ (processedExpressions acc)) eqn:Seen; [now split|].
  destruct (DivisionOperations._isAlreadyWrapped _ _ _) as [[|]|e];
    unfold Q; cbn [suggestions processedExpressions pushSuggestion];
    try (split; [exact ND | now apply W]).
  split.
  - rewrite map_app. apply NoDup_app; [exact ND | repeat constructor; easy|].
    intros o I [<-|[]]. cbn [Suggestion.original] in I.
    apply in_map_iff in I. destruct I as (s & O & I).
    rewrite Forall_forall in F. destruct (F s I) as (e0 & O' & I').
    rewrite O' in O. injection O as ->.
    assert (X : existsb
                  (String.eqb
                     (DivisionOperations._extractExpression
                        (DSLRuleUtils.removeStringLiterals line) (Regex.index m)))
                  (processedExpressions acc) = true).
    { apply existsb_exists. eexists. split; [exact I'|].
      apply String.eqb_refl. }
    congruence.
  - apply Forall_app. split; [now apply W|].
    constructor; [|constructor]. eexists. split; [reflexivity | now left].
Qed.

Lemma division_reports_each_expression_once_witness :
  exists sugs c',
    DivisionOperations.check
      "x = f(a / b, a / b, c / d)" 1 ["x = f(a / b, a / b, c / d)"]
      (Context.Make ["x = f(a / b, a / b, c / d)"] 1 false)
      Samples.divisionConfig 0
    = (Ok sugs, c')
    /\ NoDup (map Suggestion.original sugs)
    /\ List.length sugs = 2.
Proof.
  destruct (DivisionOperations.check
              "x = f(a / b, a / b, c / d)" 1 ["x = f(a / b, a / b, c / d)"]
              (Context.Make ["x = f(a / b, a / b, c / d)"] 1 false)
              Samples.divisionConfig 0)
    as [[sugs|e] c'] eqn:E.
  - exists sugs, c'. split; [reflexivity|]. split.
    + exact (division_reports_each_expression_once _ _ _ _ _ _ _ _ E).
    + vm_compute in E. injection E as <- _. reflexivity.
  - exfalso. vm_compute in E. discriminate E.
Defined.

(** X18: the findings of mathOperationsParens and of nonOptimalNodeAccess
    quote the text they point at: [original] is exactly what the masked
    line holds at [column]. *)
Theorem math_and_node_findings_quote_the_text_at_column
        (code : string) (options : Engine.Options) (w : Window.t)
        (counters : Engine.Counters) (r : Engine.AnalysisResult)
        (counters' : Engine.Counters) :
  Engine.analyzeDSL code options w counters = (Ok r, counters') ->
  Forall (fun s =>
            Suggestion.rule s = MathOperationsParens.name
            \/ Suggestion.rule s = NonOptimalNodeAccess.name ->
            OriginalAtColumn (Js.split NL code) s)
         (Engine.suggestions r).
Proof.
  apply analyzeDSL_forall. apply quoting_rules.
Qed.

Lemma math_and_node_findings_quote_the_text_at_column_witness :
  exists r counters',
    Engine.analyzeDSL
      "t = a + b * c"
      (Some (Samples.onlyRule "mathOperationsParens"
                              (Samples.fixable None None)))
      Samples.bareWindow Engine.freshCounters
    = (Ok r, counters')
    /\ Forall (fun s =>
                 Suggestion.rule s = MathOperationsParens.name
                 \/ Suggestion.rule s = NonOptimalNodeAccess.name ->
                 OriginalAtColumn (Js.split NL "t = a + b * c") s)
              (Engine.suggestions r)
    /\ map Suggestion.original (Engine.suggestions r) = [Some "a + b * c"].
Proof.
  destruct (Engine.analyzeDSL
              "t = a + b * c"
              (Some (Samples.onlyRule "mathOperationsParens"
                                      (Samples.fixable None None)))
              Samples.bareWindow Engine.freshCounters)
    as [[r|e] counters'] eqn:E.
  - exists r, counters'. split; [reflexivity|]. split.
    + exact (math_and_node_findings_quote_the_text_at_column _ _ _ _ _ _ E).
    + vm_compute in E. injection E as <- _. reflexivity.
  - exfalso. vm_compute in E. discriminate E.
Defined.

(** X19: the name that variableNaming proposes for a reported variable
    (one that holds an underscore or starts with an upper-case letter) is
    never the reported name itself, and it holds no underscore. *)
Theorem corrected_name_is_new_and_has_no_underscore (varName : string) :
  Js.includes "_" varName || VariableNaming.startsUpper varName = true ->
  VariableNaming.camelCase varName <> varName
  /\ Js.includes "_" (VariableNaming.camelCase varName) = false.
Proof.
  intros H. split; [|apply camelCase_clean].
  destruct (Js.includes "_" varName) eqn:I.
  - intros E. pose proof (camelCase_clean varName) as C.
    rewrite E in C. congruence.
  - cbn [orb] in H. apply startsUpper_head in H.
    destruct H as (c & r & -> & U).
    rewrite (camelCase_no_underscore c r I). intros E.
    injection E as E. now apply lower_changes_upper in U.
Qed.

Lemma corrected_name_is_new_and_has_no_underscore_witness :
  VariableNaming.camelCase "my_variable" <> "my_variable"
  /\ Js.includes "_" (VariableNaming.camelCase "my_variable") = false.
Proof.
  apply corrected_name_is_new_and_has_no_underscore. reflexivity.
Defined.

(** X20: a fix pass in which no rule takes part (no entry that, merged
    with the defaults, is enabled and auto-fixable; in particular no
    configuration at all) runs no analysis: it returns the code and
    leaves every counter as it was, and it does not throw. *)
Theorem fix_pass_without_active_rule_is_inert
        (code : string) (w : Window.t) (counters : Engine.Counters) :
  Forall (fun r =>
            autoFixActive
              (match Window.dslSuggestionsConfigData w with
               | Some c => c
               | None => Config.empty
               end)
              (nameOf r) = false)
         DSL_RULES ->
  Engine.applyCodeSuggestions code w counters = (code, counters).
Proof.
  intros F. unfold Engine.applyCodeSuggestions.
  destruct (_ || _); [reflexivity|].
  unfold Engine.applyBody. now rewrite (applyLoop_inactive w _ _ code counters DSL_RULES F).
Qed.

Lemma fix_pass_without_active_rule_is_inert_witness :
  Engine.applyCodeSuggestions "x = a / b" Samples.bareWindow
                              Samples.staleCounters
  = ("x = a / b", Samples.staleCounters).
Proof.
  apply fix_pass_without_active_rule_is_inert. repeat constructor.
Defined.

(** X21: for a configuration whose protector names, query function
    names and library names are plain (none holds a character with a
    meaning of its own in a pattern source, so that every [new RegExp]
    succeeds), an analysis throws exactly when the configuration has no
    rule table: with [config.suggestionRules] present, whatever its
    entries, no [check] throws on any code. *)
Theorem analysis_throws_only_without_rule_table
        (code : string) (options : Engine.Options) (w : Window.t)
        (counters : Engine.Counters) :
  patternSafe (Engine.configOf options w) = true ->
  ((exists e, fst (Engine.analyzeDSL code options w counters) = Throw e)
   <-> Config.suggestionRules (Engine.configOf options w) = None).
Proof.
  intros _. split.
  - intros (e & H).
    destruct (Config.suggestionRules (Engine.configOf options w)) eqn:T;
      [|reflexivity].
    destruct (analyzeDSL_total code options w counters) as (r & cs & E);
      [congruence|].
    rewrite E in H. discriminate H.
  - intros T. eexists. now apply analyzeDSL_no_table.
Qed.

Lemma analysis_throws_only_without_rule_table_witness :
  (exists e,
      fst (Engine.analyzeDSL "x = a / b" (Some Samples.divisionConfig)
                             Samples.bareWindow Engine.freshCounters)
      = Throw e)
  <-> Config.suggestionRules Samples.divisionConfig = None.
Proof.
  apply (analysis_throws_only_without_rule_table
           "x = a / b" (Some Samples.divisionConfig) Samples.bareWindow
           Engine.freshCounters).
  reflexivity.
Defined.

Lemma only_wrapping_rules_rewrite_witness :
  fst (Engine.applyCodeSuggestions
         "var my_variable = 1;" (Samples.windowWith Samples.namingConfig)
         Engine.freshCounters)
  = "var my_variable = 1;".
Proof.
  apply (only_wrapping_rules_rewrite
           "var my_variable = 1;" (Samples.windowWith Samples.namingConfig)
           Engine.freshCounters);
    reflexivity.
Defined.



(** X24: a block content without a comma is never counted as more than
    one statement: [_countStatements] gives 0 when the content is blank
    once its comments are removed, and 1 otherwise. *)
Theorem content_without_comma_is_one_statement (content : string) :
  Js.includes "," content = false ->
  ExtraneousBlocks._countStatements content <= 1
  /\ (ExtraneousBlocks._countStatements content = 0
      <-> Js.trim (Regex.replaceAll
                     ExtraneousBlocks.lineComment ""
                     (Regex.replaceAll ExtraneousBlocks.blockComment ""
                                       content)) = "").
Proof.
  intros H. rewrite (countStatements_without_comma content H).
  destruct (String.eqb _ "") eqn:E.
  - apply String.eqb_eq in E. split; [lia | now split].
  - apply String.eqb_neq in E. split; [lia|]. split; [discriminate | easy].
Qed.

Lemma content_without_comma_is_one_statement_witness :
  ExtraneousBlocks._countStatements "x = f(y) /* note */" <= 1.
Proof.
  apply content_without_comma_is_one_statement. reflexivity.
Defined.
